(** * agent-lab-ui: the domain client, the live update channel and the
      agents store, embedded from the TypeScript sources.

    Source files embedded here:
    - [services/api.ts] (class [ApiService]);
    - [App.tsx] (module-level WebSocket state, [setupWebSocket],
      [reconnectWithBackoff], the socket handlers, the subscription
      helpers and the [setAgents] updaters of the handlers);
    - [components/CreateAgentForm.tsx] ([handleSubmit], [resetForm]);
    - [components/AgentDetails.tsx] ([fetchResults], [handleAgentLog]);
    - [components/AgentList.tsx] ([handleAgentAction], [filteredAgents]);
    - [components/Dashboard.tsx] (the counters);
    - [components/History.tsx] ([handleSortChange], the filter and sort).

    Conventions of the embedding.
    - The texts the program builds and compares (URLs, property names,
      messages, instructions) are [string]s, one [ascii] per UTF-16 code
      unit: these cover the strings whose code units are below 256, and
      [String.length] is the JavaScript [length].  The free text handed
      to [encodeURIComponent] (sort keys, log levels, artifact types) is
      a [JsString], a list of 16-bit code units, so that surrogates, and
      the [URIError] on a lone one, are part of the model.
    - Values produced by [JSON.parse] are [JsValue]s; objects are finite
      maps from property names to values.
    - Numbers that the code handles are counters, HTTP statuses and sizes:
      they are integers ([Z]).  Delays are rationals ([Q]): the powers of
      1.5 that the backoff computes are dyadic rationals with numerators
      far below 2^53, hence exact as IEEE doubles.
    - A thrown exception is the [Throw] case of [result]; [async]
      functions are modelled by their settled outcome. *)

From Stdlib Require Import ZArith QArith Qminmax Qpower String Ascii List Sorted Lia.
From stdpp Require Import base option list gmap strings pretty.

Set Warnings "-register-all".
#[local] Open Scope string_scope.
#[local] Open Scope Z_scope.

(* ================================================================== *)
(** ** JavaScript values, exceptions and the operators the code uses   *)
(* ================================================================== *)

Module Js.

Inductive JsValue : Type :=
| JUndefined
| JNull
| JBool (b : bool)
| JNum (n : Z)
| JStr (s : string)
| JArr (items : list JsValue)
| JObj (props : gmap string JsValue).

(** Exceptions.  [Error m] is [new Error(m)]: it records the argument of
    the constructor.  [TypeError], [SyntaxError] and [URIError] are
    raised by the runtime ([fetch] failing, property access on
    [null]/[undefined], [JSON.parse] and [response.json()] on malformed
    text, [encodeURIComponent] on a lone surrogate). *)
Inductive JsError : Type :=
| Error (message : JsValue)
| TypeError (message : string)
| SyntaxError (message : string)
| URIError (message : string).

Inductive result (A : Type) : Type :=
| Ok (a : A)
| Throw (e : JsError).
Arguments Ok {A} a.
Arguments Throw {A} e.

#[export] Instance result_ret : MRet result := fun _ a => Ok a.
#[export] Instance result_bind : MBind result := fun _ _ f m =>
  match m with
  | Ok a => f a
  | Throw e => Throw e
  end.

(** A JavaScript string in full is a sequence of UTF-16 code units.
    The texts the program writes itself (URLs, property names, messages)
    have code units below 256 and are kept as [string]; the free text a
    caller hands to [encodeURIComponent] is kept in full, each code unit
    as its high byte and its low byte. *)
Definition CodeUnit : Type := (ascii * ascii)%type.
Definition JsString : Type := list CodeUnit.

Definition unit_code (u : CodeUnit) : N :=
  (256 * N_of_ascii (fst u) + N_of_ascii (snd u))%N.

Definition code_unit (n : N) : CodeUnit :=
  (ascii_of_N (n / 256), ascii_of_N (n mod 256)).

(** A text with code units below 256, as a JavaScript string. *)
Definition of_string (s : string) : JsString :=
  map (fun c => (zero, c)) (list_ascii_of_string s).

(** [try { body } catch (e) { handler(e) }]. *)
Definition try_catch {A} (body : result A) (handler : JsError -> result A)
  : result A :=
  match body with
  | Ok a => Ok a
  | Throw e => handler e
  end.

Definition is_ok {A} (r : result A) : bool :=
  match r with Ok _ => true | Throw _ => false end.

(** ToBoolean. *)
Definition truthy (v : JsValue) : bool :=
  match v with
  | JUndefined | JNull => false
  | JBool b => b
  | JNum n => negb (n =? 0)
  | JStr s => negb (String.eqb s EmptyString)
  | JArr _ | JObj _ => true
  end.

(** [a || b]. *)
Definition js_or (a b : JsValue) : JsValue := if truthy a then a else b.

(** Property read [v.k] for the property names the sources read
    ([data], [message], [agents], [items], [total], [limit], [offset],
    [agent], [results], [status], [length]): a [TypeError] on [null] and
    [undefined], the own property of an object, [length] of arrays and
    strings, [undefined] otherwise. *)
Definition get (v : JsValue) (k : string) : result JsValue :=
  match v with
  | JUndefined | JNull =>
      Throw (TypeError ("Cannot read properties of undefined (reading '" ++ k ++ "')"))
  | JObj props => Ok (default JUndefined (props !! k))
  | JArr items =>
      Ok (if String.eqb k "length" then JNum (Z.of_nat (length items)) else JUndefined)
  | JStr s =>
      Ok (if String.eqb k "length" then JNum (Z.of_nat (String.length s)) else JUndefined)
  | JBool _ | JNum _ => Ok JUndefined
  end.

(** [v !== s] for a string literal [s]. *)
Definition not_strict_equal_string (v : JsValue) (s : string) : bool :=
  match v with
  | JStr s' => negb (String.eqb s' s)
  | _ => true
  end.

(** An optional field of a typed parameter object, read as a value. *)
Definition of_opt_num (o : option Z) : JsValue :=
  match o with Some n => JNum n | None => JUndefined end.

(** Object literal from a list of bindings (later bindings win). *)
Definition obj (bindings : list (string * JsValue)) : JsValue :=
  JObj (list_to_map (reverse bindings)).

End Js.
Export Js.

(* ================================================================== *)
(** ** types.ts                                                        *)
(* ================================================================== *)

Module Types.

Inductive AgentStatus : Type :=
| PENDING | RUNNING | COMPLETED | FAILED | PAUSED | STOPPED | IDLE.

(** The string value of each member of the enum. *)
Definition AgentStatus_value (s : AgentStatus) : string :=
  match s with
  | PENDING => "PENDING" | RUNNING => "RUNNING" | COMPLETED => "COMPLETED"
  | FAILED => "FAILED" | PAUSED => "PAUSED" | STOPPED => "STOPPED"
  | IDLE => "IDLE"
  end.

Inductive BrowserSize : Type := mobile | tablet | pc.

Definition BrowserSize_value (b : BrowserSize) : string :=
  match b with mobile => "mobile" | tablet => "tablet" | pc => "pc" end.

(** [interface Agent], with the [currentStep] property that the
    status-update handler of App.tsx adds to the objects of the list. *)
Record Agent : Type := mkAgent {
  id : string;
  instruction : string;
  status : AgentStatus;
  createdAt : string;
  model : string;
  maxSteps : Z;
  headless : bool;
  useVision : bool;
  generateGif : bool;
  browserSize : BrowserSize;
  currentStep : option Z
}.

(** The argument of [apiService.createAgent]. *)
Record AgentConfig : Type := mkAgentConfig {
  c_instruction : string;
  c_model : string;
  c_maxSteps : Z;
  c_headless : bool;
  c_useVision : bool;
  c_generateGif : bool;
  c_browserSize : BrowserSize
}.

(** ['start' | 'stop' | 'pause' | 'resume']. *)
Inductive Action : Type := start | stop | pause | resume.

Definition Action_value (a : Action) : string :=
  match a with
  | start => "start" | stop => "stop" | pause => "pause" | resume => "resume"
  end.

End Types.
Export Types.

(* ================================================================== *)
(** ** services/api.ts: class ApiService                               *)
(* ================================================================== *)

Module Api.

(** What [fetch] is called with: the URL and the init object. *)
Record Request : Type := mkRequest {
  url : string;
  method : option string;            (* absent: GET *)
  headers : gmap string string;
  body : option JsValue              (* the value given to JSON.stringify *)
}.

(** What [fetch] resolves to.  [json] and [text] are the outcomes of
    reading the body with [response.json()] and [response.text()]. *)
Record Response : Type := mkResponse {
  status : Z;
  json : result JsValue;
  text : result string
}.

(** [response.ok]: the status is in the range 200-299. *)
Definition ok (r : Response) : bool :=
  (200 <=? status r) && (status r <=? 299).

Inductive FetchOutcome : Type :=
| Rejected (e : JsError)             (* network failure: fetch rejects *)
| Responded (r : Response).

Record ApiService : Type := mkApiService {
  apiUrl : string;
  apiKey : option string
}.

Record RequestInit : Type := mkRequestInit {
  init_method : option string;
  init_headers : gmap string string;
  init_body : option JsValue
}.

Definition no_options : RequestInit := mkRequestInit None ∅ None.

(** *** encodeURIComponent *)

Definition unreserved (c : ascii) : bool :=
  let n := N_of_ascii c in
  ((48 <=? n) && (n <=? 57))%N || ((65 <=? n) && (n <=? 90))%N
  || ((97 <=? n) && (n <=? 122))%N
  || bool_decide (c ∈ list_ascii_of_string "-_.!~*'()").

Definition hex_digit (n : N) : ascii :=
  ascii_of_N (if (n <? 10)%N then 48 + n else 55 + n)%N.

Definition percent (byte : N) : string :=
  String "%" (String (hex_digit (byte / 16)) (String (hex_digit (byte mod 16)) EmptyString)).

(** The code units U+D800..U+DBFF and U+DC00..U+DFFF. *)
Definition is_high_surrogate (u : CodeUnit) : bool :=
  ((55296 <=? unit_code u) && (unit_code u <=? 56319))%N.
Definition is_low_surrogate (u : CodeUnit) : bool :=
  ((56320 <=? unit_code u) && (unit_code u <=? 57343))%N.

Definition unreserved_unit (u : CodeUnit) : bool :=
  Ascii.eqb (fst u) zero && unreserved (snd u).

(** The code point of a surrogate pair. *)
Definition pair_code (high low : CodeUnit) : N :=
  ((unit_code high - 55296) * 1024 + (unit_code low - 56320) + 65536)%N.

(** The octets of the UTF-8 encoding of a code point, each escaped. *)
Definition utf8_escaped (v : N) : string :=
  if (v <? 128)%N then percent v
  else if (v <? 2048)%N then
    percent (192 + v / 64) ++ percent (128 + v mod 64)
  else if (v <? 65536)%N then
    percent (224 + v / 4096) ++ percent (128 + (v / 64) mod 64)
    ++ percent (128 + v mod 64)
  else
    percent (240 + v / 262144) ++ percent (128 + (v / 4096) mod 64)
    ++ percent (128 + (v / 64) mod 64) ++ percent (128 + v mod 64).

Definition URI_malformed : JsError := URIError "URI malformed".

(** [encodeURIComponent(s)]: an unreserved character stays, any other
    code point is escaped octet by octet; a surrogate that is not half
    of a pair throws. *)
Fixpoint encodeURIComponent (s : JsString) : result string :=
  match s with
  | [] => Ok EmptyString
  | u :: rest =>
      if unreserved_unit u then
        tail ← encodeURIComponent rest; Ok (String (snd u) tail)
      else if is_low_surrogate u then Throw URI_malformed
      else if is_high_surrogate u then
        match rest with
        | low :: rest' =>
            if is_low_surrogate low then
              tail ← encodeURIComponent rest';
              Ok (utf8_escaped (pair_code u low) ++ tail)
            else Throw URI_malformed
        | [] => Throw URI_malformed
        end
      else
        tail ← encodeURIComponent rest; Ok (utf8_escaped (unit_code u) ++ tail)
  end.

(** *** getAgents parameters *)

Inductive SortOrder : Type := asc | desc.

Definition SortOrder_value (o : SortOrder) : string :=
  match o with asc => "asc" | desc => "desc" end.

Record AgentsParams : Type := mkAgentsParams {
  p_limit : option Z;
  p_offset : option Z;
  p_status : option AgentStatus;
  p_sort : option JsString;
  p_order : option SortOrder
}.

(** [Object.entries(params)] with each value already through [String];
    a property that is [undefined] is [None].  Integers print in plain
    decimal. *)
Definition entries (p : AgentsParams) : list (string * option JsString) :=
  [ ("limit", of_string ∘ pretty <$> p_limit p);
    ("offset", of_string ∘ pretty <$> p_offset p);
    ("status", of_string ∘ AgentStatus_value <$> p_status p);
    ("sort", p_sort p);
    ("order", of_string ∘ SortOrder_value <$> p_order p) ].

(** [.filter(([_, value]) => value !== undefined)]. *)
Definition defined {A : Type} (l : list (string * option A)) : list (string * A) :=
  omap (fun '(key, value) => v ← value; Some (key, v)) l.

(** [.map(([key, value]) => `${key}=${encodeURIComponent(String(value))}`)
    .join('&')]: the first value that cannot be encoded throws. *)
Definition joined (l : list (string * JsString)) : result string :=
  parts ← mapM (fun '(key, value) =>
                  encoded ← encodeURIComponent value;
                  Ok (key ++ "=" ++ encoded)) l;
  Ok (String.concat "&" parts).

Definition queryParams (params : option AgentsParams) : result string :=
  match params with
  | Some p => joined (defined (entries p))
  | None => Ok EmptyString
  end.

Definition query (params : option AgentsParams) : result string :=
  queryParams ← queryParams params;
  Ok (if String.eqb queryParams EmptyString then EmptyString
      else "?" ++ queryParams).

(** [params?.limit] and [params?.offset]. *)
Definition params_limit (params : option AgentsParams) : JsValue :=
  of_opt_num (params ≫= p_limit).
Definition params_offset (params : option AgentsParams) : JsValue :=
  of_opt_num (params ≫= p_offset).

Record AgentsResult : Type := mkAgentsResult {
  agents : JsValue;
  total : JsValue;
  limit : JsValue;
  offset : JsValue
}.

(** *** getAgentLogs parameters *)

Record LogsParams : Type := mkLogsParams {
  l_limit : option Z;
  l_offset : option Z;
  l_level : option JsString;
  l_sort : option JsString;
  l_order : option SortOrder
}.

Definition logs_entries (p : LogsParams) : list (string * option JsString) :=
  [ ("limit", of_string ∘ pretty <$> l_limit p);
    ("offset", of_string ∘ pretty <$> l_offset p);
    ("level", l_level p);
    ("sort", l_sort p);
    ("order", of_string ∘ SortOrder_value <$> l_order p) ].

Definition logs_query (params : option LogsParams) : result string :=
  queryParams ← match params with
                | Some p => joined (defined (logs_entries p))
                | None => Ok EmptyString
                end;
  Ok (if String.eqb queryParams EmptyString then EmptyString
      else "?" ++ queryParams).

Section WithFetch.

Variable fetch : Request -> FetchOutcome.
Variable this : ApiService.

(** The headers [request] sends: the JSON content type, overridden by
    the caller's headers, then the API key when there is one. *)
Definition request_headers (options : RequestInit) : gmap string string :=
  let headers := init_headers options ∪ {[ "Content-Type" := "application/json" ]} in
  match apiKey this with
  | Some key => if String.eqb key EmptyString then headers else <[ "X-API-Key" := key ]> headers
  | None => headers
  end.

(** The argument of [fetch]: the URL [`${this.apiUrl}${endpoint}`] and
    [{ ...options, headers }]. *)
Definition build_request (endpoint : string) (options : RequestInit) : Request :=
  mkRequest (apiUrl this ++ endpoint) (init_method options)
            (request_headers options) (init_body options).

Definition default_error_message : string :=
  "An error occurred while making the request".

(** [private async request<T>(endpoint, options)]. *)
Definition request (endpoint : string) (options : RequestInit) : result JsValue :=
  try_catch
    (match fetch (build_request endpoint options) with
     | Rejected e => Throw e
     | Responded response =>
         data ← try_catch (json response)
                  (fun parseError =>
                     text ← text response;
                     Ok (obj [ ("status", JStr (if ok response then "success" else "error"));
                               ("data", obj [ ("rawText", JStr text) ]);
                               ("message", JStr text) ]));
         if negb (ok response) then
           message ← get data "message";
           Throw (Error (js_or message (JStr default_error_message)))
         else Ok data
     end)
    (fun error => Throw error).

Definition empty_result (params : option AgentsParams) : AgentsResult :=
  mkAgentsResult (JArr []) (JNum 0)
    (js_or (params_limit params) (JNum 10))
    (js_or (params_offset params) (JNum 0)).

(** [async getAgents(params?)]: the query is built before the [try]. *)
Definition getAgents (params : option AgentsParams) : result AgentsResult :=
  query ← query params;
  try_catch
    (response ← request ("/agents" ++ query) no_options;
     data ← get response "data";
     if negb (truthy data) then Ok (empty_result params)
     else
       data_agents ← get data "agents";
       data_items ← get data "items";
       let agentsList := js_or data_agents (js_or data_items (JArr [])) in
       data_total ← get data "total";
       agentsList_length ← get agentsList "length";
       data_limit ← get data "limit";
       data_offset ← get data "offset";
       Ok (mkAgentsResult agentsList
             (js_or data_total agentsList_length)
             (js_or data_limit (js_or (params_limit params) (JNum 10)))
             (js_or data_offset (js_or (params_offset params) (JNum 0)))))
    (fun error => Ok (empty_result params)).

(** [response.data.<field>] of an envelope. *)
Definition data_field (field : string) (response : JsValue) : result JsValue :=
  data ← get response "data";
  get data field.

(** [async getAgentById(id)]. *)
Definition getAgentById (id : string) : result JsValue :=
  response ← request ("/agents/" ++ id) no_options;
  data_field "agent" response.

(** [async createAgent(agent)]: the model is sent as [modelName]. *)
Definition apiAgent (agent : AgentConfig) : JsValue :=
  obj [ ("instruction", JStr (c_instruction agent));
        ("modelName", JStr (c_model agent));
        ("maxSteps", JNum (c_maxSteps agent));
        ("headless", JBool (c_headless agent));
        ("useVision", JBool (c_useVision agent));
        ("generateGif", JBool (c_generateGif agent));
        ("browserSize", JStr (BrowserSize_value (c_browserSize agent))) ].

Definition createAgent (agent : AgentConfig) : result JsValue :=
  response ← request "/agents" (mkRequestInit (Some "POST") ∅ (Some (apiAgent agent)));
  data_field "agent" response.

Definition post : RequestInit := mkRequestInit (Some "POST") ∅ None.

(** [async startAgent(id)], [stopAgent], [pauseAgent], [resumeAgent]. *)
Definition startAgent (id : string) : result JsValue :=
  response ← request ("/agents/" ++ id ++ "/start") post;
  data_field "agent" response.

Definition stopAgent (id : string) : result JsValue :=
  response ← request ("/agents/" ++ id ++ "/stop") post;
  data_field "agent" response.

Definition pauseAgent (id : string) : result JsValue :=
  response ← request ("/agents/" ++ id ++ "/pause") post;
  data_field "agent" response.

Definition resumeAgent (id : string) : result JsValue :=
  response ← request ("/agents/" ++ id ++ "/resume") post;
  data_field "agent" response.

(** [async getAgentResults(id)]. *)
Definition getAgentResults (id : string) : result JsValue :=
  response ← request ("/agents/" ++ id ++ "/results") no_options;
  data_field "results" response.

(** [async updateAgent(id, updates)]; [updates] is the object given to
    [JSON.stringify]. *)
Definition updateAgent (id : string) (updates : JsValue) : result JsValue :=
  response ← request ("/agents/" ++ id) (mkRequestInit (Some "PATCH") ∅ (Some updates));
  data_field "agent" response.

(** [async deleteAgent(id)]. *)
Definition deleteAgent (id : string) : result unit :=
  _ ← request ("/agents/" ++ id) (mkRequestInit (Some "DELETE") ∅ None);
  Ok tt.

(** [async getAgentLogs(id, params?)]: returns [response.data]. *)
Definition getAgentLogs (id : string) (params : option LogsParams) : result JsValue :=
  query ← logs_query params;
  response ← request ("/agents/" ++ id ++ "/logs" ++ query) no_options;
  get response "data".

(** [async getAgentArtifacts(id, type?)]. *)
Definition artifacts_query (type : option JsString) : result string :=
  match type with
  | Some [] | None => Ok EmptyString
  | Some t => encoded ← encodeURIComponent t; Ok ("?type=" ++ encoded)
  end.

Definition getAgentArtifacts (id : string) (type : option JsString) : result JsValue :=
  query ← artifacts_query type;
  response ← request ("/agents/" ++ id ++ "/artifacts" ++ query) no_options;
  data_field "artifacts" response.

(** [async getPresetPrompts()]. *)
Definition getPresetPrompts : result JsValue :=
  response ← request "/preset-prompts" no_options;
  data_field "presetPrompts" response.

(** [async verifyCredentials(credentials)]. *)
Definition verifyCredentials (service username password : string) : result JsValue :=
  response ← request "/credentials/verify"
               (mkRequestInit (Some "POST") ∅
                  (Some (obj [ ("service", JStr service);
                               ("username", JStr username);
                               ("password", JStr password) ])));
  data_field "valid" response.

(** [async testConnection()]: a direct [fetch] of the root endpoint. *)
Definition testConnection_request : Request :=
  mkRequest (apiUrl this ++ "/") (Some "GET")
            (match apiKey this with
             | Some key => if String.eqb key EmptyString then ∅
                           else {[ "X-API-Key" := key ]}
             | None => ∅
             end)
            None.

Definition testConnection : bool :=
  match fetch testConnection_request with
  | Rejected _ => false                      (* catch *)
  | Responded response =>
      if ok response then
        match text response with
        | Ok _ => true
        | Throw _ => false                   (* catch *)
        end
      else false
  end.

End WithFetch.

(** *** Configuration: the constructor, [setConfig], [isConfigured] *)

Definition DEFAULT_API_URL : string := "http://localhost:3030/api/v1".
Definition DEVELOPMENT_API_KEY : string := "development-key".

(** [localStorage]: [getItem] is the lookup ([null] when absent),
    [setItem] the insertion. *)
Abbreviation Storage := (gmap string string).

(** [localStorage.getItem(k) || fallback]. *)
Definition getItem_or (localStorage : Storage) (k fallback : string) : string :=
  match localStorage !! k with
  | Some v => if String.eqb v EmptyString then fallback else v
  | None => fallback
  end.

(** [constructor()]. *)
Definition constructor (localStorage : Storage) : ApiService :=
  mkApiService (getItem_or localStorage "apiUrl" DEFAULT_API_URL)
               (Some (getItem_or localStorage "openaiApiKey" DEVELOPMENT_API_KEY)).

(** [setConfig(apiUrl, apiKey)]: the new fields and the new storage. *)
Definition setConfig (apiUrl apiKey : string) (localStorage : Storage)
  : ApiService * Storage :=
  (mkApiService apiUrl (Some apiKey),
   <[ "openaiApiKey" := apiKey ]> (<[ "apiUrl" := apiUrl ]> localStorage)).

Definition getApiUrl (this : ApiService) : string := apiUrl this.

(** [isConfigured()]: [!!this.apiKey]. *)
Definition isConfigured (this : ApiService) : bool :=
  match apiKey this with
  | Some key => negb (String.eqb key EmptyString)
  | None => false
  end.

End Api.

(* ================================================================== *)
(** ** components/AgentDetails.tsx: fetchResults                       *)
(* ================================================================== *)

Module Details.

Import Api.

(** The React state that [fetchResults] writes. *)
Record State : Type := mkState {
  agentResults : JsValue;
  error : JsValue;                   (* string | null *)
  isLoadingResults : bool
}.

(** [err.message] of a caught exception. *)
Definition message_of (err : JsError) : JsValue :=
  match err with
  | Error message => message
  | TypeError message | SyntaxError message | URIError message => JStr message
  end.

Definition results_request (apiUrl agent_id : string) : Request :=
  mkRequest (apiUrl ++ "/agents/" ++ agent_id ++ "/results") None
            {[ "X-API-Key" := "development-key" ]} None.

(** [const fetchResults = async () => ...] for the agent [agent_id];
    [stored_apiUrl] is [localStorage.getItem("apiUrl")]. *)
Definition fetchResults (fetch : Request -> FetchOutcome)
    (stored_apiUrl : option string) (agent_id : string) (st : State) : State :=
  let st := mkState (agentResults st) (error st) true in
  (* try: the outcome is the new value for agentResults, if any *)
  let body : result JsValue :=
    match stored_apiUrl with
    | None => Throw (Error (JStr "API URL not found"))
    | Some apiUrl =>
        if String.eqb apiUrl EmptyString then Throw (Error (JStr "API URL not found"))
        else
          match fetch (results_request apiUrl agent_id) with
          | Rejected e => Throw e
          | Responded response =>
              if negb (ok response) then
                if status response =? 404 then Ok JNull
                else Throw (Error (JStr "Failed to fetch results"))
              else
                data ← json response;
                data_status ← get data "status";
                if not_strict_equal_string data_status "success" then
                  message ← get data "message";
                  Throw (Error (js_or message (JStr "Failed to fetch results")))
                else
                  data_data ← get data "data";
                  get data_data "results"
          end
    end in
  let st :=
    match body with
    | Ok results => mkState results (error st) (isLoadingResults st)
    | Throw err => mkState (agentResults st) (message_of err) (isLoadingResults st)
    end in
  (* finally *)
  mkState (agentResults st) (error st) false.

(** *** Log entries pushed by the server *)

Inductive LogLevel : Type := info | action | warning | error_level.

(** [interface AgentLogs]. *)
Record AgentLogs : Type := mkAgentLogs {
  log_id : string;
  log_agentId : string;
  log_timestamp : string;
  log_level : LogLevel;
  log_message : string;
  log_stepNumber : option Z;
  log_url : option string;
  log_screenshot : option string;
  log_details : JsValue
}.

(** The [detail] of an "agent-log-update" event. *)
Record LogEvent : Type := mkLogEvent {
  ev_agentId : string;
  ev_log : AgentLogs
}.

(** [handleAgentLog], as the new value of [agentLogs]; [agent_id] is the
    id of the agent the view shows. *)
Definition handleAgentLog (agent_id : string) (data : LogEvent)
    (prevLogs : list AgentLogs) : list AgentLogs :=
  if negb (String.eqb (ev_agentId data) agent_id) then prevLogs
  else
    let newLog := ev_log data in
    if existsb (fun log => String.eqb (log_id log) (log_id newLog)) prevLogs
    then prevLogs
    else newLog :: prevLogs.

End Details.

(* ================================================================== *)
(** ** components/AgentList.tsx: handleAgentAction                     *)
(* ================================================================== *)

Module AgentList.

Import Api.

(** The React state that [handleAgentAction] writes. *)
Record State : Type := mkState {
  isActionInProgress : gmap string bool;
  actionError : option string
}.

Definition action_request (apiUrl agentId : string) (action : Action) : Request :=
  mkRequest (apiUrl ++ "/agents/" ++ agentId ++ "/" ++ Action_value action)
            (Some "POST")
            {[ "Content-Type" := "application/json";
               "X-API-Key" := "development-key" ]}
            (Some (obj [ ("action", JStr (Action_value action)) ])).

(** The [try] block of [handleAgentAction], after the two state writes;
    [stored_apiUrl] is [localStorage.getItem("apiUrl")]. *)
Definition performAction (fetch : Request -> FetchOutcome)
    (stored_apiUrl : option string) (agentId : string) (action : Action)
  : result unit :=
  match stored_apiUrl with
  | None => Throw (Error (JStr "API URL not found"))
  | Some apiUrl =>
      if String.eqb apiUrl EmptyString then Throw (Error (JStr "API URL not found"))
      else
        match fetch (action_request apiUrl agentId action) with
        | Rejected e => Throw e
        | Responded response =>
            if negb (ok response) then
              Throw (Error (JStr ("Failed to " ++ Action_value action
                                  ++ " agent. Server responded with "
                                  ++ pretty (status response))))
            else
              data ← json response;
              data_status ← get data "status";
              if not_strict_equal_string data_status "success" then
                message ← get data "message";
                Throw (Error (js_or message
                                (JStr ("Failed to " ++ Action_value action ++ " agent"))))
              else Ok tt
        end
  end.

Definition handleAgentAction (fetch : Request -> FetchOutcome)
    (stored_apiUrl : option string) (agentId : string) (action : Action)
    (st : State) : State :=
  (* try *)
  let st := mkState (<[ agentId := true ]> (isActionInProgress st)) (actionError st) in
  let st := mkState (isActionInProgress st) None in
  let st :=
    match performAction fetch stored_apiUrl agentId action with
    | Ok _ => st
    | Throw err =>
        mkState (isActionInProgress st)
                (Some ("An error occurred while trying to " ++ Action_value action
                       ++ " the agent."))
    end in
  (* finally *)
  mkState (<[ agentId := false ]> (isActionInProgress st)) (actionError st).

(** *** The filtered list *)

(** [String.prototype.toLowerCase] on code units below 256: the letters
    A-Z and the Latin-1 capitals U+00C0-U+00DE (but for the
    multiplication sign U+00D7) move up by 32. *)
Definition lower (c : ascii) : ascii :=
  let n := N_of_ascii c in
  if ((65 <=? n) && (n <=? 90))%N
     || ((192 <=? n) && (n <=? 222) && negb (n =? 215))%N
  then ascii_of_N (n + 32)
  else c.

Fixpoint toLowerCase (s : string) : string :=
  match s with
  | EmptyString => EmptyString
  | String c rest => String (lower c) (toLowerCase rest)
  end.

(** [s] starts with [t]. *)
Fixpoint starts_with (t s : string) : bool :=
  match t, s with
  | EmptyString, _ => true
  | String _ _, EmptyString => false
  | String a t', String b s' => Ascii.eqb a b && starts_with t' s'
  end.

(** [s.includes(t)]. *)
Fixpoint includes (s t : string) : bool :=
  starts_with t s
  || match s with
     | EmptyString => false
     | String _ rest => includes rest t
     end.

(** The first [filter] callback: the status category. *)
Definition matchesStatus (filterStatus : string) (st : AgentStatus) : bool :=
  if String.eqb filterStatus "all" then true
  else if String.eqb filterStatus "active" then
    match st with RUNNING | PENDING | PAUSED => true | _ => false end
  else if String.eqb filterStatus "idle" then
    match st with IDLE => true | _ => false end
  else if String.eqb filterStatus "completed" then
    match st with COMPLETED => true | _ => false end
  else if String.eqb filterStatus "failed" then
    match st with FAILED | STOPPED => true | _ => false end
  else true.

(** The second [filter] callback: the search term. *)
Definition matchesSearch (searchTerm : string) (agent : Agent) : bool :=
  includes (toLowerCase (instruction agent)) (toLowerCase searchTerm).

Definition filteredAgents (filterStatus searchTerm : string) (agents : list Agent)
  : list Agent :=
  List.filter (matchesSearch searchTerm)
    (List.filter (fun agent => matchesStatus filterStatus (Types.status agent)) agents).

End AgentList.

(* ================================================================== *)
(** ** components/CreateAgentForm.tsx: handleSubmit                    *)
(* ================================================================== *)

Module Form.

(** White space and line terminators that [String.prototype.trim]
    strips, among the code units below 256. *)
Definition is_white_space (c : ascii) : bool :=
  let n := N_of_ascii c in
  ((9 <=? n) && (n <=? 13))%N || (n =? 32)%N || (n =? 160)%N.

Fixpoint trimStart (s : string) : string :=
  match s with
  | EmptyString => EmptyString
  | String c rest => if is_white_space c then trimStart rest else s
  end.

Definition trimEnd (s : string) : string :=
  String.rev (trimStart (String.rev s)).

Definition trim (s : string) : string := trimEnd (trimStart s).

(** [s.replace('T', ' ')]: the first occurrence only. *)
Fixpoint replace_T (s : string) : string :=
  match s with
  | EmptyString => EmptyString
  | String c rest =>
      if Ascii.eqb c "T" then String " " rest else String c (replace_T rest)
  end.

(** The [useState] cells of the form. *)
Record State : Type := mkState {
  instruction : string;
  model : string;
  maxSteps : Z;
  headless : bool;
  useVision : bool;
  generateGif : bool;
  browserSize : BrowserSize;
  selectedPreset : option string;
  isAdvancedOpen : bool
}.

Definition initial : State :=
  mkState EmptyString "gpt-4o" 30 false true true mobile None false.

Definition resetForm (f : State) : State :=
  mkState EmptyString "gpt-4o" 30 false true true mobile None (isAdvancedOpen f).

(** The object built by [handleSubmit]; [uuid] is
    [crypto.randomUUID()] and [now] is [new Date().toISOString()]. *)
Definition newAgent (uuid now : string) (f : State) : Agent :=
  mkAgent uuid (instruction f) PENDING
          (substring 0 19 (replace_T now))
          (model f) (maxSteps f) (headless f) (useVision f) (generateGif f)
          (browserSize f) None.

(** [handleSubmit]: [onCreateAgent] is the prop, acting on the state [W]
    of the parent; the early [return] leaves both states as they are. *)
Definition handleSubmit {W : Type} (onCreateAgent : Agent -> W -> W)
    (uuid now : string) (f : State) (w : W) : State * W :=
  if (Z.of_nat (String.length (trim (instruction f))) <? 10) then (f, w)
  else
    let w := onCreateAgent (newAgent uuid now f) w in
    (resetForm f, w).

End Form.

(* ================================================================== *)
(** ** components/Dashboard.tsx: the counters                          *)
(* ================================================================== *)

Module Dashboard.

(** [a.status === AgentStatus.X]: the members of the enum are strings. *)
Definition has_status (st : AgentStatus) (a : Agent) : bool :=
  String.eqb (AgentStatus_value (Types.status a)) (AgentStatus_value st).

Definition count (st : AgentStatus) (agents : list Agent) : nat :=
  length (List.filter (has_status st) agents).

Definition completedCount := count COMPLETED.
Definition failedCount := count FAILED.
Definition runningCount := count RUNNING.
Definition pendingCount := count PENDING.
Definition pausedCount := count PAUSED.
Definition stoppedCount := count STOPPED.
Definition idleCount := count IDLE.

Definition runningAgents (agents : list Agent) : list Agent :=
  List.filter (fun a => has_status RUNNING a || has_status PENDING a
                        || has_status PAUSED a) agents.

End Dashboard.

(* ================================================================== *)
(** ** components/History.tsx: filter, sort and the column headers     *)
(* ================================================================== *)

Module History.

(** [interface HistoryEntry extends Agent]. *)
Record HistoryEntry : Type := mkHistoryEntry {
  agent : Agent;
  executionTime : string;
  tokenUsage : Z;
  pagesVisited : Z
}.

(** ['date' | 'model' | 'executionTime' | 'tokenUsage']. *)
Inductive SortBy : Type := by_date | by_model | by_executionTime | by_tokenUsage.

Definition SortBy_eqb (a b : SortBy) : bool :=
  match a, b with
  | by_date, by_date | by_model, by_model
  | by_executionTime, by_executionTime | by_tokenUsage, by_tokenUsage => true
  | _, _ => false
  end.

Inductive SortDirection : Type := asc | desc.

(** The [useState] cells that the view depends on; [statusFilter] is
    [None] for ['all']. *)
Record State : Type := mkState {
  searchTerm : string;
  statusFilter : option AgentStatus;
  sortBy : SortBy;
  sortDirection : SortDirection
}.

Definition initial : State := mkState EmptyString None by_date desc.

Definition handleSortChange (newSortBy : SortBy) (st : State) : State :=
  if SortBy_eqb (sortBy st) newSortBy then
    mkState (searchTerm st) (statusFilter st) (sortBy st)
            (match sortDirection st with asc => desc | desc => asc end)
  else
    mkState (searchTerm st) (statusFilter st) newSortBy desc.

(** The [filter] callback. *)
Definition keeps (st : State) (entry : HistoryEntry) : bool :=
  let matchesSearch :=
    AgentList.includes (AgentList.toLowerCase (instruction (agent entry)))
                       (AgentList.toLowerCase (searchTerm st)) in
  let matchesStatus :=
    match statusFilter st with
    | None => true
    | Some wanted =>
        String.eqb (AgentStatus_value (Types.status (agent entry)))
                   (AgentStatus_value wanted)
    end in
  matchesSearch && matchesStatus.

(** [Array.prototype.sort] with a comparator: the sort is stable, so
    for a consistent comparator its result is the one of this insertion
    sort, where an element stays before the later ones it is not greater
    than. *)
Fixpoint insert {A : Type} (cmp : A -> A -> Z) (x : A) (l : list A) : list A :=
  match l with
  | [] => [x]
  | y :: rest => if cmp x y <=? 0 then x :: l else y :: insert cmp x rest
  end.

Fixpoint Array_sort {A : Type} (cmp : A -> A -> Z) (l : list A) : list A :=
  match l with
  | [] => []
  | x :: rest => insert cmp x (Array_sort cmp rest)
  end.

Section WithLocale.

(** [new Date(s).getTime()], [a.localeCompare(b)] and the local
    [getTimeInSeconds], on the values of the entries. *)
Variable getTime : string -> Z.
Variable localeCompare : string -> string -> Z.
Variable getTimeInSeconds : string -> Z.

(** The [sort] callback. *)
Definition compare (st : State) (a b : HistoryEntry) : Z :=
  match sortBy st with
  | by_date =>
      match sortDirection st with
      | asc => getTime (createdAt (agent a)) - getTime (createdAt (agent b))
      | desc => getTime (createdAt (agent b)) - getTime (createdAt (agent a))
      end
  | by_model =>
      match sortDirection st with
      | asc => localeCompare (Types.model (agent a)) (Types.model (agent b))
      | desc => localeCompare (Types.model (agent b)) (Types.model (agent a))
      end
  | by_executionTime =>
      match sortDirection st with
      | asc => getTimeInSeconds (executionTime a) - getTimeInSeconds (executionTime b)
      | desc => getTimeInSeconds (executionTime b) - getTimeInSeconds (executionTime a)
      end
  | by_tokenUsage =>
      match sortDirection st with
      | asc => tokenUsage a - tokenUsage b
      | desc => tokenUsage b - tokenUsage a
      end
  end.

Definition filteredAndSortedEntries (st : State)
    (historyEntries : list HistoryEntry) : list HistoryEntry :=
  Array_sort (compare st) (List.filter (keeps st) historyEntries).

End WithLocale.

End History.

(* ================================================================== *)
(** ** App.tsx                                                         *)
(* ================================================================== *)

Module App.

(** *** Module-level constants *)

Definition MAX_RECONNECT_ATTEMPTS : Z := 10.
Definition RECONNECT_DELAY : Q := 2000 # 1.
Definition GROWTH : Q := 3 # 2.                        (* 1.5 *)
Definition GROWTH_CAP : Q := 15 # 1.
Definition LONG_RETRY_DELAY : Q := 60000 # 1.
Definition CONNECTION_TIMEOUT : Q := 5000 # 1.
Definition HEARTBEAT_PERIOD : Q := 15000 # 1.

(** [Math.pow(x, n)] for an integer exponent. *)
Definition Math_pow (x : Q) (n : Z) : Q := Qpower x n.

(** *** The browser objects the module talks to *)

Inductive ReadyState : Type := CONNECTING | OPEN | CLOSING | CLOSED.

Definition ReadyState_eqb (a b : ReadyState) : bool :=
  match a, b with
  | CONNECTING, CONNECTING | OPEN, OPEN | CLOSING, CLOSING | CLOSED, CLOSED => true
  | _, _ => false
  end.

(** A [WebSocket]: [sent] lists, oldest first, the values whose
    [JSON.stringify] text was handed to [send]; [connectionTimeout] is
    the timer that [setupWebSocket] created for this socket. *)
Record WebSocket : Type := mkWebSocket {
  ws_url : string;
  readyState : ReadyState;
  sent : list JsValue;
  connectionTimeout : positive
}.

(** [socket.send(JSON.stringify(v))]: throws while CONNECTING, queues the
    message while OPEN, drops it once CLOSING or CLOSED. *)
Definition send (v : JsValue) (s : WebSocket) : result WebSocket :=
  match readyState s with
  | CONNECTING => Throw (Error (JStr "InvalidStateError"))
  | OPEN => Ok (mkWebSocket (ws_url s) OPEN (sent s ++ [v]) (connectionTimeout s))
  | CLOSING | CLOSED => Ok s
  end.

(** [socket.close(...)]. *)
Definition close (s : WebSocket) : WebSocket :=
  match readyState s with
  | CONNECTING | OPEN => mkWebSocket (ws_url s) CLOSING (sent s) (connectionTimeout s)
  | CLOSING | CLOSED => s
  end.

(** The functions given to [setTimeout] and [setInterval]. *)
Inductive Callback : Type :=
| CbSetupWebSocket            (* setTimeout(setupWebSocket, backoffDelay) *)
| CbResetAndSetup             (* () => { reconnectAttempts = 0; setupWebSocket() } *)
| CbConnectionTimeout         (* the 5 s guard of setupWebSocket *)
| CbHeartbeat.                (* the setInterval of onopen *)

Record Timer : Type := mkTimer {
  delay : Q;
  callback : Callback;
  repeating : bool
}.

Definition is_reconnect (t : Timer) : bool :=
  match callback t with
  | CbSetupWebSocket | CbResetAndSetup => true
  | CbConnectionTimeout | CbHeartbeat => false
  end.

(** The parsed [event.data] of a server message; the handler reads
    [status] and [currentStep] for status updates only. *)
Record ServerEvent : Type := mkServerEvent {
  event : string;
  agentId : string;
  data_status : AgentStatus;
  data_currentStep : option Z;
  detail : JsValue
}.

Record CloseEvent : Type := mkCloseEvent {
  code : Z;
  reason : string;
  wasClean : bool
}.

(** Calls made on [apiService] by the handlers. *)
Inductive ApiCall : Type :=
| CallCreateAgent (config : AgentConfig)
| CallAction (action : Action) (agentId : string)
| CallDeleteAgent (agentId : string).

(** *** The state: module variables, the window's timers, React state *)

Record State : Type := mkState {
  (* let ... at module level *)
  socket : option WebSocket;
  reconnectAttempts : Z;
  reconnectTimeout : option positive;
  isIntentionalClose : bool;
  heartbeatInterval : option positive;
  (* window: pending timers, the next timer id, every timer ever set *)
  timers : gmap positive Timer;
  nextTimerId : positive;
  timerLog : list Timer;
  dispatched : list (string * ServerEvent);
  (* useState cells of App *)
  agents : list Agent;
  isWebSocketConnected : bool;
  isLoading : bool;
  error : option string;
  infoMessage : option string;
  (* the router and the calls issued on apiService *)
  location : string;
  apiCalls : list ApiCall
}.

Definition set_socket v (s : State) : State :=
  mkState v (reconnectAttempts s) (reconnectTimeout s) (isIntentionalClose s)
    (heartbeatInterval s) (timers s) (nextTimerId s) (timerLog s) (dispatched s)
    (agents s) (isWebSocketConnected s) (isLoading s) (error s) (infoMessage s)
    (location s) (apiCalls s).
Definition set_reconnectAttempts v (s : State) : State :=
  mkState (socket s) v (reconnectTimeout s) (isIntentionalClose s)
    (heartbeatInterval s) (timers s) (nextTimerId s) (timerLog s) (dispatched s)
    (agents s) (isWebSocketConnected s) (isLoading s) (error s) (infoMessage s)
    (location s) (apiCalls s).
Definition set_reconnectTimeout v (s : State) : State :=
  mkState (socket s) (reconnectAttempts s) v (isIntentionalClose s)
    (heartbeatInterval s) (timers s) (nextTimerId s) (timerLog s) (dispatched s)
    (agents s) (isWebSocketConnected s) (isLoading s) (error s) (infoMessage s)
    (location s) (apiCalls s).
Definition set_isIntentionalClose v (s : State) : State :=
  mkState (socket s) (reconnectAttempts s) (reconnectTimeout s) v
    (heartbeatInterval s) (timers s) (nextTimerId s) (timerLog s) (dispatched s)
    (agents s) (isWebSocketConnected s) (isLoading s) (error s) (infoMessage s)
    (location s) (apiCalls s).
Definition set_heartbeatInterval v (s : State) : State :=
  mkState (socket s) (reconnectAttempts s) (reconnectTimeout s) (isIntentionalClose s)
    v (timers s) (nextTimerId s) (timerLog s) (dispatched s)
    (agents s) (isWebSocketConnected s) (isLoading s) (error s) (infoMessage s)
    (location s) (apiCalls s).
Definition set_window tm nx lg (s : State) : State :=
  mkState (socket s) (reconnectAttempts s) (reconnectTimeout s) (isIntentionalClose s)
    (heartbeatInterval s) tm nx lg (dispatched s)
    (agents s) (isWebSocketConnected s) (isLoading s) (error s) (infoMessage s)
    (location s) (apiCalls s).
Definition dispatchEvent m (s : State) : State :=
  mkState (socket s) (reconnectAttempts s) (reconnectTimeout s) (isIntentionalClose s)
    (heartbeatInterval s) (timers s) (nextTimerId s) (timerLog s) (dispatched s ++ [m])
    (agents s) (isWebSocketConnected s) (isLoading s) (error s) (infoMessage s)
    (location s) (apiCalls s).
(** [setAgents(updater)]. *)
Definition setAgents (updater : list Agent -> list Agent) (s : State) : State :=
  mkState (socket s) (reconnectAttempts s) (reconnectTimeout s) (isIntentionalClose s)
    (heartbeatInterval s) (timers s) (nextTimerId s) (timerLog s) (dispatched s)
    (updater (agents s)) (isWebSocketConnected s) (isLoading s) (error s) (infoMessage s)
    (location s) (apiCalls s).
Definition setIsWebSocketConnected v (s : State) : State :=
  mkState (socket s) (reconnectAttempts s) (reconnectTimeout s) (isIntentionalClose s)
    (heartbeatInterval s) (timers s) (nextTimerId s) (timerLog s) (dispatched s)
    (agents s) v (isLoading s) (error s) (infoMessage s)
    (location s) (apiCalls s).
Definition setIsLoading v (s : State) : State :=
  mkState (socket s) (reconnectAttempts s) (reconnectTimeout s) (isIntentionalClose s)
    (heartbeatInterval s) (timers s) (nextTimerId s) (timerLog s) (dispatched s)
    (agents s) (isWebSocketConnected s) v (error s) (infoMessage s)
    (location s) (apiCalls s).
Definition setError v (s : State) : State :=
  mkState (socket s) (reconnectAttempts s) (reconnectTimeout s) (isIntentionalClose s)
    (heartbeatInterval s) (timers s) (nextTimerId s) (timerLog s) (dispatched s)
    (agents s) (isWebSocketConnected s) (isLoading s) v (infoMessage s)
    (location s) (apiCalls s).
Definition setInfoMessage v (s : State) : State :=
  mkState (socket s) (reconnectAttempts s) (reconnectTimeout s) (isIntentionalClose s)
    (heartbeatInterval s) (timers s) (nextTimerId s) (timerLog s) (dispatched s)
    (agents s) (isWebSocketConnected s) (isLoading s) (error s) v
    (location s) (apiCalls s).
Definition navigate v (s : State) : State :=
  mkState (socket s) (reconnectAttempts s) (reconnectTimeout s) (isIntentionalClose s)
    (heartbeatInterval s) (timers s) (nextTimerId s) (timerLog s) (dispatched s)
    (agents s) (isWebSocketConnected s) (isLoading s) (error s) (infoMessage s)
    v (apiCalls s).
Definition call_api c (s : State) : State :=
  mkState (socket s) (reconnectAttempts s) (reconnectTimeout s) (isIntentionalClose s)
    (heartbeatInterval s) (timers s) (nextTimerId s) (timerLog s) (dispatched s)
    (agents s) (isWebSocketConnected s) (isLoading s) (error s) (infoMessage s)
    (location s) (apiCalls s ++ [c]).

(** The state when the module is loaded and [App] first renders. *)
Definition initial : State :=
  mkState None 0 None false None ∅ 1%positive [] [] [] false true None None "/" [].

(** [window.setTimeout(cb, delay)] and [window.setInterval(cb, delay)]:
    the timer gets the next id. *)
Definition set_timer (t : Timer) (s : State) : positive * State :=
  (nextTimerId s,
   set_window (<[ nextTimerId s := t ]> (timers s)) (Pos.succ (nextTimerId s))
              (timerLog s ++ [t]) s).

Definition setTimeout (cb : Callback) (d : Q) : State -> positive * State :=
  set_timer (mkTimer d cb false).
Definition setInterval (cb : Callback) (d : Q) : State -> positive * State :=
  set_timer (mkTimer d cb true).

(** [clearTimeout(id)], [clearInterval(id)]. *)
Definition clearTimeout (id : positive) (s : State) : State :=
  set_window (delete id (timers s)) (nextTimerId s) (timerLog s) s.
Definition clearInterval := clearTimeout.

(** *** reconnectWithBackoff *)

(** [RECONNECT_DELAY * Math.min(Math.pow(1.5, reconnectAttempts - 1), 15)]. *)
Definition backoffDelay (reconnectAttempts : Z) : Q :=
  (RECONNECT_DELAY * Qmin (Math_pow GROWTH (reconnectAttempts - 1)) GROWTH_CAP)%Q.

Definition reconnecting_message (attempt : Z) : string :=
  "Reconnecting to real-time updates (attempt " ++ pretty attempt ++ "/"
  ++ pretty MAX_RECONNECT_ATTEMPTS ++ ")...".

Definition reconnectWithBackoff (s : State) : State :=
  if reconnectAttempts s <? MAX_RECONNECT_ATTEMPTS then
    let s := set_reconnectAttempts (reconnectAttempts s + 1) s in
    let d := backoffDelay (reconnectAttempts s) in
    let s := match reconnectTimeout s with
             | Some id => clearTimeout id s
             | None => s
             end in
    let '(id, s) := setTimeout CbSetupWebSocket d s in
    let s := set_reconnectTimeout (Some id) s in
    setInfoMessage (Some (reconnecting_message (reconnectAttempts s))) s
  else
    let '(id, s) := setTimeout CbResetAndSetup LONG_RETRY_DELAY s in
    let s := set_reconnectTimeout (Some id) s in
    setInfoMessage (Some "Connection lost. Still trying to reconnect...") s.

(** *** setupWebSocket and the handlers it installs *)

(** [s.replace(/\/api\/v1$/, '')] and [s.replace(/^http/, 'ws')]. *)
Definition strip_suffix (suffix s : string) : string :=
  let n := String.length s in
  let m := String.length suffix in
  if (m <=? n)%nat && String.eqb (substring (n - m) m s) suffix
  then substring 0 (n - m) s else s.

Definition replace_prefix (old new s : string) : string :=
  if String.prefix old s
  then new ++ substring (String.length old) (String.length s - String.length old) s
  else s.

Definition wsUrl (apiUrl : string) : string :=
  replace_prefix "http" "ws" (strip_suffix "/api/v1" apiUrl) ++ "/api/ws".

(** [{ ...agent, status: data.status, currentStep: data.currentStep }]. *)
Definition with_status (agent : Agent) (st : AgentStatus) (step : option Z) : Agent :=
  mkAgent (id agent) (instruction agent) st (createdAt agent) (model agent)
          (Types.maxSteps agent) (Types.headless agent) (Types.useVision agent)
          (Types.generateGif agent) (Types.browserSize agent) step.

Definition ping : JsValue := obj [ ("event", JStr "ping") ].

(** The updater given to [setAgents] by [socket.onmessage]. *)
Definition applyStatusUpdate (data : ServerEvent) (prevAgents : list Agent)
  : list Agent :=
  map (fun agent =>
         if String.eqb (id agent) (agentId data)
         then with_status agent (data_status data) (data_currentStep data)
         else agent)
      prevAgents.

Definition forwarded_events : list string :=
  [ "agent-status-update"; "agent-log-update"; "agent-result-update";
    "agent-navigation-update"; "agent-screenshot-update" ].

(** [socket.onmessage]; [None] is a text on which the [try] block throws
    ([JSON.parse] rejects it, or it parses to [null]): the exception is
    caught and logged. *)
Definition onmessage (parsed : option ServerEvent) (s : State) : State :=
  match parsed with
  | None => s
  | Some data =>
      if String.eqb (event data) "pong" then set_reconnectAttempts 0 s
      else if existsb (String.eqb (event data)) forwarded_events then
        let s := dispatchEvent (event data, data) s in
        if String.eqb (event data) "agent-status-update"
        then setAgents (applyStatusUpdate data) s
        else s
      else s
  end.

Section WithEnvironment.

(** The configured API URL, and whether [new WebSocket(url)] accepts the
    URL (it throws otherwise). *)
Variable apiUrl : string.
Variable WebSocket_accepts : string -> bool.

Definition setupWebSocket (s : State) : State :=
  let s := match reconnectTimeout s with
           | Some id => set_reconnectTimeout None (clearTimeout id s)
           | None => s
           end in
  let s := match heartbeatInterval s with
           | Some id => set_heartbeatInterval None (clearInterval id s)
           | None => s
           end in
  (* try *)
  let url := wsUrl apiUrl in
  let s := set_isIntentionalClose false s in
  let s := match socket s with
           | Some previous =>
               let s := match readyState previous with
                        | OPEN | CONNECTING => set_isIntentionalClose true s
                        | CLOSING | CLOSED => s
                        end in
               set_socket None s
           | None => s
           end in
  if WebSocket_accepts url then
    let '(timeout, s) := setTimeout CbConnectionTimeout CONNECTION_TIMEOUT s in
    set_socket (Some (mkWebSocket url CONNECTING [] timeout)) s
  else (* catch *)
    reconnectWithBackoff s.

(** The callback of the connection timeout. *)
Definition onConnectionTimeout (s : State) : State :=
  match socket s with
  | Some sk =>
      if ReadyState_eqb (readyState sk) CONNECTING then
        reconnectWithBackoff (set_socket None (set_isIntentionalClose true s))
      else s
  | None => s
  end.

(** [socket.onopen]; [timeout] is the socket's [connectionTimeout]. *)
Definition onopen (timeout : positive) (s : State) : State :=
  let s := clearTimeout timeout s in
  let s := setIsWebSocketConnected true s in
  let s := setInfoMessage (Some "Real-time updates are active") s in
  let s := set_reconnectAttempts 0 s in
  let '(id, s) := setInterval CbHeartbeat HEARTBEAT_PERIOD s in
  set_heartbeatInterval (Some id) s.

(** The heartbeat callback. *)
Definition heartbeat (s : State) : State :=
  match socket s with
  | Some sk =>
      if ReadyState_eqb (readyState sk) OPEN then
        match send ping sk with
        | Ok sk' => set_socket (Some sk') s
        | Throw _ =>
            let s := match heartbeatInterval s with
                     | Some id => set_heartbeatInterval None (clearInterval id s)
                     | None => s
                     end in
            reconnectWithBackoff (set_socket (Some (close sk)) s)
        end
      else s
  | None => s
  end.

(** [socket.onerror]. *)
Definition onerror (timeout : positive) (s : State) : State :=
  let s := clearTimeout timeout s in
  let s := setIsWebSocketConnected false s in
  reconnectWithBackoff s.

(** [socket.onclose]. *)
Definition onclose (timeout : positive) (ev : CloseEvent) (s : State) : State :=
  let s := clearTimeout timeout s in
  let s := setIsWebSocketConnected false s in
  let s := match heartbeatInterval s with
           | Some id => set_heartbeatInterval None (clearInterval id s)
           | None => s
           end in
  if negb (isIntentionalClose s) && negb (code ev =? 1000) && negb (code ev =? 1001)
  then reconnectWithBackoff s
  else s.

(** *** The event loop: a timer fires, or the current socket raises an
        event *)

Definition run_callback (cb : Callback) (s : State) : State :=
  match cb with
  | CbSetupWebSocket => setupWebSocket s
  | CbResetAndSetup => setupWebSocket (set_reconnectAttempts 0 s)
  | CbConnectionTimeout => onConnectionTimeout s
  | CbHeartbeat => heartbeat s
  end.

Definition fire (id : positive) (s : State) : State :=
  match timers s !! id with
  | Some t => run_callback (callback t) (if repeating t then s else clearTimeout id s)
  | None => s
  end.

Inductive Event : Type :=
| EvTimer (id : positive)
| EvOpen
| EvMessage (parsed : option ServerEvent)
| EvError
| EvClose (ev : CloseEvent).

Definition with_readyState (r : ReadyState) (sk : WebSocket) : WebSocket :=
  mkWebSocket (ws_url sk) r (sent sk) (connectionTimeout sk).

Definition step (e : Event) (s : State) : State :=
  match e, socket s with
  | EvTimer id, _ => fire id s
  | EvOpen, Some sk =>
      onopen (connectionTimeout sk) (set_socket (Some (with_readyState OPEN sk)) s)
  | EvMessage parsed, Some sk => onmessage parsed s
  | EvError, Some sk => onerror (connectionTimeout sk) s
  | EvClose ev, Some sk =>
      onclose (connectionTimeout sk) ev (set_socket (Some (with_readyState CLOSED sk)) s)
  | _, None => s
  end.

Definition run (events : list Event) (s : State) : State :=
  fold_left (fun s e => step e s) events s.

(** *** The listeners of the window and the cleanup of the effect *)

(** The listener of the window's [online] event. *)
Definition ononline (s : State) : State := setupWebSocket s.

(** [handleVisibilityChange], once the page is visible. *)
Definition handleVisibilityChange (s : State) : State :=
  match socket s with
  | Some sk =>
      if ReadyState_eqb (readyState sk) OPEN then
        match send ping sk with
        | Ok sk' => set_socket (Some sk') s
        | Throw _ => setupWebSocket s
        end
      else setupWebSocket s
  | None => setupWebSocket s
  end.

(** The cleanup that the effect returns, run when [App] unmounts: the
    socket that is closed here leaves the state, its close event comes
    later. *)
Definition cleanup (s : State) : State :=
  let s := match reconnectTimeout s with
           | Some id => set_reconnectTimeout None (clearTimeout id s)
           | None => s
           end in
  let s := match heartbeatInterval s with
           | Some id => set_heartbeatInterval None (clearInterval id s)
           | None => s
           end in
  let s := match socket s with
           | Some sk => set_socket None (set_isIntentionalClose true s)
           | None => s
           end in
  set_reconnectAttempts 0 s.

End WithEnvironment.

(** *** Subscriptions *)

Definition subscribe_message (agentId : string) : JsValue :=
  obj [ ("event", JStr "subscribe-to-agent"); ("data", JStr agentId) ].

Definition unsubscribe_message (agentId : string) : JsValue :=
  obj [ ("event", JStr "unsubscribe-from-agent"); ("data", JStr agentId) ].

(** The common shape of the two helpers: send when there is a socket and
    it is OPEN; an exception of [send] is caught and logged. *)
Definition send_if_open (message : JsValue) (s : State) : State :=
  match socket s with
  | Some sk =>
      if ReadyState_eqb (readyState sk) OPEN then
        match send message sk with
        | Ok sk' => set_socket (Some sk') s
        | Throw _ => s
        end
      else s
  | None => s
  end.

Definition subscribeToAgentUpdates (agentId : string) : State -> State :=
  send_if_open (subscribe_message agentId).

Definition unsubscribeFromAgentUpdates (agentId : string) : State -> State :=
  send_if_open (unsubscribe_message agentId).

(** *** The handlers that write the agents list *)

(** The updater of [handleCreateAgent]. *)
Definition upsert (createdAgent : Agent) (prevAgents : list Agent) : list Agent :=
  let exists_ := existsb (fun agent => String.eqb (id agent) (id createdAgent)) prevAgents in
  if exists_ then
    map (fun agent => if String.eqb (id agent) (id createdAgent) then createdAgent else agent)
        prevAgents
  else createdAgent :: prevAgents.

(** The updater of [handleAgentAction]. *)
Definition replaceAgent (agentId : string) (updatedAgent : Agent)
    (prevAgents : list Agent) : list Agent :=
  map (fun agent => if String.eqb (id agent) agentId then updatedAgent else agent)
      prevAgents.

(** The updater of [handleDeleteAgent]. *)
Definition removeAgent (agentId : string) (prevAgents : list Agent) : list Agent :=
  List.filter (fun agent => negb (String.eqb (id agent) agentId)) prevAgents.

Definition config_of (newAgent : Agent) : AgentConfig :=
  mkAgentConfig (instruction newAgent) (model newAgent) (Types.maxSteps newAgent)
                (Types.headless newAgent) (Types.useVision newAgent)
                (Types.generateGif newAgent) (Types.browserSize newAgent).

Section WithApiService.

(** The settled outcomes of the calls on [apiService]. *)
Variable createAgent : AgentConfig -> result Agent.
Variable agentAction : Action -> string -> result Agent.
Variable deleteAgent : string -> result unit.

Definition handleCreateAgent (newAgent : Agent) (s : State) : State :=
  (* try *)
  let s := setIsLoading true s in
  let s := call_api (CallCreateAgent (config_of newAgent)) s in
  let s :=
    match createAgent (config_of newAgent) with
    | Ok createdAgent =>
        let s := setAgents (upsert createdAgent) s in
        let s := navigate "/agents" s in
        subscribeToAgentUpdates (id createdAgent) s
    | Throw err =>
        setError (Some "Failed to create agent. Please try again.") s
    end in
  (* finally *)
  setIsLoading false s.

Definition handleAgentAction (agentId : string) (action : Action) (s : State) : State :=
  let s := setIsLoading true s in
  let s := call_api (CallAction action agentId) s in
  let s :=
    match agentAction action agentId with
    | Ok updatedAgent => setAgents (replaceAgent agentId updatedAgent) s
    | Throw err =>
        setError (Some ("Failed to " ++ Action_value action ++ " agent. Please try again.")) s
    end in
  setIsLoading false s.

Definition handleDeleteAgent (agentId : string) (s : State) : State :=
  let s := setIsLoading true s in
  let s := call_api (CallDeleteAgent agentId) s in
  let s :=
    match deleteAgent agentId with
    | Ok _ =>
        let s := setAgents (removeAgent agentId) s in
        unsubscribeFromAgentUpdates agentId s
    | Throw err =>
        setError (Some "Failed to delete agent. Please try again.") s
    end in
  setIsLoading false s.

(** The create route: the form's [onCreateAgent] prop is
    [handleCreateAgent]. *)
Definition submitCreateAgentForm (uuid now : string) (f : Form.State) (s : State)
  : Form.State * State :=
  Form.handleSubmit handleCreateAgent uuid now f s.

End WithApiService.

(** [handleViewAgentDetails]. *)
Definition handleViewAgentDetails (agentId : string) (s : State) : State :=
  navigate ("/agents/" ++ agentId) (subscribeToAgentUpdates agentId s).

(** [AgentDetailsWrapper]: the agent shown for the route parameter
    ([agentId ? agents.find(agent => agent.id === agentId) : null]). *)
Definition selectedAgent (agentId : option string) (agents : list Agent)
  : option Agent :=
  match agentId with
  | Some i =>
      if String.eqb i EmptyString then None
      else find (fun agent => String.eqb (id agent) i) agents
  | None => None
  end.

End App.

(* ================================================================== *)
(** ** Vocabulary of the statements, and concrete scenarios            *)
(* ================================================================== *)

Module Spec.

Import Api.

(** **** The domain client *)

Definition network_failure (o : FetchOutcome) : bool :=
  match o with Rejected _ => true | Responded _ => false end.

Definition parse_failure (o : FetchOutcome) : bool :=
  match o with Rejected _ => false | Responded r => negb (is_ok (json r)) end.

(** The request of [getAgents] for a filter encoded as [query]. *)
Definition agents_request (this : ApiService) (query : string) : Request :=
  build_request this ("/agents" ++ query) no_options.

Definition agent_request (this : ApiService) (id : string) : Request :=
  build_request this ("/agents/" ++ id) no_options.

Definition results_request (this : ApiService) (id : string) : Request :=
  build_request this ("/agents/" ++ id ++ "/results") no_options.

Definition action_request (this : ApiService) (action : Action) (id : string)
  : Request :=
  build_request this ("/agents/" ++ id ++ "/" ++ Action_value action) post.

(** The [switch] of [handleAgentAction]: the method of [apiService]
    called for each action. *)
Definition performAction (fetch : Request -> FetchOutcome) (this : ApiService)
    (action : Action) (id : string) : result JsValue :=
  match action with
  | start => startAgent fetch this id
  | stop => stopAgent fetch this id
  | pause => pauseAgent fetch this id
  | resume => resumeAgent fetch this id
  end.

(** The error [request] throws for a response that is not OK and whose
    body parsed to the object [envelope]. *)
Definition request_error (envelope : gmap string JsValue) : JsError :=
  Error (js_or (default JUndefined (envelope !! "message"))
               (JStr default_error_message)).

(** The error [request] throws for a response that is not OK, by what
    the body of the response holds: a JSON object gives the [Error] of
    its message; JSON [null] gives the [TypeError] of reading a property
    of [null]; any other JSON value has no message and gives the default
    text; a body that is not JSON gives an [Error] with the text of the
    body when that text can still be read, and the error of reading it
    otherwise. *)
Definition request_failure (r : Response) (e : JsError) : Prop :=
  match json r with
  | Ok (JObj envelope) => e = request_error envelope
  | Ok JNull | Ok JUndefined => exists m, e = TypeError m
  | Ok (JBool _) | Ok (JNum _) | Ok (JStr _) | Ok (JArr _) =>
      e = Error (JStr default_error_message)
  | Throw _ =>
      match text r with
      | Ok t => e = Error (js_or (JStr t) (JStr default_error_message))
      | Throw unreadable => e = unreadable
      end
  end.

(** Concrete scenarios. *)
Definition svc : ApiService :=
  mkApiService "http://localhost:3030/api/v1" (Some "development-key").

Definition error_envelope (code : Z) (message : string) : JsValue :=
  obj [ ("status", JStr "error"); ("code", JNum code); ("message", JStr message) ].

Definition body_used : JsError := TypeError "body stream already read".

Definition response_404 : Response :=
  mkResponse 404 (Ok (error_envelope 404 "Not found")) (Throw body_used).

Definition agent_1 : JsValue :=
  obj [ ("id", JStr "agent-1"); ("status", JStr "RUNNING") ].

(** HTTP 200 with an envelope whose status is not "success". *)
Definition response_200_error : Response :=
  mkResponse 200
    (Ok (obj [ ("status", JStr "error"); ("message", JStr "already running");
               ("data", obj [ ("agent", agent_1) ]) ]))
    (Throw body_used).

Definition response_http (status : Z) : Response :=
  mkResponse status (Ok (error_envelope 500 "boom")) (Throw body_used).

(** HTTP 200 with a body that is not JSON; reading the text afterwards
    succeeds or fails depending on the runtime, here it succeeds. *)
Definition response_html : Response :=
  mkResponse 200 (Throw (SyntaxError "Unexpected token <")) (Ok "<html></html>").

Definition response_items : Response :=
  mkResponse 200
    (Ok (obj [ ("status", JStr "success");
               ("data", obj [ ("items", JArr [agent_1]); ("total", JNum 1) ]) ]))
    (Throw body_used).

(** **** The live update channel *)

Import App.

(** The reconnect timers set so far, and those set between two states. *)
Definition reconnects (s : State) : list Timer :=
  List.filter is_reconnect (timerLog s).

Definition scheduled_by (s s' : State) : list Timer :=
  drop (length (reconnects s)) (reconnects s').

(** A close code other than 1000 (normal) and 1001 (going away). *)
Definition abnormal (ev : CloseEvent) : bool :=
  negb (code ev =? 1000) && negb (code ev =? 1001).

(** The timer [reconnectWithBackoff] sets from the state [s]. *)
Definition reconnect_timer (s : State) : Timer :=
  if reconnectAttempts s <? MAX_RECONNECT_ATTEMPTS
  then mkTimer (backoffDelay (reconnectAttempts s + 1)) CbSetupWebSocket false
  else mkTimer LONG_RETRY_DELAY CbResetAndSetup false.

Definition dev_apiUrl : string := "http://localhost:3030/api/v1".
Definition accept_all (url : string) : bool := true.

(** A backend that never answers: the socket raises [error], then the
    retry timer (the [k]-th such timer has id [2k]) fires. *)
Definition failed_attempt (k : positive) : list Event :=
  [ EvError; EvTimer (2 * k) ].

Definition connecting : State := setupWebSocket dev_apiUrl accept_all initial.

(** Ten failures in a row, the last retry timer still pending. *)
Definition exhausted : State :=
  run dev_apiUrl accept_all
      (flat_map failed_attempt (map Pos.of_nat (seq 1 9)) ++ [ EvError ])
      connecting.

(** A state whose socket is OPEN. *)
Definition live : State := step dev_apiUrl accept_all EvOpen connecting.

(** **** The agents list *)

Definition ids (l : list Agent) : list string := map id l.

(** A sequence of upserts, applied in order. *)
Definition upsertAll (upserts init : list Agent) : list Agent :=
  fold_left (fun prevAgents agent => upsert agent prevAgents) upserts init.

(** The most recent upsert with the id [i], if any. *)
Definition last_upsert (i : string) (upserts : list Agent) : option Agent :=
  find (fun agent => String.eqb (id agent) i) (rev upserts).

(** [a'] has the fields of [a], but for [status] and [currentStep]. *)
Definition same_but_status (a a' : Agent) : Prop :=
  id a' = id a /\ instruction a' = instruction a /\ createdAt a' = createdAt a
  /\ model a' = model a /\ Types.maxSteps a' = Types.maxSteps a
  /\ Types.headless a' = Types.headless a /\ Types.useVision a' = Types.useVision a
  /\ Types.generateGif a' = Types.generateGif a
  /\ Types.browserSize a' = Types.browserSize a.

(** Concrete scenarios. *)
Definition example_instruction : string :=
  "Search GitHub for trending Rust repos and list the top 5,".

Definition example_form : Form.State :=
  Form.mkState example_instruction "gpt-4o" 30 false true true mobile None false.

Definition short_form : Form.State :=
  Form.mkState "  go now  " "gpt-4o" 30 false true true mobile None false.

Definition agent_a : Agent :=
  mkAgent "a" "Visit example.com and read the title" COMPLETED "2025-03-01 10:00:00"
          "gpt-4o" 30 false true true mobile None.
Definition agent_b : Agent :=
  mkAgent "b" "Visit example.org and read the title" PENDING "2025-03-01 09:00:00"
          "gpt-4o" 30 false true true mobile None.
(** What a backend returns for the example when it reuses the id "b". *)
Definition agent_b' : Agent :=
  mkAgent "b" example_instruction PENDING "2025-03-02 08:00:00"
          "gpt-4o" 30 false true true mobile None.
Definition agent_c : Agent :=
  mkAgent "c" example_instruction PENDING "2025-03-02 08:00:00"
          "gpt-4o" 30 false true true mobile None.

Definition two_agents : State := setAgents (fun _ => [agent_a; agent_b]) live.

Definition status_update_b : ServerEvent :=
  mkServerEvent "agent-status-update" "b" RUNNING (Some 3) JNull.

(** **** More vocabulary for the domain client *)

(** A character that [encodeURIComponent] can produce. *)
Definition url_safe (c : ascii) : bool := unreserved c || Ascii.eqb c "%".

(** No property of the filter is defined. *)
Definition no_param (p : AgentsParams) : bool :=
  match p_limit p, p_offset p, p_status p, p_sort p, p_order p with
  | None, None, None, None, None => true
  | _, _, _, _, _ => false
  end.

(** A response that lists two agents and reports no total. *)
Definition response_no_total : Response :=
  mkResponse 200
    (Ok (obj [ ("status", JStr "success");
               ("data", obj [ ("agents", JArr [agent_1; agent_1]);
                              ("items", JArr []) ]) ]))
    (Throw body_used).

(** The network is down: [fetch] rejects every request with [e]. *)
Definition offline (e : JsError) : Request -> FetchOutcome := fun _ => Rejected e.

(** The root endpoint answers 200 but its body cannot be read. *)
Definition response_unreadable : Response :=
  mkResponse 200 (Throw (SyntaxError "Unexpected token")) (Throw body_used).

(** **** More vocabulary for the channel *)

(** The socket is still OPEN or CONNECTING. *)
Definition live_socket (s : State) : bool :=
  match socket s with
  | Some sk =>
      match readyState sk with
      | OPEN | CONNECTING => true
      | CLOSING | CLOSED => false
      end
  | None => false
  end.

(** A reconnect delay between the base delay and the long retry delay. *)
Definition delay_in_range (t : Timer) : Prop :=
  (RECONNECT_DELAY <= delay t)%Q /\ (delay t <= LONG_RETRY_DELAY)%Q.

(** What every run keeps: the counter within its bounds, and every
    reconnect timer ever set with a delay in range. *)
Definition channel_invariant (s : State) : Prop :=
  0 <= reconnectAttempts s <= MAX_RECONNECT_ATTEMPTS
  /\ List.Forall delay_in_range (reconnects s).

Definition pong : ServerEvent := mkServerEvent "pong" EmptyString PENDING None JNull.

(** **** More vocabulary for the agents list *)

(** A backend whose calls all fail with [e]. *)
Definition failing_create (e : JsError) : AgentConfig -> result Agent := fun _ => Throw e.
Definition failing_action (e : JsError) : Action -> string -> result Agent :=
  fun _ _ => Throw e.
Definition failing_delete (e : JsError) : string -> result unit := fun _ => Throw e.

Definition server_error : JsError := Error (JStr "Internal Server Error").

(** **** Vocabulary for the views *)

(** The four status categories of the list view. *)
Definition categories : list string := [ "active"; "idle"; "completed"; "failed" ].

(** The log list after a sequence of "agent-log-update" events. *)
Definition afterLogEvents (agent_id : string) (events : list Details.LogEvent)
    (logs : list Details.AgentLogs) : list Details.AgentLogs :=
  fold_left (fun prevLogs data => Details.handleAgentLog agent_id data prevLogs)
            events logs.

Definition log_ids (logs : list Details.AgentLogs) : list string :=
  map Details.log_id logs.

Definition log_1 : Details.AgentLogs :=
  Details.mkAgentLogs "log-1" "a" "2025-03-01T10:00:00Z" Details.info "Opened page"
                      (Some 1) None None JNull.
Definition log_1_again : Details.AgentLogs :=
  Details.mkAgentLogs "log-1" "a" "2025-03-01T10:00:05Z" Details.info "Opened page (retry)"
                      (Some 1) None None JNull.
Definition log_2 : Details.AgentLogs :=
  Details.mkAgentLogs "log-2" "a" "2025-03-01T10:00:07Z" Details.action "Clicked"
                      (Some 2) None None JNull.

(** Strings made of white space only, and strings that neither start
    nor end with white space. *)
Fixpoint all_white (s : string) : bool :=
  match s with
  | EmptyString => true
  | String c rest => Form.is_white_space c && all_white rest
  end.

Definition first_black (s : string) : bool :=
  match s with
  | EmptyString => true
  | String c _ => negb (Form.is_white_space c)
  end.

Definition unpadded (s : string) : bool :=
  first_black s && first_black (String.rev s).

(** A form whose instruction is [text], the other cells as they come. *)
Definition with_instruction (text : string) (f : Form.State) : Form.State :=
  Form.mkState text (Form.model f) (Form.maxSteps f) (Form.headless f)
    (Form.useVision f) (Form.generateGif f) (Form.browserSize f)
    (Form.selectedPreset f) (Form.isAdvancedOpen f).

(** The order of two history entries by token usage, in a direction. *)
Definition token_order (d : History.SortDirection) (a b : History.HistoryEntry)
  : Prop :=
  match d with
  | History.asc => History.tokenUsage a <= History.tokenUsage b
  | History.desc => History.tokenUsage b <= History.tokenUsage a
  end.

(** **** JavaScript strings in full *)

(** A well-formed string: every surrogate is half of a pair, a high one
    followed at once by a low one. *)
Fixpoint well_formed (s : JsString) : bool :=
  match s with
  | [] => true
  | u :: rest =>
      if is_low_surrogate u then false
      else if is_high_surrogate u then
        match rest with
        | low :: rest' => is_low_surrogate low && well_formed rest'
        | [] => false
        end
      else well_formed rest
  end.

(** The string "\uD800", and a filter that sorts by it. *)
Definition lone_surrogate : JsString := [code_unit 55296].

Definition sort_lone_surrogate : AgentsParams :=
  mkAgentsParams None None None (Some lone_surrogate) None.

(** A filter whose sort key, if any, is a well-formed string. *)
Definition well_formed_filter (params : option AgentsParams) : bool :=
  match params with
  | Some p => match p_sort p with Some s => well_formed s | None => true end
  | None => true
  end.

(** A filter that sorts by the creation time. *)
Definition sort_createdAt : AgentsParams :=
  mkAgentsParams None None None (Some (of_string "createdAt")) None.

(** HTTP 404 with the JSON body [null], and with a body that is not
    JSON and can no longer be read as text. *)
Definition response_404_null : Response :=
  mkResponse 404 (Ok JNull) (Throw body_used).

Definition response_404_html : Response :=
  mkResponse 404 (Throw (SyntaxError "Unexpected token <")) (Throw body_used).

(** **** A socket that replaced a live one *)

(** The close event of a socket that the program closed itself, and a
    close by the server with the code 1011 (internal error). *)
Definition closed_by_program : App.CloseEvent :=
  App.mkCloseEvent 1000 "Closing previous connection" true.

Definition closed_by_server : App.CloseEvent :=
  App.mkCloseEvent 1011 "Internal error" true.

(** The channel is open on a first socket (whose connection timeout is
    the timer 1); the window goes online, so that [setupWebSocket]
    replaces the socket; the close event of the first socket arrives;
    the second socket opens. *)
Definition replaced_and_open : App.State :=
  let s := App.ononline dev_apiUrl accept_all live in
  let s := App.onclose 1 closed_by_program s in
  App.step dev_apiUrl accept_all App.EvOpen s.

(** The timers that are pending and set a reconnect. *)
Definition pending_reconnects (s : App.State) : list (positive * App.Timer) :=
  List.filter (fun entry => App.is_reconnect (snd entry)) (map_to_list (App.timers s)).

End Spec.
Import Spec.

#[local] Open Scope list_scope.

(* ================================================================== *)
(** ** Properties                                                      *)
(* ================================================================== *)

(** **** JavaScript strings and encodeURIComponent *)

Lemma list_ascii_of_string_app (a b : string) :
  list_ascii_of_string (a ++ b)%string
  = list_ascii_of_string a ++ list_ascii_of_string b.
Proof. induction a as [| c a IH]; simpl; [reflexivity | rewrite IH; reflexivity]. Qed.

Lemma hex_digit_unreserved n : (n < 16)%N -> Api.unreserved (Api.hex_digit n) = true.
Proof.
  intros Hn.
  assert (Hall : forallb (fun k => Api.unreserved (Api.hex_digit k))
                   (map N.of_nat (seq 0 16)) = true) by reflexivity.
  rewrite forallb_forall in Hall. apply Hall.
  apply in_map_iff. exists (N.to_nat n). split; [apply N2Nat.id |].
  apply in_seq. lia.
Qed.

Lemma percent_url_safe byte :
  (byte < 256)%N ->
  forallb url_safe (list_ascii_of_string (Api.percent byte)) = true.
Proof.
  intros Hb. unfold Api.percent. cbn [list_ascii_of_string forallb].
  unfold url_safe at 2 3.
  rewrite !hex_digit_unreserved.
  - reflexivity.
  - apply N.mod_lt. discriminate.
  - apply N.Div0.div_lt_upper_bound. exact Hb.
Qed.

Lemma unit_code_bound (u : CodeUnit) : (unit_code u < 65536)%N.
Proof.
  unfold unit_code. pose proof (N_ascii_bounded (fst u)).
  pose proof (N_ascii_bounded (snd u)). lia.
Qed.

Lemma unreserved_unit_code (u : CodeUnit) :
  Api.unreserved_unit u = true -> (unit_code u < 256)%N /\ Api.unreserved (snd u) = true.
Proof.
  unfold Api.unreserved_unit, unit_code. intros H. apply andb_prop in H as [Hz Hu].
  apply Ascii.eqb_eq in Hz. rewrite Hz. simpl.
  pose proof (N_ascii_bounded (snd u)). split; [lia | exact Hu].
Qed.

Lemma unreserved_unit_not_surrogate (u : CodeUnit) :
  Api.unreserved_unit u = true ->
  Api.is_low_surrogate u = false /\ Api.is_high_surrogate u = false.
Proof.
  intros H. apply unreserved_unit_code in H as [H _].
  unfold Api.is_low_surrogate, Api.is_high_surrogate.
  split; apply andb_false_iff; left; apply N.leb_gt; lia.
Qed.

Lemma utf8_escaped_url_safe (v : N) :
  (v < 1114112)%N ->
  forallb url_safe (list_ascii_of_string (Api.utf8_escaped v)) = true.
Proof.
  intros Hv. unfold Api.utf8_escaped.
  assert (H64 : forall x, (128 + x mod 64 < 256)%N)
    by (intros x; pose proof (N.mod_lt x 64); lia).
  destruct (N.ltb_spec v 128); [apply percent_url_safe; lia |].
  destruct (N.ltb_spec v 2048).
  { rewrite list_ascii_of_string_app, forallb_app, !percent_url_safe; auto.
    assert (v / 64 < 32)%N by (apply N.Div0.div_lt_upper_bound; lia). lia. }
  destruct (N.ltb_spec v 65536).
  { rewrite !list_ascii_of_string_app, !forallb_app, !percent_url_safe; auto.
    assert (v / 4096 < 16)%N by (apply N.Div0.div_lt_upper_bound; lia). lia. }
  rewrite !list_ascii_of_string_app, !forallb_app, !percent_url_safe; auto.
  assert (v / 262144 < 5)%N by (apply N.Div0.div_lt_upper_bound; lia). lia.
Qed.

Lemma pair_code_bound (high low : CodeUnit) :
  Api.is_high_surrogate high = true -> Api.is_low_surrogate low = true ->
  (65536 <= Api.pair_code high low < 1114112)%N.
Proof.
  unfold Api.is_high_surrogate, Api.is_low_surrogate, Api.pair_code.
  intros Hh Hl. apply andb_prop in Hh as [Hh1 Hh2]. apply andb_prop in Hl as [Hl1 Hl2].
  apply N.leb_le in Hh1, Hh2, Hl1, Hl2. lia.
Qed.


Lemma encodeURIComponent_cases (s : JsString) :
  match Api.encodeURIComponent s with
  | Ok t => well_formed s = true
            /\ forallb url_safe (list_ascii_of_string t) = true
  | Throw e => well_formed s = false /\ e = Api.URI_malformed
  end.
Proof.
  remember (length s) as n eqn:Hn. revert s Hn.
  induction n as [n IH] using lt_wf_ind. intros s ->.
  destruct s as [| u tl]; [simpl; auto |].
  assert (IHtl := IH (length tl) ltac:(simpl; lia) tl eq_refl).
  cbn [Api.encodeURIComponent well_formed].
  destruct (Api.unreserved_unit u) eqn:Hu.
  - destruct (unreserved_unit_not_surrogate u Hu) as [-> ->].
    apply unreserved_unit_code in Hu as [_ Hu].
    destruct (Api.encodeURIComponent tl) as [t | e]; simpl; [| exact IHtl].
    destruct IHtl as [-> Ht]. split; [reflexivity |].
    unfold url_safe at 1. rewrite Hu. exact Ht.
  - destruct (Api.is_low_surrogate u) eqn:Hlow; [auto |].
    destruct (Api.is_high_surrogate u) eqn:Hhigh.
    + destruct tl as [| low rest]; [auto |].
      destruct (Api.is_low_surrogate low) eqn:Hl; [| auto].
      assert (IHrest := IH (length rest) ltac:(simpl; lia) rest eq_refl).
      destruct (Api.encodeURIComponent rest) as [t | e]; simpl; [| exact IHrest].
      destruct IHrest as [-> Ht]. split; [reflexivity |].
      rewrite list_ascii_of_string_app, forallb_app, Ht, andb_true_r.
      apply utf8_escaped_url_safe. apply pair_code_bound; assumption.
    + destruct (Api.encodeURIComponent tl) as [t | e]; simpl; [| exact IHtl].
      destruct IHtl as [-> Ht]. split; [reflexivity |].
      rewrite list_ascii_of_string_app, forallb_app, Ht, andb_true_r.
      apply utf8_escaped_url_safe. pose proof (unit_code_bound u). lia.
Qed.

Lemma encodeURIComponent_well_formed (s : JsString) :
  well_formed s = true -> exists t, Api.encodeURIComponent s = Ok t.
Proof.
  intros H. pose proof (encodeURIComponent_cases s) as Hc.
  destruct (Api.encodeURIComponent s) as [t | e]; [eauto |].
  destruct Hc as [Hc _]. congruence.
Qed.

Lemma encodeURIComponent_of_string (text : string) :
  exists t, Api.encodeURIComponent (of_string text) = Ok t.
Proof.
  induction text as [| c text [t IH]]; [exists EmptyString; reflexivity |].
  change (of_string (String c text)) with ((zero, c) :: of_string text).
  cbn [Api.encodeURIComponent]. rewrite IH.
  assert (Hlow : Api.is_low_surrogate (zero, c) = false).
  { unfold Api.is_low_surrogate, unit_code. simpl. pose proof (N_ascii_bounded c).
    apply andb_false_iff; left; apply N.leb_gt; lia. }
  assert (Hhigh : Api.is_high_surrogate (zero, c) = false).
  { unfold Api.is_high_surrogate, unit_code. simpl. pose proof (N_ascii_bounded c).
    apply andb_false_iff; left; apply N.leb_gt; lia. }
  rewrite Hlow, Hhigh. destruct (Api.unreserved_unit (zero, c)); simpl; eauto.
Qed.

Lemma encodeURIComponent_unreserved (text : string) :
  forallb Api.unreserved (list_ascii_of_string text) = true ->
  Api.encodeURIComponent (of_string text) = Ok text.
Proof.
  induction text as [| c text IH]; [reflexivity |].
  cbn [list_ascii_of_string forallb]. intros H. apply andb_prop in H as [Hc Ht].
  change (of_string (String c text)) with ((zero, c) :: of_string text).
  cbn [Api.encodeURIComponent]. unfold Api.unreserved_unit. simpl. rewrite Hc, (IH Ht).
  reflexivity.
Qed.

Lemma well_formed_of_string (text : string) : well_formed (of_string text) = true.
Proof.
  destruct (encodeURIComponent_of_string text) as [t Ht].
  pose proof (encodeURIComponent_cases (of_string text)) as Hc.
  rewrite Ht in Hc. apply Hc.
Qed.

(** The query is built exactly when every value is well formed. *)
Lemma joined_is_ok (l : list (string * JsString)) :
  is_ok (Api.joined l) = forallb (fun kv => well_formed (snd kv)) l.
Proof.
  unfold Api.joined.
  assert (H : is_ok (mapM (fun '(key, value) =>
                             encoded ← Api.encodeURIComponent value;
                             Ok (key ++ "=" ++ encoded)%string) l)
              = forallb (fun kv => well_formed (snd kv)) l).
  { induction l as [| [key value] l IH]; [reflexivity |].
    cbn [mapM forallb snd]. rewrite <- IH.
    pose proof (encodeURIComponent_cases value) as Hc.
    destruct (Api.encodeURIComponent value) as [t | e]; simpl.
    - destruct Hc as [-> _].
      destruct (mapM _ l); reflexivity.
    - destruct Hc as [-> _]. reflexivity. }
  rewrite <- H. destruct (mapM _ l); reflexivity.
Qed.

Lemma concat_cons_nonempty (c : ascii) (x : string) (l : list string) :
  String.eqb (String.concat "&" (String c x :: l)) EmptyString = false.
Proof. destruct l; reflexivity. Qed.

Lemma joined_cons_nonempty (c : ascii) (key : string) (value : JsString)
    (l : list (string * JsString)) (t : string) :
  Api.joined ((String c key, value) :: l) = Ok t ->
  String.eqb t EmptyString = false.
Proof.
  unfold Api.joined. cbn [mapM].
  destruct (Api.encodeURIComponent value) as [encoded | e]; [| discriminate].
  simpl. destruct (mapM _ l) as [parts | e]; [| discriminate].
  simpl. intros [= <-].
  change (String c key ++ "=" ++ encoded)%string
    with (String c (key ++ "=" ++ encoded)%string).
  apply concat_cons_nonempty.
Qed.

Lemma forallb_well_formed_entries (p : Api.AgentsParams) :
  forallb (fun kv => well_formed (snd kv)) (Api.defined (Api.entries p))
  = well_formed_filter (Some p).
Proof.
  destruct p as [[l |] [o |] [st |] [so |] [od |]];
    cbn [Api.defined Api.entries Api.p_limit Api.p_offset Api.p_status Api.p_sort
         Api.p_order fmap option_fmap option_map omap list_omap mbind option_bind
         forallb snd well_formed_filter compose];
    rewrite ?well_formed_of_string, ?andb_true_r; reflexivity.
Qed.

Lemma query_is_ok (params : option Api.AgentsParams) :
  is_ok (Api.query params) = well_formed_filter params.
Proof.
  unfold Api.query, Api.queryParams.
  destruct params as [p |]; [| reflexivity].
  rewrite <- forallb_well_formed_entries, <- joined_is_ok.
  destruct (Api.joined _); reflexivity.
Qed.

Lemma query_total (params : option Api.AgentsParams) :
  well_formed_filter params = true -> exists q, Api.query params = Ok q.
Proof.
  intros H. rewrite <- query_is_ok in H.
  destruct (Api.query params) as [q | e]; [eauto | discriminate].
Qed.

(** **** getAgents *)

Lemma try_catch_total {A} (body : result A) (x : A) :
  exists r, try_catch body (fun _ => Ok x) = Ok r.
Proof. destruct body; simpl; eauto. Qed.

(** [getAgents] once the query is built: the part inside the [try]. *)
Lemma getAgents_encoded fetch this params q :
  Api.query params = Ok q ->
  Api.getAgents fetch this params
  = try_catch
      (response ← Api.request fetch this ("/agents" ++ q)%string Api.no_options;
       data ← get response "data";
       if negb (truthy data) then Ok (Api.empty_result params)
       else
         data_agents ← get data "agents";
         data_items ← get data "items";
         let agentsList := js_or data_agents (js_or data_items (JArr [])) in
         data_total ← get data "total";
         agentsList_length ← get agentsList "length";
         data_limit ← get data "limit";
         data_offset ← get data "offset";
         Ok (Api.mkAgentsResult agentsList
               (js_or data_total agentsList_length)
               (js_or data_limit (js_or (Api.params_limit params) (JNum 10)))
               (js_or data_offset (js_or (Api.params_offset params) (JNum 0)))))
      (fun error => Ok (Api.empty_result params)).
Proof. intros Hq. unfold Api.getAgents. rewrite Hq. reflexivity. Qed.

(** When the query cannot be built, [getAgents] throws what
    [encodeURIComponent] throws, before any request is made. *)
Lemma getAgents_not_encoded fetch this params e :
  Api.query params = Throw e ->
  Api.getAgents fetch this params = Throw e.
Proof. intros Hq. unfold Api.getAgents. rewrite Hq. reflexivity. Qed.

Lemma getAgents_total fetch this params q :
  Api.query params = Ok q ->
  exists r, Api.getAgents fetch this params = Ok r.
Proof. intros Hq. rewrite (getAgents_encoded _ _ _ _ Hq). apply try_catch_total. Qed.

Lemma getAgents_rejected fetch this params q e :
  Api.query params = Ok q ->
  fetch (agents_request this q) = Api.Rejected e ->
  Api.getAgents fetch this params = Ok (Api.empty_result params).
Proof.
  intros Hq Hf. rewrite (getAgents_encoded _ _ _ _ Hq).
  unfold Api.request. fold (agents_request this q).
  rewrite Hf. reflexivity.
Qed.

Lemma getAgents_unparsable fetch this params q r e :
  Api.query params = Ok q ->
  fetch (agents_request this q) = Api.Responded r ->
  Api.json r = Throw e ->
  exists res, Api.getAgents fetch this params = Ok res
              /\ Api.agents res = JArr [] /\ Api.total res = JNum 0.
Proof.
  intros Hq Hf Hj. rewrite (getAgents_encoded _ _ _ _ Hq).
  unfold Api.request. fold (agents_request this q).
  rewrite Hf, Hj. simpl.
  destruct (Api.text r) as [t | e']; simpl.
  - destruct (Api.ok r); simpl.
    + eexists. split. vm_compute. reflexivity. split; reflexivity.
    + eexists. split. vm_compute. reflexivity. split; reflexivity.
  - eexists; split; [reflexivity | split; reflexivity].
Qed.

(** C2, as stated, fails: [getAgents] does not return a result for
    every filter.  The query is built before the [try], and
    [encodeURIComponent] throws a [URIError] on a sort key that holds a
    lone surrogate; [getAgents] then throws that error, here with a
    backend that answers well. *)
Lemma getAgents_throws_on_lone_surrogate :
  well_formed_filter (Some sort_lone_surrogate) = false
  /\ Api.getAgents (fun _ => Api.Responded response_items) svc
       (Some sort_lone_surrogate)
     = Throw Api.URI_malformed
  /\ ~ (exists r, Api.getAgents (fun _ => Api.Responded response_items) svc
                    (Some sort_lone_surrogate) = Ok r).
Proof.
  assert (H : Api.getAgents (fun _ => Api.Responded response_items) svc
                (Some sort_lone_surrogate) = Throw Api.URI_malformed)
    by (apply getAgents_not_encoded; vm_compute; reflexivity).
  split; [reflexivity |]. split; [exact H |].
  intros [r Hr]. rewrite H in Hr. discriminate.
Qed.

(** C2, amended.  For every filter whose sort key is a well-formed
    string (no surrogate outside a pair), the query can be built, and
    whatever [fetch] does with the request, [getAgents] returns a result
    and does not throw; when the request fails on the network ([fetch]
    rejects) or the body does not parse ([response.json()] throws), the
    result has an empty [agents] array and a [total] of zero. *)
Theorem getAgents_degrades_to_empty fetch this params :
  well_formed_filter params = true ->
  exists q r,
    Api.query params = Ok q
    /\ Api.getAgents fetch this params = Ok r
    /\ (network_failure (fetch (agents_request this q))
        || parse_failure (fetch (agents_request this q)) = true ->
        Api.agents r = JArr [] /\ Api.total r = JNum 0).
Proof.
  intros Hwf. destruct (query_total params Hwf) as [q Hq].
  exists q.
  destruct (fetch (agents_request this q)) as [e | r] eqn:Hf.
  - rewrite (getAgents_rejected _ _ _ _ _ Hq Hf). eexists; split; [exact Hq |].
    split; [reflexivity |]. intros _; split; reflexivity.
  - destruct (Api.json r) as [d | e] eqn:Hj.
    + destruct (getAgents_total fetch this params q Hq) as [res Hres].
      exists res; split; [exact Hq |]. split; [exact Hres |].
      simpl. rewrite Hj. discriminate.
    + destruct (getAgents_unparsable _ _ _ _ _ _ Hq Hf Hj) as (res & Hres & Ha & Ht).
      exists res; split; [exact Hq |]. split; [exact Hres |].
      intros _; split; assumption.
Qed.

(** C2 amended, at a request that fails on the network and at a body
    that does not parse, with a filter that sorts by createdAt. *)
Lemma getAgents_degrades_to_empty_witness :
  (exists r, Api.getAgents (fun _ => Api.Rejected (TypeError "Failed to fetch")) svc
               (Some sort_createdAt)
             = Ok r /\ Api.agents r = JArr [] /\ Api.total r = JNum 0)
  /\ (exists r, Api.getAgents (fun _ => Api.Responded response_html) svc
                  (Some sort_createdAt)
                = Ok r /\ Api.agents r = JArr [] /\ Api.total r = JNum 0).
Proof.
  split.
  - destruct (getAgents_degrades_to_empty
                (fun _ => Api.Rejected (TypeError "Failed to fetch")) svc
                (Some sort_createdAt) eq_refl)
      as (q & r & _ & Hr & Hempty).
    exists r. split; [exact Hr |]. apply Hempty. reflexivity.
  - destruct (getAgents_degrades_to_empty
                (fun _ => Api.Responded response_html) svc
                (Some sort_createdAt) eq_refl)
      as (q & r & _ & Hr & Hempty).
    exists r. split; [exact Hr |]. apply Hempty. reflexivity.
Defined.

(** **** The request helper *)

Lemma request_ok fetch this endpoint options r d :
  fetch (Api.build_request this endpoint options) = Api.Responded r ->
  Api.ok r = true ->
  Api.json r = Ok d ->
  Api.request fetch this endpoint options = Ok d.
Proof.
  intros Hf Hok Hj. unfold Api.request. rewrite Hf, Hj. simpl.
  rewrite Hok. reflexivity.
Qed.

Lemma request_not_ok fetch this endpoint options r :
  fetch (Api.build_request this endpoint options) = Api.Responded r ->
  Api.ok r = false ->
  exists e, Api.request fetch this endpoint options = Throw e
            /\ request_failure r e.
Proof.
  intros Hf Hok. unfold Api.request, request_failure. rewrite Hf. simpl.
  destruct (Api.json r) as [d | e]; simpl.
  - rewrite Hok. simpl.
    destruct d as [| | b | n | s | items | envelope]; simpl;
      eexists; (split; [reflexivity |]); eauto.
  - destruct (Api.text r) as [t | e']; simpl.
    + rewrite Hok. simpl. eexists; split; reflexivity.
    + eexists; split; reflexivity.
Qed.

(** The error for a response that is not OK is chosen by the body
    alone: two such responses with the same body give the same error,
    whatever their HTTP status. *)
Lemma request_same_body fetch fetch' this endpoint options r r' :
  fetch (Api.build_request this endpoint options) = Api.Responded r ->
  fetch' (Api.build_request this endpoint options) = Api.Responded r' ->
  Api.ok r = false -> Api.ok r' = false ->
  Api.json r' = Api.json r -> Api.text r' = Api.text r ->
  Api.request fetch' this endpoint options = Api.request fetch this endpoint options.
Proof.
  intros Hf Hf' Hok Hok' Hj Ht. unfold Api.request.
  rewrite Hf, Hf', Hj, Ht, Hok, Hok'. reflexivity.
Qed.

(** For a body that is a JSON object the failure is the [Error] of its
    message. *)
Lemma request_failure_object r e envelope :
  request_failure r e -> Api.json r = Ok (JObj envelope) ->
  e = request_error envelope.
Proof. unfold request_failure. intros H Hj. rewrite Hj in H. exact H. Qed.

Lemma not_found_is_not_ok r : Api.status r = 404 -> Api.ok r = false.
Proof. intros H. unfold Api.ok. rewrite H. reflexivity. Qed.

Lemma data_field_object field envelope data :
  envelope !! "data" = Some (JObj data) ->
  Api.data_field field (JObj envelope) = Ok (default JUndefined (data !! field)).
Proof. intros H. unfold Api.data_field. simpl. rewrite H. reflexivity. Qed.

Lemma data_field_missing field envelope :
  envelope !! "data" = None ->
  exists m, Api.data_field field (JObj envelope) = Throw (TypeError m).
Proof. intros H. unfold Api.data_field. simpl. rewrite H. simpl. eauto. Qed.

Lemma performAction_unfold fetch this action id :
  performAction fetch this action id =
  (response ← Api.request fetch this
                 ("/agents/" ++ id ++ "/" ++ Action_value action)%string Api.post;
   Api.data_field "agent" response).
Proof. destruct action; reflexivity. Qed.

(** C7.  When the response to the request of [getAgents] (the query
    built from the filter) is OK and its [data] has the array of agents
    under [items] and no [agents] property, the result of [getAgents]
    has that same array as its [agents]. *)
Theorem getAgents_items_as_agents fetch this params q r envelope data items :
  Api.query params = Ok q ->
  fetch (agents_request this q) = Api.Responded r ->
  Api.ok r = true ->
  Api.json r = Ok (JObj envelope) ->
  envelope !! "data" = Some (JObj data) ->
  data !! "agents" = None ->
  data !! "items" = Some (JArr items) ->
  exists res, Api.getAgents fetch this params = Ok res
              /\ Api.agents res = JArr items.
Proof.
  intros Hq Hf Hok Hj Hd Ha Hi. rewrite (getAgents_encoded _ _ _ _ Hq).
  rewrite (request_ok _ _ _ _ _ _ Hf Hok Hj). simpl.
  rewrite Hd. simpl. rewrite Ha, Hi. simpl.
  eexists; split; reflexivity.
Qed.

(** C7 at a concrete response. *)
Lemma getAgents_items_as_agents_witness :
  exists res, Api.getAgents (fun _ => Api.Responded response_items) svc None = Ok res
              /\ Api.agents res = JArr [agent_1].
Proof.
  eapply (getAgents_items_as_agents (fun _ => Api.Responded response_items) svc None
            EmptyString response_items _ _ [agent_1]); vm_compute; reflexivity.
Defined.

(** C3, as stated, fails: on HTTP 404 [ApiService.getAgentResults] does
    not resolve to an empty result, it throws the error built by
    [request]. *)
Lemma getAgentResults_404_throws :
  Api.getAgentResults (fun _ => Api.Responded response_404) svc "agent-1"
  = Throw (Error (JStr "Not found"))
  /\ ~ (exists v, Api.getAgentResults (fun _ => Api.Responded response_404) svc "agent-1"
                  = Ok v).
Proof.
  assert (H : Api.getAgentResults (fun _ => Api.Responded response_404) svc "agent-1"
              = Throw (Error (JStr "Not found"))) by (vm_compute; reflexivity).
  split; [exact H |]. intros [v Hv]. rewrite H in Hv. discriminate.
Qed.

(** C3, amended.  On HTTP 404 both [ApiService.getAgentResults] and
    [ApiService.getAgentById] fail, and with the same error, the one
    [request] throws for any response that is not OK; no distinct
    not-found kind exists.  That error is, by the body of the response:
    for a JSON object the plain [Error] built from its [message] (or the
    default text); for JSON [null] the [TypeError] of reading a property
    of [null]; for any other JSON value the [Error] with the default
    text; for a body that is not JSON the [Error] with the text of the
    body (or the default text) when the text can still be read, and the
    error of reading it otherwise.  It is [fetchResults] of the details
    view that turns a 404 into the [null] result, without setting an
    error. *)
Theorem not_found_handling fetch this id r :
  Api.status r = 404 ->
  (fetch (results_request this id) = Api.Responded r ->
   exists e, Api.getAgentResults fetch this id = Throw e
             /\ request_failure r e)
  /\ (fetch (agent_request this id) = Api.Responded r ->
      exists e, Api.getAgentById fetch this id = Throw e
                /\ request_failure r e)
  /\ (forall apiUrl st,
        apiUrl <> EmptyString ->
        fetch (Details.results_request apiUrl id) = Api.Responded r ->
        Details.fetchResults fetch (Some apiUrl) id st
        = Details.mkState JNull (Details.error st) false).
Proof.
  intros H404. pose proof (not_found_is_not_ok r H404) as Hok.
  split; [| split].
  - intros Hf. unfold Api.getAgentResults.
    destruct (request_not_ok _ _ _ _ _ Hf Hok) as (e & -> & He).
    exists e. split; [reflexivity | exact He].
  - intros Hf. unfold Api.getAgentById.
    destruct (request_not_ok _ _ _ _ _ Hf Hok) as (e & -> & He).
    exists e. split; [reflexivity | exact He].
  - intros apiUrl st Hne Hf. unfold Details.fetchResults.
    apply String.eqb_neq in Hne. rewrite Hne, Hf, Hok, H404. reflexivity.
Qed.

(** C3 amended, at a 404 response with an error envelope, with the body
    [null] and with a body that is not JSON. *)
Lemma not_found_handling_witness :
  (exists e, Api.getAgentResults (fun _ => Api.Responded response_404) svc "agent-1" = Throw e
             /\ e = Error (JStr "Not found"))
  /\ (exists e, Api.getAgentById (fun _ => Api.Responded response_404) svc "agent-1" = Throw e
                /\ e = Error (JStr "Not found"))
  /\ Details.fetchResults (fun _ => Api.Responded response_404)
       (Some "http://localhost:3030/api/v1") "agent-1"
       (Details.mkState JUndefined JNull false)
     = Details.mkState JNull JNull false
  /\ (exists e m, Api.getAgentResults (fun _ => Api.Responded response_404_null) svc
                    "agent-1" = Throw e
                  /\ e = TypeError m)
  /\ (exists e, Api.getAgentById (fun _ => Api.Responded response_404_html) svc
                  "agent-1" = Throw e
                /\ e = body_used).
Proof.
  destruct (not_found_handling (fun _ => Api.Responded response_404) svc "agent-1"
              response_404 eq_refl) as (H1 & H2 & H3).
  split; [| split; [| split; [| split]]].
  - destruct (H1 eq_refl) as (e & He & Hm). exists e. split; [exact He |].
    apply (request_failure_object _ _ _ Hm eq_refl).
  - destruct (H2 eq_refl) as (e & He & Hm). exists e. split; [exact He |].
    apply (request_failure_object _ _ _ Hm eq_refl).
  - apply (H3 "http://localhost:3030/api/v1" (Details.mkState JUndefined JNull false));
      [discriminate | reflexivity].
  - destruct (not_found_handling (fun _ => Api.Responded response_404_null) svc
                "agent-1" response_404_null eq_refl) as (Hnull & _).
    destruct (Hnull eq_refl) as (e & He & m & Hm). exists e, m. split; assumption.
  - destruct (not_found_handling (fun _ => Api.Responded response_404_html) svc
                "agent-1" response_404_html eq_refl) as (_ & Hhtml & _).
    destruct (Hhtml eq_refl) as (e & He & Hm). exists e. split; assumption.
Defined.

(** C6, as stated, fails: with HTTP 200 and an envelope whose [status] is
    "error", [startAgent] returns the agent of the body instead of
    failing; and the error for a response that is not OK is the same for
    the statuses 500 and 503, so it does not carry the HTTP status. *)
Lemma startAgent_ignores_envelope_status :
  Api.ok response_200_error = true
  /\ Api.json response_200_error ≫= (fun d => get d "status") = Ok (JStr "error")
  /\ Api.startAgent (fun _ => Api.Responded response_200_error) svc "agent-1" = Ok agent_1
  /\ Api.startAgent (fun _ => Api.Responded (response_http 500)) svc "agent-1"
     = Throw (Error (JStr "boom"))
  /\ Api.startAgent (fun _ => Api.Responded (response_http 503)) svc "agent-1"
     = Throw (Error (JStr "boom")).
Proof. repeat split; vm_compute; reflexivity. Qed.

Lemma not_success (envelope : gmap string JsValue) :
  envelope !! "status" <> Some (JStr "success") ->
  not_strict_equal_string (default JUndefined (envelope !! "status")) "success" = true.
Proof.
  intros H. destruct (envelope !! "status") as [[| | | | st | |] |]; simpl; try reflexivity.
  destruct (String.eqb st "success") eqn:He; [| reflexivity].
  apply String.eqb_eq in He. subst st. contradiction.
Qed.

(** C6, amended.  For each of [startAgent], [stopAgent], [pauseAgent] and
    [resumeAgent] of [ApiService]: when the response is OK and the body
    is a JSON object with a [data] object, the operation returns
    [data.agent], whatever the [status] of the envelope.  When the
    response is not OK it fails, with the error of [request], which the
    body alone decides, not the HTTP status: for a JSON object the plain
    [Error] built from its [message] (or the default text); for JSON
    [null] the [TypeError] of reading a property of [null]; for any
    other JSON value the [Error] with the default text; for a body that
    is not JSON the [Error] with the text of the body (or the default
    text) when the text can still be read, and the error of reading it
    otherwise.  When the response is OK and the body is a JSON object
    without [data], it fails with the [TypeError] of the property read.
    The checks on the
    HTTP status and on the [status] of the envelope are those of the
    list view's own [handleAgentAction], which calls [fetch] itself: its
    request raises an [Error] that names the HTTP status when the
    response is not OK, and an [Error] when the response is OK and the
    envelope's [status] is not "success". *)
Theorem agent_actions_outcomes fetch this action id r :
  (fetch (action_request this action id) = Api.Responded r ->
   (Api.ok r = true ->
    forall envelope data,
      Api.json r = Ok (JObj envelope) ->
      envelope !! "data" = Some (JObj data) ->
      performAction fetch this action id = Ok (default JUndefined (data !! "agent")))
   /\ (Api.ok r = false ->
       (exists e, performAction fetch this action id = Throw e
                  /\ request_failure r e)
       /\ forall fetch' r',
            fetch' (action_request this action id) = Api.Responded r' ->
            Api.ok r' = false ->
            Api.json r' = Api.json r -> Api.text r' = Api.text r ->
            performAction fetch' this action id = performAction fetch this action id)
   /\ (Api.ok r = true ->
       forall envelope,
         Api.json r = Ok (JObj envelope) ->
         envelope !! "data" = None ->
         exists m, performAction fetch this action id = Throw (TypeError m)))
  /\ (forall apiUrl,
        apiUrl <> EmptyString ->
        fetch (AgentList.action_request apiUrl id action) = Api.Responded r ->
        (Api.ok r = false ->
         AgentList.performAction fetch (Some apiUrl) id action
         = Throw (Error (JStr ("Failed to " ++ Action_value action
                               ++ " agent. Server responded with "
                               ++ pretty (Api.status r))%string)))
        /\ (Api.ok r = true ->
            forall envelope,
              Api.json r = Ok (JObj envelope) ->
              envelope !! "status" <> Some (JStr "success") ->
              AgentList.performAction fetch (Some apiUrl) id action
              = Throw (Error (js_or (default JUndefined (envelope !! "message"))
                                    (JStr ("Failed to " ++ Action_value action
                                           ++ " agent")%string))))).
Proof.
  split.
  - intros Hf. rewrite performAction_unfold. split; [| split].
    + intros Hok envelope data Hj Hd.
      rewrite (request_ok _ _ _ _ _ _ Hf Hok Hj). simpl.
      apply data_field_object, Hd.
    + intros Hok. split.
      * destruct (request_not_ok _ _ _ _ _ Hf Hok) as (e & -> & He).
        exists e. split; [reflexivity | exact He].
      * intros fetch' r' Hf' Hok' Hj Ht. rewrite performAction_unfold.
        rewrite (request_same_body fetch fetch' this _ _ r r' Hf Hf' Hok Hok' Hj Ht).
        reflexivity.
    + intros Hok envelope Hj Hd.
      rewrite (request_ok _ _ _ _ _ _ Hf Hok Hj). simpl.
      apply data_field_missing, Hd.
  - intros apiUrl Hne Hf. apply String.eqb_neq in Hne.
    unfold AgentList.performAction. rewrite Hne, Hf. split.
    + intros Hok. rewrite Hok. reflexivity.
    + intros Hok envelope Hj Hs. rewrite Hok, Hj. simpl.
      rewrite (not_success _ Hs). reflexivity.
Qed.

(** C6 amended, at concrete responses. *)
Lemma agent_actions_outcomes_witness :
  Api.pauseAgent (fun _ => Api.Responded response_200_error) svc "agent-1" = Ok agent_1
  /\ Api.pauseAgent (fun _ => Api.Responded (response_http 500)) svc "agent-1"
     = Throw (Error (JStr "boom"))
  /\ AgentList.performAction (fun _ => Api.Responded (response_http 500))
       (Some dev_apiUrl) "agent-1" pause
     = Throw (Error (JStr "Failed to pause agent. Server responded with 500"))
  /\ AgentList.performAction (fun _ => Api.Responded response_200_error)
       (Some dev_apiUrl) "agent-1" pause
     = Throw (Error (JStr "already running"))
  /\ (exists e m, Api.pauseAgent (fun _ => Api.Responded response_404_null) svc
                    "agent-1" = Throw e
                  /\ e = TypeError m)
  /\ (exists e, Api.pauseAgent (fun _ => Api.Responded response_404_html) svc
                  "agent-1" = Throw e
                /\ e = body_used).
Proof.
  split; [| split; [| split; [| split; [| split]]]].
  - destruct (agent_actions_outcomes (fun _ => Api.Responded response_200_error) svc
                pause "agent-1" response_200_error) as [H _].
    destruct (H eq_refl) as (Hok & _ & _).
    pose (data := list_to_map (reverse [("agent", agent_1)]) : gmap string JsValue).
    assert (Hd : (list_to_map (reverse [ ("status", JStr "error");
                                         ("message", JStr "already running");
                                         ("data", JObj data) ])
                  : gmap string JsValue) !! "data" = Some (JObj data))
      by (vm_compute; reflexivity).
    exact (Hok eq_refl _ data eq_refl Hd).
  - destruct (agent_actions_outcomes (fun _ => Api.Responded (response_http 500)) svc
                pause "agent-1" (response_http 500)) as [H _].
    destruct (H eq_refl) as (_ & Hnot & _).
    destruct (Hnot eq_refl) as ((e & He & Hm) & _).
    rewrite (request_failure_object _ _ _ Hm eq_refl) in He. exact He.
  - destruct (agent_actions_outcomes (fun _ => Api.Responded (response_http 500)) svc
                pause "agent-1" (response_http 500)) as [_ H].
    destruct (H dev_apiUrl ltac:(discriminate) eq_refl) as [Hnot _].
    exact (Hnot eq_refl).
  - destruct (agent_actions_outcomes (fun _ => Api.Responded response_200_error) svc
                pause "agent-1" response_200_error) as [_ H].
    destruct (H dev_apiUrl ltac:(discriminate) eq_refl) as [_ Hst].
    refine (Hst eq_refl _ eq_refl _). vm_compute. discriminate.
  - destruct (agent_actions_outcomes (fun _ => Api.Responded response_404_null) svc
                pause "agent-1" response_404_null) as [H _].
    destruct (H eq_refl) as (_ & Hnot & _).
    destruct (Hnot eq_refl) as ((e & He & m & Hm) & _).
    exists e, m. split; assumption.
  - destruct (agent_actions_outcomes (fun _ => Api.Responded response_404_html) svc
                pause "agent-1" response_404_html) as [H _].
    destruct (H eq_refl) as (_ & Hnot & _).
    destruct (Hnot eq_refl) as ((e & He & Hm) & _).
    exists e. split; assumption.
Defined.

(** **** Timers *)

#[local] Arguments App.backoffDelay : simpl never.
#[local] Arguments App.reconnecting_message : simpl never.

Lemma timerLog_reconnectWithBackoff s :
  App.timerLog (App.reconnectWithBackoff s) = App.timerLog s ++ [reconnect_timer s].
Proof.
  unfold App.reconnectWithBackoff, reconnect_timer.
  destruct (App.reconnectAttempts s <? App.MAX_RECONNECT_ATTEMPTS); simpl;
    destruct (App.reconnectTimeout s); reflexivity.
Qed.

Lemma is_reconnect_reconnect_timer s : App.is_reconnect (reconnect_timer s) = true.
Proof.
  unfold reconnect_timer.
  destruct (App.reconnectAttempts s <? App.MAX_RECONNECT_ATTEMPTS); reflexivity.
Qed.

Lemma reconnects_reconnectWithBackoff s :
  reconnects (App.reconnectWithBackoff s) = reconnects s ++ [reconnect_timer s].
Proof.
  unfold reconnects. rewrite timerLog_reconnectWithBackoff, List.filter_app. simpl.
  rewrite is_reconnect_reconnect_timer. reflexivity.
Qed.

Lemma drop_length_app {A} (l k : list A) : drop (length l) (l ++ k) = k.
Proof. induction l; simpl; auto. Qed.

Lemma reconnects_onclose timeout ev s :
  reconnects (App.onclose timeout ev s)
  = reconnects s ++ (if negb (App.isIntentionalClose s) && abnormal ev
                     then [reconnect_timer s] else []).
Proof.
  unfold App.onclose, abnormal. simpl.
  destruct (App.heartbeatInterval s) as [hb |]; simpl;
    destruct (App.isIntentionalClose s); simpl;
    destruct (App.code ev =? 1000); simpl;
    destruct (App.code ev =? 1001); simpl;
    rewrite ?reconnects_reconnectWithBackoff, ?app_nil_r; reflexivity.
Qed.

Lemma heartbeatInterval_reconnectWithBackoff s :
  App.heartbeatInterval (App.reconnectWithBackoff s) = App.heartbeatInterval s.
Proof.
  unfold App.reconnectWithBackoff.
  destruct (App.reconnectAttempts s <? App.MAX_RECONNECT_ATTEMPTS); simpl;
    destruct (App.reconnectTimeout s); reflexivity.
Qed.

(** The branch of [onclose]: it sets a reconnect timer exactly when
    the flag [isIntentionalClose] is down and the close code is neither
    1000 nor 1001: the timers it schedules are the one timer of
    [reconnectWithBackoff] in that case and none otherwise.  The
    heartbeat is stopped in every case. *)
Lemma onclose_schedules_reconnect timeout ev s :
  reconnects (App.onclose timeout ev s)
  = reconnects s ++ scheduled_by s (App.onclose timeout ev s)
  /\ scheduled_by s (App.onclose timeout ev s)
     = (if negb (App.isIntentionalClose s) && abnormal ev
        then [reconnect_timer s] else [])
  /\ App.heartbeatInterval (App.onclose timeout ev s) = None.
Proof.
  pose proof (reconnects_onclose timeout ev s) as H.
  split; [| split].
  - unfold scheduled_by. rewrite H, drop_length_app. reflexivity.
  - unfold scheduled_by. rewrite H, drop_length_app. reflexivity.
  - unfold App.onclose. simpl.
    destruct (App.heartbeatInterval s) as [hb |] eqn:Hhb; simpl;
      destruct (negb (App.isIntentionalClose s) && _ && _); simpl;
      rewrite ?heartbeatInterval_reconnectWithBackoff; simpl; auto.
Qed.

(** C4.  A close that is not intentional and has an abnormal code does
    not always schedule a reconnect.  [setupWebSocket] lowers the flag
    [isIntentionalClose] and raises it again when it replaces a socket
    that is still open, for the close of that socket; nothing lowers it
    afterwards.  So after the window went online while the channel was
    open, the new socket is open with the flag up, and when the server
    closes it with the code 1011, [onclose] schedules nothing: no timer
    at all is pending, the heartbeat is stopped and the channel stays
    closed.  The same close of a socket that replaced no open socket
    leaves one reconnect timer pending.  The flag is raised in the same
    way when the page becomes visible while a socket is still
    connecting; and after the cleanup of the effect, which is the
    explicit shutdown, the close of the socket sets no timer. *)
Theorem stale_flag_blocks_reconnect :
  live_socket replaced_and_open = true
  /\ App.isIntentionalClose replaced_and_open = true
  /\ abnormal closed_by_server = true
  /\ App.timers (App.step dev_apiUrl accept_all (App.EvClose closed_by_server)
                   replaced_and_open) = ∅
  /\ App.reconnectTimeout (App.step dev_apiUrl accept_all (App.EvClose closed_by_server)
                             replaced_and_open) = None
  /\ App.isWebSocketConnected
       (App.step dev_apiUrl accept_all (App.EvClose closed_by_server)
          replaced_and_open) = false
  /\ App.isIntentionalClose live = false
  /\ pending_reconnects (App.step dev_apiUrl accept_all (App.EvClose closed_by_server) live)
     = [(3%positive, App.mkTimer App.RECONNECT_DELAY App.CbSetupWebSocket false)]
  /\ App.isIntentionalClose (App.handleVisibilityChange dev_apiUrl accept_all connecting)
     = true
  /\ App.timers (App.onclose 1 closed_by_program (App.cleanup live)) = ∅.
Proof. repeat split; vm_compute; reflexivity. Qed.

(** **** The backoff schedule *)

Lemma backoffDelay_bounded attempt :
  (App.backoffDelay attempt <= 30000 # 1)%Q.
Proof.
  unfold App.backoffDelay.
  assert (H : (Qmin (App.Math_pow App.GROWTH (attempt - 1)) App.GROWTH_CAP
               <= App.GROWTH_CAP)%Q) by apply Q.le_min_r.
  apply (Qmult_le_l _ _ App.RECONNECT_DELAY) in H; [| reflexivity].
  eapply Qle_trans; [exact H |]. vm_compute. discriminate.
Qed.

(** The delays of the ten attempts, in milliseconds. *)
Lemma backoff_table :
  Forall2 Qeq (map App.backoffDelay [1; 2; 3; 4; 5; 6; 7; 8; 9; 10])
    [ 2000 # 1; 3000 # 1; 4500 # 1; 6750 # 1; 10125 # 1; 30375 # 2; 91125 # 4;
      30000 # 1; 30000 # 1; 30000 # 1 ]%Q.
Proof. repeat constructor; vm_compute; reflexivity. Qed.

Lemma reconnectWithBackoff_pending s :
  App.reconnectTimeout (App.reconnectWithBackoff s) = Some (App.nextTimerId s)
  /\ App.timers (App.reconnectWithBackoff s) !! App.nextTimerId s
     = Some (reconnect_timer s).
Proof.
  unfold App.reconnectWithBackoff, reconnect_timer.
  destruct (App.reconnectAttempts s <? App.MAX_RECONNECT_ATTEMPTS); simpl;
    destruct (App.reconnectTimeout s); simpl;
    (split; [reflexivity | apply lookup_insert_eq]).
Qed.

Lemma reconnectAttempts_reconnectWithBackoff s :
  App.reconnectAttempts (App.reconnectWithBackoff s)
  = if App.reconnectAttempts s <? App.MAX_RECONNECT_ATTEMPTS
    then App.reconnectAttempts s + 1 else App.reconnectAttempts s.
Proof.
  unfold App.reconnectWithBackoff.
  destruct (App.reconnectAttempts s <? App.MAX_RECONNECT_ATTEMPTS); simpl;
    destruct (App.reconnectTimeout s); reflexivity.
Qed.

Lemma reconnectAttempts_setupWebSocket apiUrl accepts s :
  App.reconnectAttempts s = 0 ->
  App.reconnectAttempts (App.setupWebSocket apiUrl accepts s)
  = if accepts (App.wsUrl apiUrl) then 0 else 1.
Proof.
  intros H0. unfold App.setupWebSocket.
  destruct (accepts (App.wsUrl apiUrl)).
  - destruct s as [sk ? [rt |] ? [hb |] ? ? ? ? ? ? ? ? ? ? ?]; simpl in *;
      destruct sk as [[u [] m t] |]; simpl; exact H0.
  - rewrite reconnectAttempts_reconnectWithBackoff.
    destruct s as [sk ? [rt |] ? [hb |] ? ? ? ? ? ? ? ? ? ? ?]; simpl in *;
      destruct sk as [[u [] m t] |]; simpl; rewrite H0; reflexivity.
Qed.

(** C1, amended.  [reconnectWithBackoff] always sets a reconnect timer,
    which is pending afterwards, with a delay of at most 60000 ms.  For
    the attempt numbers 1 to 10 the counter becomes the attempt number
    and the delay is 2000 * min(1.5^(attempt-1), 15).  Once the counter
    has reached 10, the delay is the fixed 60000 ms and the counter stays;
    the callback of that timer resets the counter to zero before it
    reconnects, so the next reconnect starts the schedule again. *)
Theorem reconnect_backoff_schedule (s : App.State) (attempt : Z) :
  App.reconnectAttempts s = attempt - 1 ->
  exists id t,
    App.reconnectTimeout (App.reconnectWithBackoff s) = Some id
    /\ App.timers (App.reconnectWithBackoff s) !! id = Some t
    /\ App.timerLog (App.reconnectWithBackoff s) = App.timerLog s ++ [t]
    /\ App.is_reconnect t = true
    /\ (App.delay t <= App.LONG_RETRY_DELAY)%Q
    /\ (1 <= attempt <= App.MAX_RECONNECT_ATTEMPTS ->
        App.reconnectAttempts (App.reconnectWithBackoff s) = attempt
        /\ App.callback t = App.CbSetupWebSocket
        /\ (App.delay t ==
            App.RECONNECT_DELAY
            * Qmin (App.GROWTH ^ (attempt - 1)) App.GROWTH_CAP)%Q)
    /\ (App.MAX_RECONNECT_ATTEMPTS < attempt ->
        App.reconnectAttempts (App.reconnectWithBackoff s) = attempt - 1
        /\ App.callback t = App.CbResetAndSetup
        /\ App.delay t = App.LONG_RETRY_DELAY
        /\ forall apiUrl accepts,
             App.reconnectAttempts
               (App.fire apiUrl accepts id (App.reconnectWithBackoff s))
             = if accepts (App.wsUrl apiUrl) then 0 else 1).
Proof.
  intros Ha.
  destruct (reconnectWithBackoff_pending s) as [Hid Ht].
  exists (App.nextTimerId s), (reconnect_timer s).
  split; [exact Hid |]. split; [exact Ht |].
  split; [apply timerLog_reconnectWithBackoff |].
  split; [apply is_reconnect_reconnect_timer |].
  split; [| split].
  - unfold reconnect_timer.
    destruct (App.reconnectAttempts s <? App.MAX_RECONNECT_ATTEMPTS); simpl.
    + eapply Qle_trans; [apply backoffDelay_bounded |]. vm_compute. discriminate.
    + apply Qle_refl.
  - intros [Hlo Hhi]. rewrite reconnectAttempts_reconnectWithBackoff.
    unfold reconnect_timer.
    assert (Hlt : (App.reconnectAttempts s <? App.MAX_RECONNECT_ATTEMPTS) = true)
      by (apply Z.ltb_lt; lia).
    rewrite Hlt. simpl. split; [lia |]. split; [reflexivity |].
    rewrite Ha. replace (attempt - 1 + 1) with attempt by lia. reflexivity.
  - intros Hgt. rewrite reconnectAttempts_reconnectWithBackoff.
    unfold reconnect_timer in *.
    assert (Hlt : (App.reconnectAttempts s <? App.MAX_RECONNECT_ATTEMPTS) = false)
      by (apply Z.ltb_ge; lia).
    rewrite Hlt in *. simpl. split; [exact Ha |]. split; [reflexivity |].
    split; [reflexivity |]. intros apiUrl accepts.
    unfold App.fire. rewrite Ht. simpl.
    apply reconnectAttempts_setupWebSocket. reflexivity.
Qed.

(** C1 amended, at the first attempt and after the tenth. *)
Lemma reconnect_backoff_schedule_witness :
  (exists t, App.timerLog (App.reconnectWithBackoff connecting)
             = App.timerLog connecting ++ [t]
             /\ App.callback t = App.CbSetupWebSocket
             /\ (App.delay t == 2000 # 1)%Q)
  /\ (exists t, App.timerLog (App.reconnectWithBackoff exhausted)
                = App.timerLog exhausted ++ [t]
                /\ App.callback t = App.CbResetAndSetup
                /\ App.delay t = App.LONG_RETRY_DELAY).
Proof.
  split.
  - destruct (reconnect_backoff_schedule connecting 1 eq_refl)
      as (id & t & _ & _ & Hlog & _ & _ & Hfirst & _).
    destruct Hfirst as (_ & Hcb & Hd); [vm_compute; split; discriminate |].
    exists t. split; [exact Hlog |]. split; [exact Hcb |].
    rewrite Hd. vm_compute. reflexivity.
  - destruct (reconnect_backoff_schedule exhausted 11 eq_refl)
      as (id & t & _ & _ & Hlog & _ & _ & _ & Hlast).
    destruct Hlast as (_ & Hcb & Hd & _); [reflexivity |].
    exists t. split; [exact Hlog |]. split; [exact Hcb | exact Hd].
Defined.

(** C1, as stated, fails: after ten failures in a row the counter is at
    its maximum; the next two reconnects are scheduled at 60000 ms and
    then at 2000 ms, not both at the one long delay. *)
Lemma backoff_restarts_after_long_retry :
  App.reconnectAttempts exhausted = App.MAX_RECONNECT_ATTEMPTS
  /\ map App.delay
       (scheduled_by exhausted
          (App.run dev_apiUrl accept_all
             [ App.EvTimer 20; App.EvError; App.EvTimer 22; App.EvError ]
             exhausted))
     = [ App.LONG_RETRY_DELAY; 2000 # 1 ]
  /\ ~ (2000 # 1 == App.LONG_RETRY_DELAY)%Q.
Proof.
  split; [vm_compute; reflexivity |].
  split; [vm_compute; reflexivity |].
  vm_compute. discriminate.
Qed.

(** **** Subscriptions *)

Lemma send_if_open_sent message s sk :
  App.socket s = Some sk ->
  App.readyState sk = App.OPEN ->
  App.sent <$> App.socket (App.send_if_open message s)
  = Some (App.sent sk ++ [message]).
Proof.
  intros Hs Ho. unfold App.send_if_open, App.send. rewrite Hs, Ho. reflexivity.
Qed.

(** C5, amended.  While the socket is OPEN, subscribing sends
    [{event: "subscribe-to-agent", data: agentId}] and unsubscribing
    sends [{event: "unsubscribe-from-agent", data: agentId}]. *)
Theorem subscription_messages agentId s sk :
  App.socket s = Some sk ->
  App.readyState sk = App.OPEN ->
  App.sent <$> App.socket (App.subscribeToAgentUpdates agentId s)
  = Some (App.sent sk
          ++ [JObj {[ "event" := JStr "subscribe-to-agent"; "data" := JStr agentId ]}])
  /\ App.sent <$> App.socket (App.unsubscribeFromAgentUpdates agentId s)
     = Some (App.sent sk
             ++ [JObj {[ "event" := JStr "unsubscribe-from-agent";
                         "data" := JStr agentId ]}]).
Proof.
  intros Hs Ho. split.
  - unfold App.subscribeToAgentUpdates. rewrite (send_if_open_sent _ _ _ Hs Ho).
    do 3 f_equal.
  - unfold App.unsubscribeFromAgentUpdates. rewrite (send_if_open_sent _ _ _ Hs Ho).
    do 3 f_equal.
Qed.

(** C5 amended, on a live connection. *)
Lemma subscription_messages_witness :
  App.sent <$> App.socket (App.subscribeToAgentUpdates "agent-1" live)
  = Some [JObj {[ "event" := JStr "subscribe-to-agent"; "data" := JStr "agent-1" ]}]
  /\ App.sent <$> App.socket (App.unsubscribeFromAgentUpdates "agent-1" live)
     = Some [JObj {[ "event" := JStr "unsubscribe-from-agent";
                     "data" := JStr "agent-1" ]}].
Proof.
  exact (subscription_messages "agent-1" live
           (App.mkWebSocket "ws://localhost:3030/api/ws" App.OPEN [] 1)
           eq_refl eq_refl).
Defined.

(** C5, as stated, fails: the unsubscribe message carries the tag
    "unsubscribe-from-agent", not "unsubscribe-to-agent". *)
Lemma unsubscribe_tag_differs :
  App.sent <$> App.socket (App.unsubscribeFromAgentUpdates "agent-1" live)
  = Some [App.unsubscribe_message "agent-1"]
  /\ get (App.unsubscribe_message "agent-1") "event" = Ok (JStr "unsubscribe-from-agent")
  /\ App.unsubscribe_message "agent-1"
     <> JObj {[ "event" := JStr "unsubscribe-to-agent"; "data" := JStr "agent-1" ]}.
Proof.
  split; [reflexivity |]. split; [reflexivity |].
  intros H. apply (f_equal (fun v => get v "event")) in H.
  vm_compute in H. discriminate H.
Qed.

(** **** The agents list: upsert *)

Lemma existsb_id l i :
  existsb (fun agent => String.eqb (id agent) i) l = true <-> In i (ids l).
Proof.
  unfold ids. rewrite existsb_exists, in_map_iff. split.
  - intros (a & Ha & He). apply String.eqb_eq in He. eauto.
  - intros (a & He & Ha). exists a. split; [exact Ha |]. apply String.eqb_eq, He.
Qed.

Lemma ids_replace a l :
  ids (map (fun agent => if String.eqb (id agent) (id a) then a else agent) l)
  = ids l.
Proof.
  unfold ids. rewrite map_map. apply map_ext. intros x.
  destruct (String.eqb (id x) (id a)) eqn:He; [| reflexivity].
  apply String.eqb_eq in He. symmetry. exact He.
Qed.

Lemma ids_upsert a l :
  ids (App.upsert a l) = if existsb (fun agent => String.eqb (id agent) (id a)) l
                         then ids l else id a :: ids l.
Proof.
  unfold App.upsert.
  destruct (existsb _ l); [apply ids_replace | reflexivity].
Qed.

Lemma NoDup_ids_upsert a l : List.NoDup (ids l) -> List.NoDup (ids (App.upsert a l)).
Proof.
  intros Hnd. rewrite ids_upsert.
  destruct (existsb _ l) eqn:He; [exact Hnd |].
  constructor; [| exact Hnd].
  intros Hin. apply existsb_id in Hin. congruence.
Qed.

Lemma In_upsert a b l :
  In b (App.upsert a l) <-> b = a \/ (In b l /\ id b <> id a).
Proof.
  unfold App.upsert.
  destruct (existsb _ l) eqn:He.
  - rewrite in_map_iff. split.
    + intros (x & Hx & Hin).
      destruct (String.eqb (id x) (id a)) eqn:Hxa.
      * left. symmetry. exact Hx.
      * right. subst x. split; [exact Hin |]. apply String.eqb_neq, Hxa.
    + intros [-> | [Hin Hne]].
      * apply existsb_exists in He as (x & Hin & Hxa).
        exists x. rewrite Hxa. auto.
      * exists b. apply String.eqb_neq in Hne. rewrite Hne. auto.
  - simpl. split.
    + intros [<- | Hin]; [left; reflexivity |].
      right. split; [exact Hin |]. intros Heq.
      assert (Hex : existsb (fun agent => String.eqb (id agent) (id a)) l = true)
        by (apply existsb_id; rewrite <- Heq; apply in_map, Hin).
      congruence.
    + intros [-> | [Hin _]]; auto.
Qed.

Lemma upsertAll_snoc upserts a init :
  upsertAll (upserts ++ [a]) init = App.upsert a (upsertAll upserts init).
Proof. unfold upsertAll. rewrite fold_left_app. reflexivity. Qed.

Lemma last_upsert_snoc i upserts a :
  last_upsert i (upserts ++ [a])
  = if String.eqb (id a) i then Some a else last_upsert i upserts.
Proof. unfold last_upsert. rewrite rev_app_distr. reflexivity. Qed.

Lemma last_upsert_id i upserts a : last_upsert i upserts = Some a -> id a = i.
Proof.
  unfold last_upsert. intros H. apply find_some in H as [_ H].
  apply String.eqb_eq, H.
Qed.

(** Which agents the list holds after a sequence of upserts. *)
Lemma In_upsertAll b upserts init :
  In b (upsertAll upserts init)
  <-> last_upsert (id b) upserts = Some b
      \/ (In b init /\ last_upsert (id b) upserts = None).
Proof.
  induction upserts as [| a upserts IH] using rev_ind.
  - simpl. split; [intros H; right; auto | intros [H | [H _]]; [discriminate | exact H]].
  - rewrite upsertAll_snoc, In_upsert, last_upsert_snoc, IH.
    destruct (String.eqb (id a) (id b)) eqn:He.
    + apply String.eqb_eq in He. split.
      * intros [-> | [_ Hne]]; [left; reflexivity | congruence].
      * intros [[= ->] | [_ [=]]]. left; reflexivity.
    + apply String.eqb_neq in He. split.
      * intros [-> | [H _]]; [congruence | exact H].
      * intros H. right. split; [exact H | congruence].
Qed.

Lemma ids_upsertAll i upserts init :
  In i (ids (upsertAll upserts init)) <-> In i (ids init) \/ In i (ids upserts).
Proof.
  revert i. induction upserts as [| a upserts IH] using rev_ind; intros i.
  - simpl. tauto.
  - rewrite upsertAll_snoc, ids_upsert. unfold ids at 4. rewrite map_app, in_app_iff.
    fold (ids upserts). simpl.
    destruct (existsb _ _) eqn:He.
    + rewrite IH. apply existsb_id in He. apply IH in He. split; [tauto |].
      intros [H | [H | [<- | []]]]; tauto.
    + simpl. rewrite IH. tauto.
Qed.

Lemma NoDup_ids_upsertAll upserts init :
  List.NoDup (ids init) -> List.NoDup (ids (upsertAll upserts init)).
Proof.
  intros Hnd. induction upserts as [| a upserts IH] using rev_ind; [exact Hnd |].
  rewrite upsertAll_snoc. apply NoDup_ids_upsert, IH.
Qed.

(** C9.  After any sequence of upserts on a list with at most one entry
    per id, the list has at most one entry per id, its ids are those of
    the initial list and of the upserts, the entry of an upserted id is
    the agent of the most recent upsert with that id, and the entries
    whose id was never upserted are kept. *)
Theorem upsert_keeps_one_entry_per_id (init upserts : list Agent) :
  List.NoDup (ids init) ->
  List.NoDup (ids (upsertAll upserts init))
  /\ (forall i, In i (ids (upsertAll upserts init))
                <-> In i (ids init) \/ In i (ids upserts))
  /\ (forall i a, last_upsert i upserts = Some a ->
                  In a (upsertAll upserts init)
                  /\ forall b, In b (upsertAll upserts init) -> id b = i -> b = a)
  /\ (forall b, In b init -> last_upsert (id b) upserts = None ->
                In b (upsertAll upserts init)).
Proof.
  intros Hnd. split; [apply NoDup_ids_upsertAll, Hnd |].
  split; [intros i; apply ids_upsertAll |]. split.
  - intros i a Hlast. pose proof (last_upsert_id _ _ _ Hlast) as Hid. split.
    + apply In_upsertAll. left. rewrite Hid. exact Hlast.
    + intros b Hb Hbi. apply In_upsertAll in Hb. rewrite Hbi, Hlast in Hb.
      destruct Hb as [[= ->] | [_ [=]]]. reflexivity.
  - intros b Hb Hnone. apply In_upsertAll. right. auto.
Qed.

(** C9 on a concrete sequence. *)
Lemma upsert_keeps_one_entry_per_id_witness :
  List.NoDup (ids (upsertAll [agent_b'; agent_c; agent_b] [agent_a; agent_b]))
  /\ upsertAll [agent_b'; agent_c; agent_b] [agent_a; agent_b]
     = [agent_c; agent_a; agent_b].
Proof.
  split; [| reflexivity].
  apply (upsert_keeps_one_entry_per_id [agent_a; agent_b] [agent_b'; agent_c; agent_b]).
  repeat constructor; simpl; intuition discriminate.
Defined.

(** **** The agents list: status updates *)

Lemma applyStatusUpdate_lookup data prev i :
  App.applyStatusUpdate data prev !! i
  = (fun agent =>
       if String.eqb (id agent) (App.agentId data)
       then App.with_status agent (App.data_status data) (App.data_currentStep data)
       else agent) <$> (prev !! i).
Proof.
  unfold App.applyStatusUpdate. revert i.
  induction prev as [| a prev IH]; intros [| i]; simpl; auto.
Qed.

Lemma applyStatusUpdate_no_match data prev :
  (forall agent, In agent prev -> id agent <> App.agentId data) ->
  App.applyStatusUpdate data prev = prev.
Proof.
  intros H. unfold App.applyStatusUpdate.
  rewrite <- (map_id prev) at 2. apply map_ext_in. intros a Ha.
  apply H, String.eqb_neq in Ha. rewrite Ha. reflexivity.
Qed.

Lemma agents_onmessage_status_update data s :
  App.event data = "agent-status-update" ->
  App.agents (App.onmessage (Some data) s)
  = App.applyStatusUpdate data (App.agents s).
Proof. intros He. unfold App.onmessage. rewrite He. reflexivity. Qed.

(** C10.  An "agent-status-update" message keeps the length of the list
    and the order of its ids; the agent at each position keeps every
    field but [status] and [currentStep], which take the values of the
    message when its id is the [agentId] of the message, and is unchanged
    otherwise; with no matching agent the list is unchanged. *)
Theorem status_update_frame (data : App.ServerEvent) (s : App.State) :
  App.event data = "agent-status-update" ->
  length (App.agents (App.onmessage (Some data) s)) = length (App.agents s)
  /\ ids (App.agents (App.onmessage (Some data) s)) = ids (App.agents s)
  /\ (forall i agent,
        App.agents s !! i = Some agent ->
        exists agent',
          App.agents (App.onmessage (Some data) s) !! i = Some agent'
          /\ same_but_status agent agent'
          /\ (id agent = App.agentId data ->
              status agent' = App.data_status data
              /\ currentStep agent' = App.data_currentStep data)
          /\ (id agent <> App.agentId data -> agent' = agent))
  /\ ((forall agent, In agent (App.agents s) -> id agent <> App.agentId data) ->
      App.agents (App.onmessage (Some data) s) = App.agents s).
Proof.
  intros He. rewrite (agents_onmessage_status_update _ _ He).
  split; [apply length_map |]. split; [| split].
  - unfold ids, App.applyStatusUpdate. rewrite map_map. apply map_ext.
    intros a. destruct (String.eqb _ _); reflexivity.
  - intros i agent Hi. rewrite applyStatusUpdate_lookup, Hi. simpl.
    destruct (String.eqb (id agent) (App.agentId data)) eqn:Hm.
    + apply String.eqb_eq in Hm. eexists. split; [reflexivity |].
      split; [repeat split |]. split; [intros _; split; reflexivity | congruence].
    + apply String.eqb_neq in Hm. exists agent. split; [reflexivity |].
      split; [repeat split |]. split; [congruence | reflexivity].
  - apply applyStatusUpdate_no_match.
Qed.

(** C10 on a concrete list. *)
Lemma status_update_frame_witness :
  length (App.agents (App.onmessage (Some status_update_b) two_agents)) = 2%nat
  /\ ids (App.agents (App.onmessage (Some status_update_b) two_agents)) = ["a"; "b"]
  /\ exists b',
       App.agents (App.onmessage (Some status_update_b) two_agents) !! 1%nat = Some b'
       /\ same_but_status agent_b b'
       /\ status b' = RUNNING /\ currentStep b' = Some 3.
Proof.
  destruct (status_update_frame status_update_b two_agents eq_refl)
    as (Hlen & Hids & Hat & _).
  split; [exact Hlen |]. split; [exact Hids |].
  destruct (Hat 1%nat agent_b eq_refl) as (b' & Hb & Hsame & Hnew & _).
  exists b'. split; [exact Hb |]. split; [exact Hsame |]. apply Hnew. reflexivity.
Defined.

(** **** Creating an agent *)

Lemma apiCalls_send_if_open message s :
  App.apiCalls (App.send_if_open message s) = App.apiCalls s.
Proof.
  unfold App.send_if_open.
  destruct (App.socket s) as [sk |]; [| reflexivity].
  destruct (App.ReadyState_eqb _ _); [| reflexivity].
  destruct (App.send message sk); reflexivity.
Qed.

Lemma agents_send_if_open message s :
  App.agents (App.send_if_open message s) = App.agents s.
Proof.
  unfold App.send_if_open.
  destruct (App.socket s) as [sk |]; [| reflexivity].
  destruct (App.ReadyState_eqb _ _); [| reflexivity].
  destruct (App.send message sk); reflexivity.
Qed.

Lemma handleCreateAgent_created createAgent newAgent created s :
  createAgent (App.config_of newAgent) = Ok created ->
  App.apiCalls (App.handleCreateAgent createAgent newAgent s)
  = App.apiCalls s ++ [App.CallCreateAgent (App.config_of newAgent)]
  /\ App.agents (App.handleCreateAgent createAgent newAgent s)
     = App.upsert created (App.agents s).
Proof.
  intros Hc. unfold App.handleCreateAgent, App.subscribeToAgentUpdates.
  rewrite Hc. simpl. rewrite apiCalls_send_if_open, agents_send_if_open.
  split; reflexivity.
Qed.

Lemma upsert_fresh a l : ~ In (id a) (ids l) -> App.upsert a l = a :: l.
Proof.
  intros H. unfold App.upsert.
  destruct (existsb _ l) eqn:He; [| reflexivity].
  apply existsb_id in He. contradiction.
Qed.

Lemma upsert_present a l :
  In (id a) (ids l) ->
  App.upsert a l
  = map (fun agent => if String.eqb (id agent) (id a) then a else agent) l.
Proof.
  intros H. apply existsb_id in H. unfold App.upsert. rewrite H. reflexivity.
Qed.

(** C8, amended.  Submitting an instruction whose trimmed length is below
    10 changes neither the form nor the application state: no call is
    issued.  Otherwise one [createAgent] call with the form's fields is
    issued and, when the backend returns an agent, that agent is put at
    the head of the list if no agent of the list has its id, and replaces
    the agents with its id in place otherwise. *)
Theorem create_agent_flow createAgent uuid now (f : Form.State) (s : App.State) :
  ((String.length (Form.trim (Form.instruction f)) < 10)%nat ->
   App.submitCreateAgentForm createAgent uuid now f s = (f, s))
  /\ ((10 <= String.length (Form.trim (Form.instruction f)))%nat ->
      forall created,
        createAgent (mkAgentConfig (Form.instruction f) (Form.model f)
                       (Form.maxSteps f) (Form.headless f) (Form.useVision f)
                       (Form.generateGif f) (Form.browserSize f)) = Ok created ->
        let s' := snd (App.submitCreateAgentForm createAgent uuid now f s) in
        App.apiCalls s'
        = App.apiCalls s
          ++ [App.CallCreateAgent
                (mkAgentConfig (Form.instruction f) (Form.model f)
                   (Form.maxSteps f) (Form.headless f) (Form.useVision f)
                   (Form.generateGif f) (Form.browserSize f))]
        /\ (~ In (id created) (ids (App.agents s)) ->
            App.agents s' = created :: App.agents s)
        /\ (In (id created) (ids (App.agents s)) ->
            App.agents s'
            = map (fun agent => if String.eqb (id agent) (id created)
                                then created else agent)
                  (App.agents s))).
Proof.
  unfold App.submitCreateAgentForm, Form.handleSubmit. split.
  - intros Hlt.
    assert (H : (Z.of_nat (String.length (Form.trim (Form.instruction f))) <? 10) = true)
      by (apply Z.ltb_lt; lia).
    rewrite H. reflexivity.
  - intros Hge created Hc.
    assert (H : (Z.of_nat (String.length (Form.trim (Form.instruction f))) <? 10) = false)
      by (apply Z.ltb_ge; lia).
    rewrite H. cbn [snd].
    destruct (handleCreateAgent_created createAgent (Form.newAgent uuid now f)
                created s Hc) as [Hcalls Hagents].
    split; [exact Hcalls |]. rewrite Hagents.
    split; [apply upsert_fresh | apply upsert_present].
Qed.

(** C8 amended, for a short instruction and for the instruction
    "Search GitHub for trending Rust repos and list the top 5,". *)
Lemma create_agent_flow_witness :
  App.submitCreateAgentForm (fun _ => Ok agent_c) "uuid-1" "2025-03-02T08:00:00.000Z"
    short_form two_agents = (short_form, two_agents)
  /\ App.agents
       (snd (App.submitCreateAgentForm (fun _ => Ok agent_c) "uuid-1"
               "2025-03-02T08:00:00.000Z" example_form two_agents))
     = [agent_c; agent_a; agent_b]
  /\ App.apiCalls
       (snd (App.submitCreateAgentForm (fun _ => Ok agent_c) "uuid-1"
               "2025-03-02T08:00:00.000Z" example_form two_agents))
     = [App.CallCreateAgent
          (mkAgentConfig example_instruction "gpt-4o" 30 false true true mobile)].
Proof.
  split; [| split].
  - apply (create_agent_flow (fun _ => Ok agent_c) "uuid-1" "2025-03-02T08:00:00.000Z"
             short_form two_agents).
    vm_compute. lia.
  - destruct (create_agent_flow (fun _ => Ok agent_c) "uuid-1"
                "2025-03-02T08:00:00.000Z" example_form two_agents) as [_ H].
    destruct (H ltac:(vm_compute; lia) agent_c eq_refl) as (_ & Hfresh & _).
    apply Hfresh. simpl. intuition discriminate.
  - destruct (create_agent_flow (fun _ => Ok agent_c) "uuid-1"
                "2025-03-02T08:00:00.000Z" example_form two_agents) as [_ H].
    destruct (H ltac:(vm_compute; lia) agent_c eq_refl) as (Hcalls & _ & _).
    exact Hcalls.
Defined.

(** C8, as stated, fails: when the backend returns an agent whose id is
    already in the list, the agent replaces that entry and is not at the
    head. *)
Lemma created_agent_not_at_head :
  (10 <= String.length (Form.trim example_instruction))%nat
  /\ agent_b' <> agent_a
  /\ App.agents
       (snd (App.submitCreateAgentForm (fun _ => Ok agent_b') "uuid-1"
               "2025-03-02T08:00:00.000Z" example_form two_agents))
     = [agent_a; agent_b'].
Proof.
  split; [vm_compute; lia |]. split; [discriminate | reflexivity].
Qed.

(* ================================================================== *)
(** ** Further properties of the domain client                         *)
(* ================================================================== *)

(** X1.  The text [encodeURIComponent] produces consists of unreserved
    characters and percent signs only, so none of the separators of a
    URL occurs in it; a text of unreserved characters is returned as it
    is; and a text is produced exactly for the well-formed strings (a
    string with a surrogate outside a pair throws a [URIError]). *)
Theorem encodeURIComponent_safe (s : JsString) :
  (forall t, Api.encodeURIComponent s = Ok t ->
     forallb url_safe (list_ascii_of_string t) = true
     /\ Forall (fun c => ~ In c (list_ascii_of_string t))
               (list_ascii_of_string "&=?#/+ :"))
  /\ (forall text, s = of_string text ->
        forallb Api.unreserved (list_ascii_of_string text) = true ->
        Api.encodeURIComponent s = Ok text)
  /\ is_ok (Api.encodeURIComponent s) = well_formed s
  /\ (forall e, Api.encodeURIComponent s = Throw e -> e = Api.URI_malformed).
Proof.
  pose proof (encodeURIComponent_cases s) as Hc.
  split; [| split; [| split]].
  - intros t Ht. rewrite Ht in Hc. destruct Hc as [_ Hsafe].
    split; [exact Hsafe |].
    rewrite forallb_forall in Hsafe.
    repeat constructor; intros Hin; apply Hsafe in Hin; discriminate Hin.
  - intros text -> Hu. apply encodeURIComponent_unreserved, Hu.
  - destruct (Api.encodeURIComponent s); simpl; symmetry; apply Hc.
  - intros e He. rewrite He in Hc. apply Hc.
Qed.

(** X1 on a sort key with a space and a slash, and on a plain one. *)
Lemma encodeURIComponent_safe_witness :
  Api.encodeURIComponent (of_string "createdAt") = Ok "createdAt"
  /\ exists t, Api.encodeURIComponent (of_string "created at/x") = Ok t
               /\ ~ In " "%char (list_ascii_of_string t).
Proof.
  split.
  - apply (encodeURIComponent_safe (of_string "createdAt")); reflexivity.
  - exists "created%20at%2Fx". split; [reflexivity |].
    destruct (encodeURIComponent_safe (of_string "created at/x")) as (Hsafe & _).
    destruct (Hsafe "created%20at%2Fx" eq_refl) as [_ Hsep].
    rewrite List.Forall_forall in Hsep. apply Hsep. simpl.
    do 6 right. left. reflexivity.
Defined.

Lemma defined_entries_nil (p : Api.AgentsParams) :
  Api.defined (Api.entries p) = [] <-> no_param p = true.
Proof.
  unfold no_param.
  destruct p as [[l |] [o |] [st |] [so |] [od |]];
    cbn [Api.defined Api.entries Api.p_limit Api.p_offset Api.p_status Api.p_sort
         Api.p_order fmap option_fmap option_map omap list_omap mbind option_bind];
    split; (discriminate || reflexivity).
Qed.

Lemma defined_entries_cons (p : Api.AgentsParams) :
  Api.defined (Api.entries p) = []
  \/ exists c key value l, Api.defined (Api.entries p) = (String c key, value) :: l.
Proof.
  destruct p as [[l |] [o |] [st |] [so |] [od |]];
    cbn [Api.defined Api.entries Api.p_limit Api.p_offset Api.p_status Api.p_sort
         Api.p_order fmap option_fmap option_map omap list_omap mbind option_bind];
    (left; reflexivity) || (right; do 4 eexists; reflexivity).
Qed.

(** X2.  When the query of [getAgents] can be built, it is empty
    exactly when no property of the filter is defined (or there is no
    filter), and otherwise it starts with a question mark; it can be
    built exactly when the sort key, if any, is a well-formed string. *)
Theorem query_empty_iff (params : option Api.AgentsParams) :
  (Api.query params = Ok EmptyString
   <-> match params with Some p => no_param p = true | None => True end)
  /\ (forall t, Api.query params = Ok t ->
        t = EmptyString \/ exists q, t = String "?" q)
  /\ is_ok (Api.query params) = well_formed_filter params.
Proof.
  split; [| split; [| apply query_is_ok]].
  - unfold Api.query, Api.queryParams.
    destruct params as [p |]; [| split; reflexivity].
    rewrite <- defined_entries_nil.
    destruct (defined_entries_cons p) as [-> | (c & key & value & l & ->)].
    + split; reflexivity.
    + destruct (Api.joined _) as [t | e] eqn:Hj; simpl.
      * rewrite (joined_cons_nonempty _ _ _ _ _ Hj). split; discriminate.
      * split; discriminate.
  - intros t. unfold Api.query.
    destruct (Api.queryParams params) as [q | e]; simpl; [| discriminate].
    intros [= <-]. destruct (String.eqb q EmptyString); [left | right; eexists];
      reflexivity.
Qed.

Lemma js_or_truthy a b : truthy a = true -> js_or a b = a.
Proof. intros H. unfold js_or. rewrite H. reflexivity. Qed.

Lemma js_or_falsy a b : truthy a = false -> js_or a b = b.
Proof. intros H. unfold js_or. rewrite H. reflexivity. Qed.

Lemma truthy_js_or_r a b : truthy b = true -> truthy (js_or a b) = true.
Proof. intros H. unfold js_or. destruct (truthy a) eqn:Ha; assumption. Qed.

Lemma js_or_zero a : js_or a (JNum 0) = JNum 0 \/ truthy (js_or a (JNum 0)) = true.
Proof. unfold js_or. destruct (truthy a) eqn:Ha; auto. Qed.

(** The two shapes of a result of [getAgents]. *)
Lemma getAgents_shape fetch this params q :
  Api.query params = Ok q ->
  Api.getAgents fetch this params = Ok (Api.empty_result params)
  \/ exists a i t n lim off,
       Api.getAgents fetch this params
       = Ok (Api.mkAgentsResult
               (js_or a (js_or i (JArr [])))
               (js_or t n)
               (js_or lim (js_or (Api.params_limit params) (JNum 10)))
               (js_or off (js_or (Api.params_offset params) (JNum 0)))).
Proof.
  intros Hq. rewrite (getAgents_encoded _ _ _ _ Hq).
  destruct (Api.request _ _ _ _) as [response | e]; [| left; reflexivity].
  simpl. destruct (get response "data") as [data | e]; [| left; reflexivity].
  simpl. destruct (truthy data); [| left; reflexivity]. simpl.
  destruct (get data "agents") as [a | e]; [| left; reflexivity]. simpl.
  destruct (get data "items") as [i | e]; [| left; reflexivity]. simpl.
  destruct (get data "total") as [t | e]; [| left; reflexivity]. simpl.
  destruct (get _ "length") as [n | e]; [| left; reflexivity]. simpl.
  destruct (get data "limit") as [lim | e]; [| left; reflexivity]. simpl.
  destruct (get data "offset") as [off | e]; [| left; reflexivity]. simpl.
  right. exists a, i, t, n, lim, off. reflexivity.
Qed.

(** X3.  For a filter whose sort key is a well-formed string, and
    whatever the backend answers, the result of [getAgents] has an
    [agents] value that is neither [undefined] nor [null] (nor any other
    falsy value), a [limit] that is never zero or missing (a requested
    limit of 0 counts as missing and gives way to the default), and an
    [offset] that is a truthy value or the number 0. *)
Theorem getAgents_result_invariants fetch this params :
  well_formed_filter params = true ->
  exists r, Api.getAgents fetch this params = Ok r
            /\ truthy (Api.agents r) = true
            /\ truthy (Api.limit r) = true
            /\ (Api.offset r = JNum 0 \/ truthy (Api.offset r) = true).
Proof.
  intros Hwf. destruct (query_total params Hwf) as [q Hq].
  destruct (getAgents_shape fetch this params q Hq)
    as [-> | (a & i & t & n & lim & off & ->)]; eexists; (split; [reflexivity |]);
    simpl.
  - split; [reflexivity |]. split; [apply truthy_js_or_r; reflexivity |].
    apply js_or_zero.
  - split; [do 2 (apply truthy_js_or_r); reflexivity |].
    split; [do 2 (apply truthy_js_or_r); reflexivity |].
    destruct (truthy off) eqn:Ho.
    + right. rewrite (js_or_truthy _ _ Ho). exact Ho.
    + rewrite (js_or_falsy _ _ Ho). apply js_or_zero.
Qed.

(** X3 with a limit of 0 and a sort key, on a backend that answers with
    an envelope without data. *)
Lemma getAgents_result_invariants_witness :
  exists r, Api.getAgents (fun _ => Api.Responded (response_http 200)) svc
              (Some (Api.mkAgentsParams (Some 0) None None
                       (Some (of_string "createdAt")) None))
            = Ok r
            /\ Api.agents r = JArr [] /\ Api.limit r = JNum 10.
Proof.
  destruct (getAgents_result_invariants
              (fun _ => Api.Responded (response_http 200)) svc
              (Some (Api.mkAgentsParams (Some 0) None None
                       (Some (of_string "createdAt")) None)) eq_refl)
    as (r & Hr & _).
  exists r. split; [exact Hr |].
  vm_compute in Hr. injection Hr as <-. split; reflexivity.
Defined.

(** X4.  For an OK response to the request of [getAgents] whose
    [data.agents] is an array, that array is the result's [agents]
    whatever [data.items] holds, and the result's [total] is
    [data.total] when it is a number other than zero, and the length of
    the array when [data.total] is missing or zero. *)
Theorem getAgents_total_fallback fetch this params q r
    (envelope data : gmap string JsValue) (l : list JsValue) :
  Api.query params = Ok q ->
  fetch (agents_request this q) = Api.Responded r ->
  Api.ok r = true ->
  Api.json r = Ok (JObj envelope) ->
  envelope !! "data" = Some (JObj data) ->
  data !! "agents" = Some (JArr l) ->
  exists res,
    Api.getAgents fetch this params = Ok res
    /\ Api.agents res = JArr l
    /\ (data !! "total" = None -> Api.total res = JNum (Z.of_nat (length l)))
    /\ (data !! "total" = Some (JNum 0) -> Api.total res = JNum (Z.of_nat (length l)))
    /\ (forall n, n <> 0 -> data !! "total" = Some (JNum n) -> Api.total res = JNum n).
Proof.
  intros Hq Hf Hok Hj Hd Ha. rewrite (getAgents_encoded _ _ _ _ Hq).
  rewrite (request_ok _ _ _ _ _ _ Hf Hok Hj). simpl.
  rewrite Hd. simpl. rewrite Ha. simpl.
  eexists. split; [reflexivity |]. simpl. split; [reflexivity |].
  split; [| split].
  - intros ->. reflexivity.
  - intros ->. reflexivity.
  - intros n Hn ->. simpl. unfold js_or. simpl.
    apply Z.eqb_neq in Hn. rewrite Hn. reflexivity.
Qed.

(** X4 on a response without a total. *)
Lemma getAgents_total_fallback_witness :
  exists res,
    Api.getAgents (fun _ => Api.Responded response_no_total) svc None = Ok res
    /\ Api.agents res = JArr [agent_1; agent_1] /\ Api.total res = JNum 2.
Proof.
  pose (data := list_to_map (reverse [ ("agents", JArr [agent_1; agent_1]);
                                       ("items", JArr []) ]) : gmap string JsValue).
  assert (Hd : (list_to_map (reverse [ ("status", JStr "success"); ("data", JObj data) ])
                : gmap string JsValue) !! "data" = Some (JObj data))
    by (vm_compute; reflexivity).
  assert (Ha : data !! "agents" = Some (JArr [agent_1; agent_1]))
    by (vm_compute; reflexivity).
  destruct (getAgents_total_fallback (fun _ => Api.Responded response_no_total) svc None
              EmptyString response_no_total _ data _ eq_refl eq_refl eq_refl eq_refl
              Hd Ha)
    as (res & Hres & Hagents & Hnone & _).
  exists res. split; [exact Hres |]. split; [exact Hagents |].
  apply Hnone. vm_compute. reflexivity.
Defined.

(** X5.  [testConnection] answers [true] exactly when [fetch] resolves
    with an OK status and the text of the body can be read; a rejected
    [fetch], a status outside 200-299 and an unreadable body all give
    [false]. *)
Theorem testConnection_true_iff fetch this :
  Api.testConnection fetch this = true
  <-> exists r t, fetch (Api.testConnection_request this) = Api.Responded r
                  /\ Api.ok r = true /\ Api.text r = Ok t.
Proof.
  unfold Api.testConnection. split.
  - destruct (fetch _) as [e | r]; [discriminate |].
    destruct (Api.ok r) eqn:Hok; [| discriminate].
    destruct (Api.text r) as [t | e] eqn:Ht; [| discriminate].
    intros _. exists r, t. auto.
  - intros (r & t & -> & -> & ->). reflexivity.
Qed.

(** X6.  When the network is down, every operation built on [request]
    rejects with the very error of [fetch] (for the operations that
    encode a filter or a type into the query: once that query is built),
    whereas [getAgents] resolves to its empty result and
    [testConnection] to [false]. *)
Theorem network_failure_propagation fetch this e :
  (forall req, fetch req = Api.Rejected e) ->
  (forall id, Api.getAgentById fetch this id = Throw e)
  /\ (forall config, Api.createAgent fetch this config = Throw e)
  /\ (forall id updates, Api.updateAgent fetch this id updates = Throw e)
  /\ (forall id, Api.deleteAgent fetch this id = Throw e)
  /\ (forall action id, performAction fetch this action id = Throw e)
  /\ (forall id params q, Api.logs_query params = Ok q ->
        Api.getAgentLogs fetch this id params = Throw e)
  /\ (forall id, Api.getAgentResults fetch this id = Throw e)
  /\ (forall id type q, Api.artifacts_query type = Ok q ->
        Api.getAgentArtifacts fetch this id type = Throw e)
  /\ Api.getPresetPrompts fetch this = Throw e
  /\ (forall service username password,
        Api.verifyCredentials fetch this service username password = Throw e)
  /\ (forall params, well_formed_filter params = true ->
        Api.getAgents fetch this params = Ok (Api.empty_result params))
  /\ Api.testConnection fetch this = false.
Proof.
  intros Hdown.
  assert (Hreq : forall endpoint options,
             Api.request fetch this endpoint options = Throw e).
  { intros endpoint options. unfold Api.request. rewrite Hdown. reflexivity. }
  repeat split; intros;
    try (destruct action);
    try match goal with
        | H : well_formed_filter ?params = true |- _ =>
            destruct (query_total params H) as [q Hq];
            rewrite (getAgents_encoded _ _ _ _ Hq)
        end;
    unfold Api.getAgentById, Api.createAgent, Api.updateAgent, Api.deleteAgent,
      performAction, Api.startAgent, Api.stopAgent, Api.pauseAgent, Api.resumeAgent,
      Api.getAgentLogs, Api.getAgentResults, Api.getAgentArtifacts,
      Api.getPresetPrompts, Api.verifyCredentials, Api.testConnection;
    try match goal with H : _ = Ok _ |- _ => rewrite H end;
    cbn [mbind result_bind];
    rewrite ?Hreq, ?Hdown; reflexivity.
Qed.

(** X6 with the error a browser raises when the server is unreachable. *)
Lemma network_failure_propagation_witness :
  Api.deleteAgent (offline (TypeError "Failed to fetch")) svc "agent-1"
  = Throw (TypeError "Failed to fetch")
  /\ Api.testConnection (offline (TypeError "Failed to fetch")) svc = false.
Proof.
  destruct (network_failure_propagation (offline (TypeError "Failed to fetch")) svc
              (TypeError "Failed to fetch") (fun _ => eq_refl))
    as (_ & _ & _ & Hdel & _ & _ & _ & _ & _ & _ & _ & Htest).
  split; [apply Hdel | exact Htest].
Defined.

(** X7.  Every request of [request] carries the configured API key in
    the [X-API-Key] header, whatever headers the caller passes (even one
    of that name), and the JSON content type unless the caller passes a
    content type of its own. *)
Theorem request_headers_api_key this endpoint options key :
  Api.apiKey this = Some key ->
  key <> EmptyString ->
  Api.headers (Api.build_request this endpoint options) !! "X-API-Key" = Some key
  /\ Api.headers (Api.build_request this endpoint options) !! "Content-Type"
     = Some (default "application/json" (Api.init_headers options !! "Content-Type")).
Proof.
  intros Hkey Hne. apply String.eqb_neq in Hne.
  unfold Api.build_request, Api.request_headers. simpl. rewrite Hkey, Hne. split.
  - apply lookup_insert_eq.
  - rewrite lookup_insert_ne by discriminate.
    rewrite lookup_union.
    destruct (Api.init_headers options !! "Content-Type") as [v |]; reflexivity.
Qed.

(** X7 for a caller that tries to set both headers. *)
Lemma request_headers_api_key_witness :
  Api.headers
    (Api.build_request svc "/agents"
       (Api.mkRequestInit None
          {[ "X-API-Key" := "other"; "Content-Type" := "text/plain" ]} None))
    !! "X-API-Key" = Some "development-key"
  /\ Api.headers
       (Api.build_request svc "/agents"
          (Api.mkRequestInit None
             {[ "X-API-Key" := "other"; "Content-Type" := "text/plain" ]} None))
       !! "Content-Type" = Some "text/plain".
Proof.
  exact (request_headers_api_key svc "/agents"
           (Api.mkRequestInit None
              {[ "X-API-Key" := "other"; "Content-Type" := "text/plain" ]} None)
           "development-key" eq_refl ltac:(discriminate)).
Defined.

(** X8.  A freshly constructed service is always configured, because an
    absent or empty stored key gives way to the development key.
    [setConfig] followed by a new construction gives back the same URL
    and key when both are non-empty; an empty key is stored as it is, the
    live service then counts as not configured, and a new construction
    falls back to the development key. *)
Theorem config_round_trip (localStorage : Api.Storage) (apiUrl apiKey : string) :
  Api.isConfigured (Api.constructor localStorage) = true
  /\ (apiUrl <> EmptyString -> apiKey <> EmptyString ->
      Api.constructor (snd (Api.setConfig apiUrl apiKey localStorage))
      = fst (Api.setConfig apiUrl apiKey localStorage))
  /\ Api.isConfigured (fst (Api.setConfig apiUrl EmptyString localStorage)) = false
  /\ Api.apiKey (Api.constructor (snd (Api.setConfig apiUrl EmptyString localStorage)))
     = Some Api.DEVELOPMENT_API_KEY.
Proof.
  split; [| split; [| split]].
  - unfold Api.isConfigured, Api.constructor, Api.getItem_or. simpl.
    destruct (localStorage !! "openaiApiKey") as [v |]; [| reflexivity].
    destruct (String.eqb v EmptyString) eqn:Hv; [reflexivity |].
    rewrite Hv. reflexivity.
  - intros Hu Hk. apply String.eqb_neq in Hu, Hk.
    unfold Api.constructor, Api.setConfig, Api.getItem_or. simpl.
    rewrite lookup_insert_ne by discriminate. rewrite !lookup_insert_eq.
    rewrite Hu, Hk. reflexivity.
  - reflexivity.
  - unfold Api.constructor, Api.setConfig, Api.getItem_or. simpl.
    rewrite lookup_insert_eq. reflexivity.
Qed.

(** X8 for the values of the settings page. *)
Lemma config_round_trip_witness :
  Api.constructor (snd (Api.setConfig "https://lab.example.com/api/v1" "sk-test" ∅))
  = Api.mkApiService "https://lab.example.com/api/v1" (Some "sk-test").
Proof.
  apply (config_round_trip ∅ "https://lab.example.com/api/v1" "sk-test");
    discriminate.
Defined.

(* ================================================================== *)
(** ** Further properties of the live update channel                   *)
(* ================================================================== *)

Lemma growth_ge_1 n : 0 <= n -> (1 <= App.Math_pow App.GROWTH n)%Q.
Proof. intros Hn. apply Qpower_1_le; [vm_compute; discriminate | exact Hn]. Qed.

Lemma backoffDelay_lower attempt :
  1 <= attempt -> (App.RECONNECT_DELAY <= App.backoffDelay attempt)%Q.
Proof.
  intros Ha. unfold App.backoffDelay.
  assert (H1 : (1 <= Qmin (App.Math_pow App.GROWTH (attempt - 1)) App.GROWTH_CAP)%Q).
  { apply Q.min_glb; [apply growth_ge_1; lia | vm_compute; discriminate]. }
  apply (Qmult_le_l _ _ App.RECONNECT_DELAY) in H1; [| reflexivity].
  rewrite Qmult_1_r in H1. exact H1.
Qed.

(** X9.  The backoff delay never decreases from one attempt to the next,
    lies between 2000 ms and 30000 ms for every attempt from the first,
    and is exactly 30000 ms from the eighth attempt on. *)
Theorem backoffDelay_monotone_capped (a b : Z) :
  1 <= a <= b ->
  (App.backoffDelay a <= App.backoffDelay b)%Q
  /\ (2000 # 1 <= App.backoffDelay a)%Q
  /\ (App.backoffDelay a <= 30000 # 1)%Q
  /\ (8 <= a -> (App.backoffDelay a == 30000 # 1)%Q).
Proof.
  intros [Ha Hab]. split; [| split; [| split]].
  - unfold App.backoffDelay. apply Qmult_le_l; [reflexivity |].
    apply Q.min_le_compat_r. unfold App.Math_pow.
    apply Qpower_le_compat_l; [lia | vm_compute; discriminate].
  - apply backoffDelay_lower, Ha.
  - apply backoffDelay_bounded.
  - intros H8. unfold App.backoffDelay.
    assert (Hcap : (App.GROWTH_CAP <= App.Math_pow App.GROWTH (a - 1))%Q).
    { eapply Qle_trans; [| apply (Qpower_le_compat_l App.GROWTH 7 (a - 1));
                             [lia | vm_compute; discriminate]].
      vm_compute. discriminate. }
    rewrite (Q.min_r _ _ Hcap). reflexivity.
Qed.

(** X9 between the third and the ninth attempt. *)
Lemma backoffDelay_monotone_capped_witness :
  (App.backoffDelay 3 <= App.backoffDelay 9)%Q
  /\ (App.backoffDelay 9 == 30000 # 1)%Q.
Proof.
  split.
  - apply (backoffDelay_monotone_capped 3 9). lia.
  - destruct (backoffDelay_monotone_capped 9 9 ltac:(lia)) as (_ & _ & _ & Hcap).
    apply Hcap. lia.
Defined.

(** **** What every run keeps *)

Lemma delay_in_range_reconnect_timer s :
  0 <= App.reconnectAttempts s -> delay_in_range (reconnect_timer s).
Proof.
  intros H0. unfold reconnect_timer, delay_in_range.
  destruct (App.reconnectAttempts s <? App.MAX_RECONNECT_ATTEMPTS); simpl.
  - split; [apply backoffDelay_lower; lia |].
    eapply Qle_trans; [apply backoffDelay_bounded |]. vm_compute. discriminate.
  - split; [vm_compute; discriminate | apply Qle_refl].
Qed.

Lemma invariant_frame s s' :
  App.reconnectAttempts s' = App.reconnectAttempts s \/ App.reconnectAttempts s' = 0 ->
  reconnects s' = reconnects s ->
  channel_invariant s -> channel_invariant s'.
Proof.
  intros Ha Hr [Hb Hd]. unfold channel_invariant. rewrite Hr.
  split; [| exact Hd]. destruct Ha as [-> | ->]; [exact Hb |].
  vm_compute. split; discriminate.
Qed.

Lemma invariant_reconnectWithBackoff s :
  channel_invariant s -> channel_invariant (App.reconnectWithBackoff s).
Proof.
  intros [Hb Hd]. unfold channel_invariant.
  rewrite reconnectAttempts_reconnectWithBackoff, reconnects_reconnectWithBackoff.
  split.
  - destruct (App.reconnectAttempts s <? App.MAX_RECONNECT_ATTEMPTS) eqn:Hlt;
      [apply Z.ltb_lt in Hlt; lia | exact Hb].
  - apply List.Forall_app. split; [exact Hd |].
    constructor; [| constructor]. apply delay_in_range_reconnect_timer. lia.
Qed.

Ltac frame_invariant H :=
  first
    [ exact H
    | eapply invariant_frame; [| | exact H];
      [ first [left; reflexivity | right; reflexivity]
      | unfold reconnects; simpl; rewrite ?List.filter_app; simpl;
        rewrite ?app_nil_r; reflexivity ]
    | apply invariant_reconnectWithBackoff;
      eapply invariant_frame; [| | exact H];
      [ first [left; reflexivity | right; reflexivity]
      | unfold reconnects; simpl; rewrite ?List.filter_app; simpl;
        rewrite ?app_nil_r; reflexivity ] ].

Lemma invariant_setupWebSocket apiUrl accepts s :
  channel_invariant s ->
  channel_invariant (App.setupWebSocket apiUrl accepts s).
Proof.
  intros H. unfold App.setupWebSocket.
  destruct (accepts (App.wsUrl apiUrl));
    destruct s as [[[u [] m t] |] a [rt |] ic [hb |] tm nx lg dp ag wc ld er im loc calls];
    simpl; frame_invariant H.
Qed.

Lemma invariant_reset_setup apiUrl accepts s :
  channel_invariant s ->
  channel_invariant (App.setupWebSocket apiUrl accepts (App.set_reconnectAttempts 0 s)).
Proof.
  intros H. apply invariant_setupWebSocket.
  eapply invariant_frame; [| | exact H]; [right; reflexivity | reflexivity].
Qed.

Lemma invariant_onConnectionTimeout s :
  channel_invariant s -> channel_invariant (App.onConnectionTimeout s).
Proof.
  intros H. unfold App.onConnectionTimeout.
  destruct s as [[[u [] m t] |] a [rt |] ic [hb |] tm nx lg dp ag wc ld er im loc calls];
    simpl; frame_invariant H.
Qed.

Lemma invariant_heartbeat s :
  channel_invariant s -> channel_invariant (App.heartbeat s).
Proof.
  intros H. unfold App.heartbeat.
  destruct s as [[[u [] m t] |] a [rt |] ic [hb |] tm nx lg dp ag wc ld er im loc calls];
    simpl; frame_invariant H.
Qed.

Lemma invariant_onopen timeout s :
  channel_invariant s -> channel_invariant (App.onopen timeout s).
Proof.
  intros H. unfold App.onopen.
  destruct s as [sk a [rt |] ic [hb |] tm nx lg dp ag wc ld er im loc calls];
    simpl; frame_invariant H.
Qed.

Lemma invariant_onerror timeout s :
  channel_invariant s -> channel_invariant (App.onerror timeout s).
Proof.
  intros H. unfold App.onerror.
  destruct s as [sk a [rt |] ic [hb |] tm nx lg dp ag wc ld er im loc calls];
    simpl; frame_invariant H.
Qed.

Lemma invariant_onclose timeout ev s :
  channel_invariant s -> channel_invariant (App.onclose timeout ev s).
Proof.
  intros H. unfold App.onclose.
  destruct s as [sk a [rt |] [] [hb |] tm nx lg dp ag wc ld er im loc calls];
    simpl; destruct (negb (App.code ev =? 1000) && negb (App.code ev =? 1001));
    simpl; frame_invariant H.
Qed.

Lemma invariant_onmessage parsed s :
  channel_invariant s -> channel_invariant (App.onmessage parsed s).
Proof.
  intros H. unfold App.onmessage.
  destruct parsed as [data |]; [| exact H].
  destruct (String.eqb (App.event data) "pong"); [frame_invariant H |].
  destruct (existsb _ _); [| exact H].
  destruct (String.eqb (App.event data) "agent-status-update"); frame_invariant H.
Qed.

Lemma invariant_fire apiUrl accepts id s :
  channel_invariant s -> channel_invariant (App.fire apiUrl accepts id s).
Proof.
  intros H. unfold App.fire.
  destruct (App.timers s !! id) as [[d cb rep] |]; [| exact H]. simpl.
  assert (H' : channel_invariant (if rep then s else App.clearTimeout id s)).
  { destruct rep; [exact H |].
    eapply invariant_frame; [| | exact H]; [left; reflexivity | reflexivity]. }
  destruct cb; simpl.
  - apply invariant_setupWebSocket, H'.
  - apply invariant_reset_setup, H'.
  - apply invariant_onConnectionTimeout, H'.
  - apply invariant_heartbeat, H'.
Qed.

Lemma invariant_step apiUrl accepts e s :
  channel_invariant s -> channel_invariant (App.step apiUrl accepts e s).
Proof.
  intros H. unfold App.step.
  destruct e as [id | | parsed | | ev]; [apply invariant_fire, H | | | |];
    destruct (App.socket s) as [sk |] eqn:Hs; try exact H.
  - apply invariant_onopen.
    eapply invariant_frame; [| | exact H]; [left; reflexivity | reflexivity].
  - apply invariant_onmessage, H.
  - apply invariant_onerror, H.
  - apply invariant_onclose.
    eapply invariant_frame; [| | exact H]; [left; reflexivity | reflexivity].
Qed.

(** X10.  Along every run of the channel (any sequence of timer firings
    and socket events, whatever the URL and whether or not the socket
    constructor accepts it), the reconnect counter stays between 0 and
    10 and every reconnect timer ever set has a delay between 2000 ms
    and 60000 ms. *)
Theorem run_keeps_channel_invariant apiUrl accepts (events : list App.Event)
    (s : App.State) :
  channel_invariant s ->
  channel_invariant (App.run apiUrl accepts events s).
Proof.
  revert s. unfold App.run.
  induction events as [| e events IH]; intros s H; simpl; [exact H |].
  apply IH, invariant_step, H.
Qed.

(** X10 from the initial state. *)
Lemma run_keeps_channel_invariant_witness :
  channel_invariant
    (App.run dev_apiUrl accept_all
       [ App.EvError; App.EvClose (App.mkCloseEvent 1006 EmptyString false);
         App.EvTimer 3; App.EvOpen; App.EvMessage (Some pong) ]
       connecting).
Proof.
  apply run_keeps_channel_invariant.
  split; [vm_compute; split; discriminate | constructor].
Defined.

(** **** Handlers of the socket *)

(** X11.  A pong from the server resets the reconnect counter: whatever
    the counter was, a failure right after the pong is scheduled as a
    first attempt, at the base delay of 2000 ms; the agents list is
    untouched and nothing is forwarded to the views. *)
Theorem pong_resets_backoff (data : App.ServerEvent) (s : App.State) :
  App.event data = "pong" ->
  App.reconnectAttempts (App.onmessage (Some data) s) = 0
  /\ App.agents (App.onmessage (Some data) s) = App.agents s
  /\ App.dispatched (App.onmessage (Some data) s) = App.dispatched s
  /\ exists t,
       scheduled_by s (App.reconnectWithBackoff (App.onmessage (Some data) s)) = [t]
       /\ App.callback t = App.CbSetupWebSocket
       /\ (App.delay t == App.RECONNECT_DELAY)%Q
       /\ App.reconnectAttempts
            (App.reconnectWithBackoff (App.onmessage (Some data) s)) = 1.
Proof.
  intros He.
  assert (Hm : App.onmessage (Some data) s = App.set_reconnectAttempts 0 s)
    by (unfold App.onmessage; rewrite He; reflexivity).
  rewrite Hm.
  split; [reflexivity |]. split; [reflexivity |]. split; [reflexivity |].
  eexists. unfold scheduled_by. rewrite reconnects_reconnectWithBackoff.
  change (reconnects (App.set_reconnectAttempts 0 s)) with (reconnects s).
  rewrite drop_length_app. split; [reflexivity |].
  split; [reflexivity |]. split; [vm_compute; reflexivity |].
  rewrite reconnectAttempts_reconnectWithBackoff. reflexivity.
Qed.

(** X11 after ten failures. *)
Lemma pong_resets_backoff_witness :
  App.reconnectAttempts exhausted = 10
  /\ exists t,
       scheduled_by exhausted
         (App.reconnectWithBackoff (App.onmessage (Some pong) exhausted)) = [t]
       /\ (App.delay t == 2000 # 1)%Q.
Proof.
  split; [vm_compute; reflexivity |].
  destruct (pong_resets_backoff pong exhausted eq_refl)
    as (_ & _ & _ & t & Ht & _ & Hd & _).
  exists t. split; [exact Ht | exact Hd].
Defined.

(** X12.  When the socket opens, the counter is reset, the connection
    timeout of the socket is no longer pending, and a heartbeat timer of
    15000 ms that repeats is pending and recorded as the heartbeat
    interval; no reconnect timer is set. *)
Theorem onopen_starts_heartbeat (timeout : positive) (s : App.State) :
  (timeout < App.nextTimerId s)%positive ->
  App.reconnectAttempts (App.onopen timeout s) = 0
  /\ App.isWebSocketConnected (App.onopen timeout s) = true
  /\ App.timers (App.onopen timeout s) !! timeout = None
  /\ App.heartbeatInterval (App.onopen timeout s) = Some (App.nextTimerId s)
  /\ App.timers (App.onopen timeout s) !! App.nextTimerId s
     = Some (App.mkTimer App.HEARTBEAT_PERIOD App.CbHeartbeat true)
  /\ scheduled_by s (App.onopen timeout s) = [].
Proof.
  intros Hlt. unfold App.onopen. simpl.
  split; [reflexivity |]. split; [reflexivity |]. split.
  - rewrite lookup_insert_ne by lia. apply lookup_delete_eq.
  - split; [reflexivity |]. split; [apply lookup_insert_eq |].
    unfold scheduled_by, reconnects. simpl.
    rewrite List.filter_app. simpl. rewrite app_nil_r. apply drop_all.
Qed.

(** X12 on the first socket. *)
Lemma onopen_starts_heartbeat_witness :
  App.timers (App.onopen 1 connecting) !! 1%positive = None
  /\ App.heartbeatInterval (App.onopen 1 connecting) = Some 2%positive.
Proof.
  destruct (onopen_starts_heartbeat 1 connecting eq_refl)
    as (_ & _ & Hgone & Hhb & _).
  split; [exact Hgone | exact Hhb].
Defined.

Lemma isIntentionalClose_setupWebSocket apiUrl accepts s :
  accepts (App.wsUrl apiUrl) = true ->
  App.isIntentionalClose (App.setupWebSocket apiUrl accepts s) = live_socket s.
Proof.
  intros Hacc. unfold App.setupWebSocket, live_socket. rewrite Hacc.
  destruct s as [[[u [] m t] |] a [rt |] ic [hb |] tm nx lg dp ag wc ld er im loc calls];
    reflexivity.
Qed.

(** X13.  [setupWebSocket] leaves the intentional-close flag set exactly
    when it replaced a socket that was still OPEN or CONNECTING.  The
    flag then stays set for the new socket: if that socket closes, even
    with an abnormal code, the close handler sets no reconnect timer;
    when no live socket was replaced, an abnormal close of the new
    socket sets one. *)
Theorem replaced_socket_keeps_flag apiUrl accepts (s : App.State)
    (timeout : positive) (ev : App.CloseEvent) :
  accepts (App.wsUrl apiUrl) = true ->
  App.isIntentionalClose (App.setupWebSocket apiUrl accepts s) = live_socket s
  /\ scheduled_by (App.setupWebSocket apiUrl accepts s)
       (App.onclose timeout ev (App.setupWebSocket apiUrl accepts s))
     = if live_socket s then []
       else if abnormal ev
            then [reconnect_timer (App.setupWebSocket apiUrl accepts s)]
            else [].
Proof.
  intros Hacc.
  pose proof (isIntentionalClose_setupWebSocket apiUrl accepts s Hacc) as Hflag.
  split; [exact Hflag |].
  unfold scheduled_by. rewrite reconnects_onclose, drop_length_app, Hflag.
  destruct (live_socket s); reflexivity.
Qed.

(** X13 when a live connection is set up again, and from the start. *)
Lemma replaced_socket_keeps_flag_witness :
  scheduled_by (App.setupWebSocket dev_apiUrl accept_all live)
    (App.onclose 3 (App.mkCloseEvent 1006 EmptyString false)
       (App.setupWebSocket dev_apiUrl accept_all live)) = []
  /\ length (scheduled_by connecting
               (App.onclose 1 (App.mkCloseEvent 1006 EmptyString false) connecting))
     = 1%nat.
Proof.
  split.
  - apply (replaced_socket_keeps_flag dev_apiUrl accept_all live 3
             (App.mkCloseEvent 1006 EmptyString false) eq_refl).
  - destruct (replaced_socket_keeps_flag dev_apiUrl accept_all App.initial 1
                (App.mkCloseEvent 1006 EmptyString false) eq_refl) as [_ H].
    unfold connecting. rewrite H. reflexivity.
Defined.

(** X14.  [setupWebSocket] never leaves the channel idle.  When the
    constructor accepts the URL, the new socket is CONNECTING at the
    WebSocket URL, its connection timeout of 5000 ms is pending, the
    earlier reconnect timer and heartbeat are forgotten and the counter
    is unchanged; when the constructor throws, there is no socket and a
    reconnect timer is pending instead. *)
Theorem setupWebSocket_progress apiUrl accepts (s : App.State) :
  (accepts (App.wsUrl apiUrl) = true ->
   App.socket (App.setupWebSocket apiUrl accepts s)
   = Some (App.mkWebSocket (App.wsUrl apiUrl) App.CONNECTING [] (App.nextTimerId s))
   /\ App.timers (App.setupWebSocket apiUrl accepts s) !! App.nextTimerId s
      = Some (App.mkTimer App.CONNECTION_TIMEOUT App.CbConnectionTimeout false)
   /\ App.reconnectTimeout (App.setupWebSocket apiUrl accepts s) = None
   /\ App.heartbeatInterval (App.setupWebSocket apiUrl accepts s) = None
   /\ App.reconnectAttempts (App.setupWebSocket apiUrl accepts s)
      = App.reconnectAttempts s)
  /\ (accepts (App.wsUrl apiUrl) = false ->
      App.socket (App.setupWebSocket apiUrl accepts s) = None
      /\ App.heartbeatInterval (App.setupWebSocket apiUrl accepts s) = None
      /\ exists id t,
           App.reconnectTimeout (App.setupWebSocket apiUrl accepts s) = Some id
           /\ App.timers (App.setupWebSocket apiUrl accepts s) !! id = Some t
           /\ App.is_reconnect t = true).
Proof.
  unfold App.setupWebSocket. split; intros ->.
  - destruct s as [[[u [] m t] |] a [rt |] ic [hb |] tm nx lg dp ag wc ld er im loc calls];
      simpl; repeat split; apply lookup_insert_eq.
  - match goal with
    | |- context [App.reconnectWithBackoff ?x] => set (s0 := x)
    end.
    destruct (reconnectWithBackoff_pending s0) as [Hid Ht].
    assert (Hs : App.socket (App.reconnectWithBackoff s0) = None
                 /\ App.heartbeatInterval (App.reconnectWithBackoff s0) = None).
    { rewrite heartbeatInterval_reconnectWithBackoff.
      unfold App.reconnectWithBackoff.
      destruct (App.reconnectAttempts s0 <? App.MAX_RECONNECT_ATTEMPTS); simpl;
        subst s0;
        destruct s as [[[u [] m t] |] a [rt |] ic [hb |] tm nx lg dp ag wc ld er im loc calls];
        simpl; split; reflexivity. }
    destruct Hs as [Hsock Hhb]. split; [exact Hsock |]. split; [exact Hhb |].
    exists (App.nextTimerId s0), (reconnect_timer s0).
    split; [exact Hid |]. split; [exact Ht |]. apply is_reconnect_reconnect_timer.
Qed.

(** X14 with a URL the constructor rejects. *)
Lemma setupWebSocket_progress_witness :
  App.socket (App.setupWebSocket "not a url" (fun _ => false) App.initial) = None
  /\ exists id t,
       App.reconnectTimeout (App.setupWebSocket "not a url" (fun _ => false) App.initial)
       = Some id
       /\ App.timers (App.setupWebSocket "not a url" (fun _ => false) App.initial) !! id
          = Some t
       /\ App.is_reconnect t = true.
Proof.
  destruct (setupWebSocket_progress "not a url" (fun _ => false) App.initial)
    as [_ H].
  destruct (H eq_refl) as (Hs & _ & Hpending). split; [exact Hs | exact Hpending].
Defined.

(** X15.  Subscriptions are not queued: while there is no socket, or the
    socket is not OPEN, subscribing and unsubscribing change nothing at
    all. *)
Theorem subscription_needs_open_socket (agentId : string) (s : App.State) :
  match App.socket s with
  | Some sk => App.readyState sk <> App.OPEN
  | None => True
  end ->
  App.subscribeToAgentUpdates agentId s = s
  /\ App.unsubscribeFromAgentUpdates agentId s = s.
Proof.
  unfold App.subscribeToAgentUpdates, App.unsubscribeFromAgentUpdates, App.send_if_open.
  destruct (App.socket s) as [[u [] m t] |]; intros H; try contradiction;
    split; reflexivity.
Qed.

(** X15 while the first socket is still connecting. *)
Lemma subscription_needs_open_socket_witness :
  App.subscribeToAgentUpdates "agent-1" connecting = connecting.
Proof.
  apply (subscription_needs_open_socket "agent-1" connecting). discriminate.
Defined.

(* ================================================================== *)
(** ** Further properties of the agents list                           *)
(* ================================================================== *)

(** X16.  A failed call leaves the list as it was.  When the call on
    [apiService] throws, each of [handleCreateAgent], [handleAgentAction]
    and [handleDeleteAgent] keeps the agents list, the socket (nothing
    is sent) and the route, records its error message and clears the
    loading flag. *)
Theorem failed_call_keeps_agents createAgent agentAction deleteAgent
    (newAgent : Agent) (agentId : string) (action : Action) (s : App.State) :
  (forall e, createAgent (App.config_of newAgent) = Throw e ->
     let s' := App.handleCreateAgent createAgent newAgent s in
     App.agents s' = App.agents s /\ App.socket s' = App.socket s
     /\ App.location s' = App.location s /\ App.isLoading s' = false
     /\ App.error s' = Some "Failed to create agent. Please try again.")
  /\ (forall e, agentAction action agentId = Throw e ->
        let s' := App.handleAgentAction agentAction agentId action s in
        App.agents s' = App.agents s /\ App.socket s' = App.socket s
        /\ App.location s' = App.location s /\ App.isLoading s' = false
        /\ App.error s'
           = Some ("Failed to " ++ Action_value action
                   ++ " agent. Please try again.")%string)
  /\ (forall e, deleteAgent agentId = Throw e ->
        let s' := App.handleDeleteAgent deleteAgent agentId s in
        App.agents s' = App.agents s /\ App.socket s' = App.socket s
        /\ App.location s' = App.location s /\ App.isLoading s' = false
        /\ App.error s' = Some "Failed to delete agent. Please try again.").
Proof.
  split; [| split]; intros e He; cbv zeta;
    unfold App.handleCreateAgent, App.handleAgentAction, App.handleDeleteAgent;
    rewrite He; simpl; repeat split; reflexivity.
Qed.

(** X16 with a backend that answers every call with an error. *)
Lemma failed_call_keeps_agents_witness :
  App.agents (App.handleDeleteAgent (failing_delete server_error) "b" two_agents)
  = [agent_a; agent_b]
  /\ App.error (App.handleDeleteAgent (failing_delete server_error) "b" two_agents)
     = Some "Failed to delete agent. Please try again.".
Proof.
  destruct (failed_call_keeps_agents (failing_create server_error)
              (failing_action server_error) (failing_delete server_error)
              agent_c "b" stop two_agents) as (_ & _ & Hdel).
  destruct (Hdel server_error eq_refl) as (Hagents & _ & _ & _ & Herr).
  split; [exact Hagents | exact Herr].
Defined.

Lemma ids_removeAgent agentId l :
  ids (App.removeAgent agentId l) = List.filter (fun i => negb (String.eqb i agentId)) (ids l).
Proof.
  unfold ids, App.removeAgent. induction l as [| a l IH]; simpl; [reflexivity |].
  destruct (String.eqb (id a) agentId); simpl; rewrite IH; reflexivity.
Qed.

Lemma In_removeAgent a agentId l :
  In a (App.removeAgent agentId l) <-> In a l /\ id a <> agentId.
Proof.
  unfold App.removeAgent. rewrite filter_In, negb_true_iff, String.eqb_neq. tauto.
Qed.

(** X17.  After a successful delete the list holds no agent with the
    deleted id and holds every other agent it held, in the same order;
    when the socket is OPEN the unsubscribe message for the id is the one
    message sent, and the loading flag is cleared. *)
Theorem delete_removes_agent deleteAgent (agentId : string) (s : App.State) :
  deleteAgent agentId = Ok tt ->
  let s' := App.handleDeleteAgent deleteAgent agentId s in
  ~ In agentId (ids (App.agents s'))
  /\ (forall a, In a (App.agents s') <-> In a (App.agents s) /\ id a <> agentId)
  /\ ids (App.agents s')
     = List.filter (fun i => negb (String.eqb i agentId)) (ids (App.agents s))
  /\ App.isLoading s' = false
  /\ (forall sk, App.socket s = Some sk -> App.readyState sk = App.OPEN ->
        App.sent <$> App.socket s'
        = Some (App.sent sk ++ [App.unsubscribe_message agentId])).
Proof.
  intros Hd. cbv zeta.
  assert (Hag : App.agents (App.handleDeleteAgent deleteAgent agentId s)
                = App.removeAgent agentId (App.agents s)).
  { unfold App.handleDeleteAgent, App.unsubscribeFromAgentUpdates. rewrite Hd. simpl.
    rewrite agents_send_if_open. reflexivity. }
  rewrite Hag. split; [| split; [| split; [| split]]].
  - rewrite ids_removeAgent, filter_In, negb_true_iff, String.eqb_neq. tauto.
  - intros a. apply In_removeAgent.
  - apply ids_removeAgent.
  - unfold App.handleDeleteAgent. rewrite Hd. reflexivity.
  - intros sk Hs Ho. unfold App.handleDeleteAgent, App.unsubscribeFromAgentUpdates.
    rewrite Hd. simpl.
    apply (send_if_open_sent (App.unsubscribe_message agentId)
             (App.setAgents (App.removeAgent agentId)
                (App.call_api (App.CallDeleteAgent agentId) (App.setIsLoading true s)))
             sk); assumption.
Qed.

(** X17 on a list of two agents. *)
Lemma delete_removes_agent_witness :
  App.agents (App.handleDeleteAgent (fun _ => Ok tt) "a" two_agents) = [agent_b]
  /\ ~ In "a" (ids (App.agents (App.handleDeleteAgent (fun _ => Ok tt) "a" two_agents))).
Proof.
  split; [reflexivity |].
  apply (delete_removes_agent (fun _ => Ok tt) "a" two_agents eq_refl).
Defined.

Lemma find_map_same_key {A} (p : A -> bool) (f : A -> A) (l : list A) :
  (forall x, p (f x) = p x) ->
  find p (map f l) = option_map f (find p l).
Proof.
  intros Hp. induction l as [| x l IH]; simpl; [reflexivity |].
  rewrite Hp. destruct (p x); [reflexivity | exact IH].
Qed.

Lemma find_upsert a l :
  find (fun agent => String.eqb (id agent) (id a)) (App.upsert a l) = Some a.
Proof.
  unfold App.upsert.
  destruct (existsb _ l) eqn:He; [| simpl; rewrite String.eqb_refl; reflexivity].
  induction l as [| x l IH]; [discriminate |]. simpl in *.
  destruct (String.eqb (id x) (id a)) eqn:Hx.
  - rewrite String.eqb_refl. reflexivity.
  - rewrite Hx. apply IH. exact He.
Qed.

Lemma find_removeAgent i l :
  find (fun agent => String.eqb (id agent) i) (App.removeAgent i l) = None.
Proof.
  unfold App.removeAgent. induction l as [| x l IH]; simpl; [reflexivity |].
  destruct (String.eqb (id x) i) eqn:Hx; simpl; [exact IH |].
  rewrite Hx. exact IH.
Qed.

(** X18.  Looking an agent up by id, as the details route does, after a
    write to the list: after an upsert the lookup of the agent's id
    gives that agent; after a removal the lookup of the removed id gives
    nothing; after a status update the lookup gives the agent found
    before, with the status and step of the message when the message is
    for it. *)
Theorem selectedAgent_after_writes (i : string) (a : Agent)
    (data : App.ServerEvent) (l : list Agent) :
  i <> EmptyString ->
  (id a = i -> App.selectedAgent (Some i) (App.upsert a l) = Some a)
  /\ App.selectedAgent (Some i) (App.removeAgent i l) = None
  /\ App.selectedAgent (Some i) (App.applyStatusUpdate data l)
     = option_map
         (fun agent =>
            if String.eqb i (App.agentId data)
            then App.with_status agent (App.data_status data)
                                 (App.data_currentStep data)
            else agent)
         (App.selectedAgent (Some i) l).
Proof.
  intros Hi. apply String.eqb_neq in Hi. unfold App.selectedAgent. rewrite Hi.
  split; [| split].
  - intros <-. apply find_upsert.
  - apply find_removeAgent.
  - unfold App.applyStatusUpdate. rewrite find_map_same_key.
    + destruct (find _ l) as [x |] eqn:Hx; [| reflexivity]. simpl.
      apply find_some in Hx as [_ Hx]. apply String.eqb_eq in Hx. rewrite Hx.
      reflexivity.
    + intros x. destruct (String.eqb (id x) (App.agentId data)); reflexivity.
Qed.

(** X18 on a list of two agents. *)
Lemma selectedAgent_after_writes_witness :
  App.selectedAgent (Some "b") (App.upsert agent_b' [agent_a; agent_b]) = Some agent_b'
  /\ App.selectedAgent (Some "b") (App.removeAgent "b" [agent_a; agent_b]) = None.
Proof.
  destruct (selectedAgent_after_writes "b" agent_b' status_update_b [agent_a; agent_b]
              ltac:(discriminate)) as (Hup & Hrm & _).
  split; [apply Hup; reflexivity | exact Hrm].
Defined.

Lemma replaceAgent_no_match agentId u l :
  ~ In agentId (ids l) -> App.replaceAgent agentId u l = l.
Proof.
  intros H. unfold App.replaceAgent. rewrite <- (map_id l) at 2.
  apply map_ext_in. intros x Hx.
  destruct (String.eqb (id x) agentId) eqn:He; [| reflexivity].
  apply String.eqb_eq in He. exfalso. apply H. rewrite <- He. apply in_map, Hx.
Qed.

(** X19.  The updater of [handleAgentAction] only replaces: it keeps the
    length of the list, leaves the list as it is when no agent has the
    id (it never inserts), and keeps the ids when the agent returned has
    the id asked for, in which case a lookup of that id gives the agent
    returned. *)
Theorem replaceAgent_only_replaces (agentId : string) (u : Agent) (l : list Agent) :
  length (App.replaceAgent agentId u l) = length l
  /\ (~ In agentId (ids l) -> App.replaceAgent agentId u l = l)
  /\ (id u = agentId -> ids (App.replaceAgent agentId u l) = ids l)
  /\ (id u = agentId -> agentId <> EmptyString -> In agentId (ids l) ->
      App.selectedAgent (Some agentId) (App.replaceAgent agentId u l) = Some u).
Proof.
  split; [apply length_map |]. split; [apply replaceAgent_no_match |]. split.
  - intros <-. apply ids_replace.
  - intros <- Hne Hin. apply String.eqb_neq in Hne.
    unfold App.selectedAgent. rewrite Hne.
    apply existsb_id in Hin.
    pose proof (find_upsert u l) as Hf. unfold App.upsert in Hf.
    rewrite Hin in Hf. exact Hf.
Qed.

(** X19 for an id that is not in the list, and for one that is. *)
Lemma replaceAgent_only_replaces_witness :
  App.replaceAgent "c" agent_c [agent_a; agent_b] = [agent_a; agent_b]
  /\ App.selectedAgent (Some "b") (App.replaceAgent "b" agent_b' [agent_a; agent_b])
     = Some agent_b'.
Proof.
  split.
  - apply (replaceAgent_only_replaces "c" agent_c [agent_a; agent_b]).
    simpl. intuition discriminate.
  - apply (replaceAgent_only_replaces "b" agent_b' [agent_a; agent_b]);
      [reflexivity | discriminate | simpl; auto].
Defined.

(** X20.  Upserting the same agent twice is the same as upserting it
    once, so a response that is applied again changes nothing. *)
Theorem upsert_idempotent (a : Agent) (l : list Agent) :
  App.upsert a (App.upsert a l) = App.upsert a l.
Proof.
  assert (Hex : existsb (fun agent => String.eqb (id agent) (id a)) (App.upsert a l)
                = true).
  { apply existsb_id. change (In (id a) (map id (App.upsert a l))).
    apply in_map, In_upsert. left. reflexivity. }
  unfold App.upsert at 1. rewrite Hex. unfold App.upsert.
  destruct (existsb _ l) eqn:He.
  - rewrite map_map. apply map_ext. intros x.
    destruct (String.eqb (id x) (id a)) eqn:Hx;
      [rewrite String.eqb_refl | rewrite Hx]; reflexivity.
  - simpl. rewrite String.eqb_refl. f_equal.
    change (App.replaceAgent (id a) a l = l). apply replaceAgent_no_match.
    intros Hin. apply existsb_id in Hin. congruence.
Qed.

(** **** The WebSocket URL *)

Lemma string_length_app (x y : string) :
  String.length (x ++ y)%string = (String.length x + String.length y)%nat.
Proof. induction x as [| c x IH]; simpl; [reflexivity | rewrite IH; reflexivity]. Qed.

Lemma substring_0_all (s : string) : substring 0 (String.length s) s = s.
Proof. induction s as [| c s IH]; simpl; [reflexivity | rewrite IH; reflexivity]. Qed.

Lemma substring_0_app (x y : string) :
  substring 0 (String.length x) (x ++ y)%string = x.
Proof.
  induction x as [| c x IH]; simpl; [destruct y; reflexivity | rewrite IH; reflexivity].
Qed.

Lemma substring_skip_app (x y : string) (n : nat) :
  substring (String.length x) n (x ++ y)%string = substring 0 n y.
Proof. induction x as [| c x IH]; simpl; [reflexivity | exact IH]. Qed.

Lemma strip_suffix_app (x suffix : string) :
  App.strip_suffix suffix (x ++ suffix)%string = x.
Proof.
  unfold App.strip_suffix. rewrite string_length_app.
  replace (String.length suffix <=? String.length x + String.length suffix)%nat
    with true by (symmetry; apply Nat.leb_le; lia).
  replace (String.length x + String.length suffix - String.length suffix)%nat
    with (String.length x) by lia.
  rewrite substring_skip_app, substring_0_all, String.eqb_refl. simpl.
  apply substring_0_app.
Qed.

(** X21.  For an API URL of the form http...<rest>/api/v1 the WebSocket
    URL is ws...<rest>/api/ws: the version segment at the end is dropped
    and the scheme prefix http becomes ws (so https becomes wss). *)
Theorem wsUrl_of_versioned_api (rest : string) :
  App.wsUrl ("http" ++ rest ++ "/api/v1") = ("ws" ++ rest ++ "/api/ws")%string.
Proof.
  unfold App.wsUrl.
  change ("http" ++ rest ++ "/api/v1")%string
    with (("http" ++ rest) ++ "/api/v1")%string.
  rewrite strip_suffix_app. unfold App.replace_prefix.
  assert (Hp : String.prefix "http" ("http" ++ rest)%string = true)
    by (destruct rest; vm_compute; reflexivity).
  rewrite Hp.
  simpl. rewrite Nat.sub_0_r, substring_0_all. reflexivity.
Qed.

(* ================================================================== *)
(** ** Properties of the views                                         *)
(* ================================================================== *)

Lemma sublist_filter_stdlib {A} (f : A -> bool) (l : list A) :
  sublist (List.filter f l) l.
Proof.
  induction l as [| x l IH]; simpl; [constructor |].
  destruct (f x); [apply sublist_skip | apply sublist_cons]; exact IH.
Qed.

Lemma one_category (st : AgentStatus) :
  length (List.filter (fun c => AgentList.matchesStatus c st) categories) = 1%nat.
Proof. destruct st; reflexivity. Qed.

(** X22.  The four status categories of the list view partition the
    agents: every status falls in exactly one of active, idle, completed
    and failed, so for any search term the four filtered lists have as
    many agents together as the list filtered with "all"; a filter name
    that is none of these shows everything, like "all". *)
Theorem status_categories_partition (searchTerm other : string) (agents : list Agent) :
  (forall st, length (List.filter (fun c => AgentList.matchesStatus c st) categories)
              = 1%nat)
  /\ (length (AgentList.filteredAgents "active" searchTerm agents)
      + length (AgentList.filteredAgents "idle" searchTerm agents)
      + length (AgentList.filteredAgents "completed" searchTerm agents)
      + length (AgentList.filteredAgents "failed" searchTerm agents)
      = length (AgentList.filteredAgents "all" searchTerm agents))%nat
  /\ (~ In other ("all" :: categories) ->
      AgentList.filteredAgents other searchTerm agents
      = AgentList.filteredAgents "all" searchTerm agents).
Proof.
  split; [exact one_category |]. split.
  - unfold AgentList.filteredAgents.
    induction agents as [| a agents IH]; [reflexivity |].
    cbn [List.filter].
    change (AgentList.matchesStatus "all" (status a)) with true. cbv iota.
    cbn [List.filter].
    pose proof (one_category (status a)) as H1. unfold categories in H1.
    simpl in H1.
    destruct (AgentList.matchesStatus "active" (status a)),
      (AgentList.matchesStatus "idle" (status a)),
      (AgentList.matchesStatus "completed" (status a)),
      (AgentList.matchesStatus "failed" (status a));
      simpl in H1; try discriminate H1;
      cbn [List.filter]; destruct (AgentList.matchesSearch searchTerm a);
      simpl; lia.
  - intros Hother. unfold AgentList.filteredAgents. f_equal.
    apply filter_ext. intros a. unfold AgentList.matchesStatus.
    simpl in Hother.
    destruct (String.eqb other "all") eqn:H0; [reflexivity |].
    destruct (String.eqb other "active") eqn:H1;
      [apply String.eqb_eq in H1; subst; tauto |].
    destruct (String.eqb other "idle") eqn:H2;
      [apply String.eqb_eq in H2; subst; tauto |].
    destruct (String.eqb other "completed") eqn:H3;
      [apply String.eqb_eq in H3; subst; tauto |].
    destruct (String.eqb other "failed") eqn:H4;
      [apply String.eqb_eq in H4; subst; tauto |].
    reflexivity.
Qed.

(** X22 on two agents, one completed and one pending. *)
Lemma status_categories_partition_witness :
  AgentList.filteredAgents "done" EmptyString [agent_a; agent_b] = [agent_a; agent_b]
  /\ AgentList.filteredAgents "completed" EmptyString [agent_a; agent_b] = [agent_a].
Proof.
  split; [| reflexivity].
  destruct (status_categories_partition EmptyString "done" [agent_a; agent_b])
    as (_ & _ & H).
  rewrite H; [reflexivity |]. simpl. intuition discriminate.
Defined.

(** X23.  An agent that was removed from the list is in no view of the
    list view: whatever the status filter and the search term, the
    filtered list of the remaining agents holds no agent with the removed
    id, and every agent it shows is one of the list, in the order of the
    list. *)
Theorem removed_agent_not_in_views (filterStatus searchTerm agentId : string)
    (agents : list Agent) :
  ~ In agentId
      (ids (AgentList.filteredAgents filterStatus searchTerm
              (App.removeAgent agentId agents)))
  /\ sublist (AgentList.filteredAgents filterStatus searchTerm agents) agents.
Proof.
  split.
  - unfold ids. rewrite in_map_iff. intros (a & Hid & Hin).
    unfold AgentList.filteredAgents in Hin.
    apply filter_In in Hin as [Hin _]. apply filter_In in Hin as [Hin _].
    apply In_removeAgent in Hin as [_ Hne]. contradiction.
  - unfold AgentList.filteredAgents.
    etransitivity; [apply sublist_filter_stdlib | apply sublist_filter_stdlib].
Qed.

Lemma starts_with_iff (t s : string) :
  AgentList.starts_with t s = true <-> exists post, s = (t ++ post)%string.
Proof.
  revert s. induction t as [| a t IH]; intros s; simpl.
  - split; [intros _; exists s; reflexivity | reflexivity].
  - destruct s as [| b s]; [split; [discriminate | intros [post H]; discriminate H] |].
    rewrite andb_true_iff, Ascii.eqb_eq, IH. split.
    + intros [-> [post ->]]. exists post. reflexivity.
    + intros [post [= -> ->]]. split; [reflexivity | exists post; reflexivity].
Qed.

Lemma includes_iff (s t : string) :
  AgentList.includes s t = true
  <-> exists pre post, s = (pre ++ t ++ post)%string.
Proof.
  induction s as [| c s IH].
  - simpl. rewrite orb_false_r, starts_with_iff. split.
    + intros [post H]. exists EmptyString, post. exact H.
    + intros (pre & post & H). destruct pre; [exists post; exact H | discriminate H].
  - cbn [AgentList.includes]. rewrite orb_true_iff, starts_with_iff, IH. split.
    + intros [[post H] | (pre & post & H)].
      * exists EmptyString, post. exact H.
      * exists (String c pre), post. simpl. rewrite H. reflexivity.
    + intros (pre & post & H). destruct pre as [| c' pre].
      * left. exists post. exact H.
      * right. injection H as _ H. exists pre, post. exact H.
Qed.

(** X24.  The search of the list view is a substring search that ignores
    case: with the filter "all", an agent of the list is shown exactly
    when its lower-cased instruction contains the lower-cased term
    somewhere; an empty term shows every agent. *)
Theorem search_is_substring_match (searchTerm : string) (agents : list Agent) :
  (forall a,
     In a (AgentList.filteredAgents "all" searchTerm agents)
     <-> In a agents
         /\ exists pre post,
              AgentList.toLowerCase (instruction a)
              = (pre ++ AgentList.toLowerCase searchTerm ++ post)%string)
  /\ AgentList.filteredAgents "all" EmptyString agents = agents.
Proof.
  split.
  - intros a. unfold AgentList.filteredAgents.
    rewrite filter_In, filter_In. unfold AgentList.matchesSearch.
    rewrite includes_iff. change (AgentList.matchesStatus "all" (status a)) with true.
    tauto.
  - unfold AgentList.filteredAgents.
    induction agents as [| a agents IH]; [reflexivity |].
    cbn [List.filter]. change (AgentList.matchesStatus "all" (status a)) with true.
    cbv iota. cbn [List.filter].
    assert (Hm : AgentList.matchesSearch EmptyString a = true).
    { unfold AgentList.matchesSearch. apply includes_iff.
      exists EmptyString. eexists. reflexivity. }
    rewrite Hm, IH. reflexivity.
Qed.

Lemma handleAgentLog_cases agent_id data prevLogs :
  Details.handleAgentLog agent_id data prevLogs = prevLogs
  \/ (Details.ev_agentId data = agent_id
      /\ ~ In (Details.log_id (Details.ev_log data)) (log_ids prevLogs)
      /\ Details.handleAgentLog agent_id data prevLogs
         = Details.ev_log data :: prevLogs).
Proof.
  unfold Details.handleAgentLog.
  destruct (String.eqb (Details.ev_agentId data) agent_id) eqn:Ha; simpl; [| auto].
  destruct (existsb _ prevLogs) eqn:He; [auto |].
  right. split; [apply String.eqb_eq, Ha |]. split; [| reflexivity].
  unfold log_ids. rewrite in_map_iff. intros (l & Hid & Hin).
  assert (Hex : existsb (fun log => String.eqb (Details.log_id log)
                                      (Details.log_id (Details.ev_log data)))
                  prevLogs = true).
  { apply existsb_exists. exists l. split; [exact Hin |]. apply String.eqb_eq, Hid. }
  congruence.
Qed.

(** X25.  Log entries pushed by the server are merged by id and never
    replaced.  After any sequence of log events, the list is the earlier
    list with new entries put in front of it; a list with distinct ids
    still has distinct ids; every new entry comes from an event for the
    agent shown; and an entry delivered a second time right after the
    first changes nothing. *)
Theorem log_events_merge_by_id (agent_id : string) (events : list Details.LogEvent)
    (logs : list Details.AgentLogs) (data : Details.LogEvent) :
  (exists added,
     afterLogEvents agent_id events logs = added ++ logs
     /\ forall l, In l added ->
          exists e, In e events /\ Details.ev_log e = l
                    /\ Details.ev_agentId e = agent_id)
  /\ (List.NoDup (log_ids logs) ->
      List.NoDup (log_ids (afterLogEvents agent_id events logs)))
  /\ Details.handleAgentLog agent_id data (Details.handleAgentLog agent_id data logs)
     = Details.handleAgentLog agent_id data logs.
Proof.
  split; [| split].
  - revert logs. induction events as [| e events IH]; intros logs.
    + exists []. split; [reflexivity | intros l []].
    + change (afterLogEvents agent_id (e :: events) logs)
        with (afterLogEvents agent_id events (Details.handleAgentLog agent_id e logs)).
      destruct (handleAgentLog_cases agent_id e logs) as [Hsame | (Ha & _ & Hnew)].
      * rewrite Hsame. destruct (IH logs) as (added & Heq & Hfrom).
        exists added. split; [exact Heq |].
        intros l Hl. destruct (Hfrom l Hl) as (e' & He' & Hlog & Hag).
        exists e'. simpl. auto.
      * rewrite Hnew. destruct (IH (Details.ev_log e :: logs)) as (added & Heq & Hfrom).
        exists (added ++ [Details.ev_log e]).
        rewrite <- app_assoc. split; [exact Heq |].
        intros l Hl. apply in_app_or in Hl as [Hl | [<- | []]].
        -- destruct (Hfrom l Hl) as (e' & He' & Hlog & Hag). exists e'. simpl. auto.
        -- exists e. simpl. auto.
  - revert logs. induction events as [| e events IH]; intros logs Hnd; [exact Hnd |].
    simpl. apply IH.
    destruct (handleAgentLog_cases agent_id e logs) as [-> | (_ & Hfresh & ->)];
      [exact Hnd |].
    simpl. constructor; assumption.
  - destruct (handleAgentLog_cases agent_id data logs) as [Hsame | (Ha & _ & Hnew)].
    + rewrite !Hsame. reflexivity.
    + rewrite Hnew. unfold Details.handleAgentLog.
      apply String.eqb_eq in Ha. rewrite Ha. simpl.
      rewrite String.eqb_refl. reflexivity.
Qed.

(** X25 on a retransmitted entry. *)
Lemma log_events_merge_by_id_witness :
  afterLogEvents "a"
    [ Details.mkLogEvent "a" log_1; Details.mkLogEvent "b" log_2;
      Details.mkLogEvent "a" log_1_again; Details.mkLogEvent "a" log_2 ] []
  = [ log_2; log_1 ]
  /\ List.NoDup
       (log_ids
          (afterLogEvents "a"
             [ Details.mkLogEvent "a" log_1; Details.mkLogEvent "b" log_2;
               Details.mkLogEvent "a" log_1_again; Details.mkLogEvent "a" log_2 ] [])).
Proof.
  split; [reflexivity |].
  apply (log_events_merge_by_id "a"
           [ Details.mkLogEvent "a" log_1; Details.mkLogEvent "b" log_2;
             Details.mkLogEvent "a" log_1_again; Details.mkLogEvent "a" log_2 ] []
           (Details.mkLogEvent "a" log_1)).
  constructor.
Defined.

(** X26.  [fetchResults] always clears its loading flag and never changes
    both the results and the error.  Without a stored API URL it makes no
    request and reports "API URL not found"; when [fetch] rejects it
    keeps the results and reports the message of the rejection; a
    response that is not OK and not a 404 keeps the results and reports
    "Failed to fetch results". *)
Theorem fetchResults_failures fetch (stored_apiUrl : option string)
    (agent_id : string) (st : Details.State) :
  Details.isLoadingResults (Details.fetchResults fetch stored_apiUrl agent_id st)
  = false
  /\ (Details.agentResults (Details.fetchResults fetch stored_apiUrl agent_id st)
      = Details.agentResults st
      \/ Details.error (Details.fetchResults fetch stored_apiUrl agent_id st)
         = Details.error st)
  /\ (stored_apiUrl = None \/ stored_apiUrl = Some EmptyString ->
      Details.fetchResults fetch stored_apiUrl agent_id st
      = Details.mkState (Details.agentResults st) (JStr "API URL not found") false)
  /\ (forall apiUrl,
        stored_apiUrl = Some apiUrl -> apiUrl <> EmptyString ->
        (forall e,
           fetch (Details.results_request apiUrl agent_id) = Api.Rejected e ->
           Details.fetchResults fetch stored_apiUrl agent_id st
           = Details.mkState (Details.agentResults st) (Details.message_of e) false)
        /\ (forall r,
              fetch (Details.results_request apiUrl agent_id) = Api.Responded r ->
              Api.ok r = false -> Api.status r <> 404 ->
              Details.fetchResults fetch stored_apiUrl agent_id st
              = Details.mkState (Details.agentResults st)
                                (JStr "Failed to fetch results") false)).
Proof.
  split; [reflexivity |]. split; [| split].
  - unfold Details.fetchResults.
    match goal with
    | |- context [match ?b with Ok _ => _ | Throw _ => _ end] => destruct b
    end; simpl; auto.
  - intros [-> | ->]; reflexivity.
  - intros apiUrl -> Hne. apply String.eqb_neq in Hne. split.
    + intros e He. unfold Details.fetchResults. rewrite Hne, He. reflexivity.
    + intros r Hr Hok H404. apply Z.eqb_neq in H404.
      unfold Details.fetchResults. rewrite Hne, Hr, Hok, H404. reflexivity.
Qed.

(** X26 with a server error and with the network down. *)
Lemma fetchResults_failures_witness :
  Details.fetchResults (fun _ => Api.Responded (response_http 500)) (Some dev_apiUrl)
    "agent-1" (Details.mkState (JStr "earlier results") JNull false)
  = Details.mkState (JStr "earlier results") (JStr "Failed to fetch results") false
  /\ Details.fetchResults (offline (TypeError "Failed to fetch")) None "agent-1"
       (Details.mkState (JStr "earlier results") JNull false)
     = Details.mkState (JStr "earlier results") (JStr "API URL not found") false.
Proof.
  split.
  - destruct (fetchResults_failures (fun _ => Api.Responded (response_http 500))
                (Some dev_apiUrl) "agent-1"
                (Details.mkState (JStr "earlier results") JNull false))
      as (_ & _ & _ & H).
    destruct (H dev_apiUrl eq_refl ltac:(discriminate)) as [_ Hr].
    apply (Hr (response_http 500)); [reflexivity | reflexivity | discriminate].
  - apply (fetchResults_failures (offline (TypeError "Failed to fetch")) None "agent-1"
             (Details.mkState (JStr "earlier results") JNull false)).
    left. reflexivity.
Defined.

(** *** The instruction check of the creation form *)

Lemma rev_app_app (s t u : string) :
  (String.rev_app s t ++ u = String.rev_app s (t ++ u))%string.
Proof.
  revert t. induction s as [| a s IH]; intros t; simpl; [reflexivity |].
  apply IH.
Qed.

Lemma rev_app_rev (s t : string) :
  String.rev_app s t = (String.rev s ++ t)%string.
Proof. unfold String.rev. rewrite rev_app_app. reflexivity. Qed.

Lemma rev_app_append (a b t : string) :
  String.rev_app (a ++ b)%string t = String.rev_app b (String.rev_app a t).
Proof.
  revert t. induction a as [| c a IH]; intros t; simpl; [reflexivity |].
  apply IH.
Qed.

Lemma rev_append (a b : string) :
  String.rev (a ++ b)%string = (String.rev b ++ String.rev a)%string.
Proof.
  unfold String.rev at 1. rewrite rev_app_append, rev_app_rev. reflexivity.
Qed.

Lemma rev_app_rev_app (s t u : string) :
  String.rev_app (String.rev_app s t) u = String.rev_app t (s ++ u)%string.
Proof.
  revert t. induction s as [| a s IH]; intros t; simpl; [reflexivity |].
  rewrite IH. reflexivity.
Qed.

Lemma string_app_nil_r (s : string) : (s ++ EmptyString)%string = s.
Proof.
  induction s as [| a s IH]; [reflexivity |].
  change (String a (s ++ EmptyString)%string = String a s). rewrite IH. reflexivity.
Qed.

Lemma rev_involutive (s : string) : String.rev (String.rev s) = s.
Proof.
  unfold String.rev. rewrite rev_app_rev_app. simpl. apply string_app_nil_r.
Qed.

Lemma all_white_rev_app (s t : string) :
  all_white (String.rev_app s t) = all_white s && all_white t.
Proof.
  revert t. induction s as [| a s IH]; intros t; simpl; [reflexivity |].
  rewrite IH. simpl.
  destruct (Form.is_white_space a), (all_white s), (all_white t); reflexivity.
Qed.

Lemma trimStart_white (p s : string) :
  all_white p = true -> Form.trimStart (p ++ s)%string = Form.trimStart s.
Proof.
  induction p as [| a p IH]; [reflexivity |].
  intros H. apply andb_prop in H as [Ha Hp].
  change (Form.trimStart (String a (p ++ s)%string) = Form.trimStart s).
  simpl. rewrite Ha. auto.
Qed.

Lemma trimStart_black (s : string) :
  first_black s = true -> Form.trimStart s = s.
Proof.
  destruct s as [| a s]; simpl; [reflexivity |].
  intros H. apply negb_true_iff in H. rewrite H. reflexivity.
Qed.

Lemma trimStart_all_white (s : string) :
  all_white s = true -> Form.trimStart s = EmptyString.
Proof.
  intros H. rewrite <- (string_app_nil_r s). rewrite trimStart_white by exact H.
  reflexivity.
Qed.

Lemma trim_padding (p c q : string) :
  all_white p = true -> all_white q = true -> unpadded c = true ->
  Form.trim (p ++ c ++ q)%string = c.
Proof.
  intros Hp Hq Hc. apply andb_prop in Hc as [Hfirst Hlast].
  unfold Form.trim. rewrite trimStart_white by exact Hp.
  destruct c as [| a c].
  - change (EmptyString ++ q)%string with q.
    rewrite trimStart_all_white by exact Hq. reflexivity.
  - rewrite trimStart_black by exact Hfirst.
    unfold Form.trimEnd. rewrite rev_append.
    rewrite trimStart_white.
    + rewrite trimStart_black by exact Hlast. apply rev_involutive.
    + unfold String.rev. rewrite all_white_rev_app, Hq. reflexivity.
Qed.

(** X27.  [trim] removes exactly the white space around a text, so the
    form counts the ten characters of its check on the instruction
    without its padding: an instruction made of a text [c] that neither
    starts nor ends with white space, between paddings [p] and [q], is
    submitted exactly when [c] has ten code units or more, and is then
    handed on with its padding. *)
Theorem submit_ignores_padding {W : Type} (onCreateAgent : Agent -> W -> W)
    (uuid now p c q : string) (f : Form.State) (w : W) :
  all_white p = true -> all_white q = true -> unpadded c = true ->
  Form.trim (p ++ c ++ q)%string = c
  /\ Form.handleSubmit onCreateAgent uuid now
       (with_instruction (p ++ c ++ q)%string f) w
     = (if (String.length c <? 10)%nat
        then (with_instruction (p ++ c ++ q)%string f, w)
        else (Form.resetForm f,
              onCreateAgent
                (Form.newAgent uuid now (with_instruction (p ++ c ++ q)%string f)) w))
  /\ Types.instruction
       (Form.newAgent uuid now (with_instruction (p ++ c ++ q)%string f))
     = (p ++ c ++ q)%string.
Proof.
  intros Hp Hq Hc. pose proof (trim_padding p c q Hp Hq Hc) as Htrim.
  split; [exact Htrim |]. split; [| reflexivity].
  unfold Form.handleSubmit.
  change (Form.instruction (with_instruction (p ++ c ++ q)%string f))
    with (p ++ c ++ q)%string.
  rewrite Htrim.
  destruct (Nat.ltb_spec (String.length c) 10) as [Hlt | Hge].
  - replace (Z.of_nat (String.length c) <? 10) with true
      by (symmetry; apply Z.ltb_lt; lia).
    reflexivity.
  - replace (Z.of_nat (String.length c) <? 10) with false
      by (symmetry; apply Z.ltb_ge; lia).
    reflexivity.
Qed.

(** X27 on a padded instruction of nine characters, which is refused. *)
Lemma submit_ignores_padding_witness :
  Form.handleSubmit (fun a l => a :: l) "uuid-1" "2024-05-01T10:00:00.000Z"
    (with_instruction "    Open site " Form.initial) []
  = (with_instruction "    Open site " Form.initial, []).
Proof.
  apply (submit_ignores_padding (fun a l => a :: l) "uuid-1"
           "2024-05-01T10:00:00.000Z" "    " "Open site" " " Form.initial []);
    reflexivity.
Defined.

(** X28.  A submit that follows a submit, with no edit of the form in
    between, changes nothing: either the first one was refused and the
    second is refused too, or the first one emptied the instruction, so
    [onCreateAgent] is not called a second time. *)
Theorem second_submit_creates_nothing {W : Type} (onCreateAgent : Agent -> W -> W)
    (uuid now uuid' now' : string) (f : Form.State) (w : W) :
  Form.handleSubmit onCreateAgent uuid' now'
    (fst (Form.handleSubmit onCreateAgent uuid now f w))
    (snd (Form.handleSubmit onCreateAgent uuid now f w))
  = Form.handleSubmit onCreateAgent uuid now f w.
Proof.
  unfold Form.handleSubmit at 2 3 4.
  destruct (Z.of_nat (String.length (Form.trim (Form.instruction f))) <? 10) eqn:Hshort.
  - simpl. unfold Form.handleSubmit. rewrite Hshort. reflexivity.
  - reflexivity.
Qed.

(** *** The counters of the dashboard *)

Lemma length_filter_cons {A : Type} (f : A -> bool) (a : A) (l : list A) :
  length (List.filter f (a :: l))
  = if f a then S (length (List.filter f l)) else length (List.filter f l).
Proof. simpl. destruct (f a); reflexivity. Qed.

Lemma count_cons (st : AgentStatus) (a : Agent) (l : list Agent) :
  Dashboard.count st (a :: l)
  = if Dashboard.has_status st a then S (Dashboard.count st l)
    else Dashboard.count st l.
Proof.
  unfold Dashboard.count. simpl. destruct (Dashboard.has_status st a); reflexivity.
Qed.

Lemma count_statuses (agents : list Agent) :
  (Dashboard.count COMPLETED agents + Dashboard.count FAILED agents
   + Dashboard.count RUNNING agents + Dashboard.count PENDING agents
   + Dashboard.count PAUSED agents + Dashboard.count STOPPED agents
   + Dashboard.count IDLE agents = length agents)%nat.
Proof.
  induction agents as [| a l IH]; [reflexivity |].
  rewrite !count_cons. unfold Dashboard.has_status.
  destruct (Types.status a); cbn -[Dashboard.count]; lia.
Qed.

Lemma includes_empty (s : string) : AgentList.includes s EmptyString = true.
Proof. destruct s; reflexivity. Qed.

(** X29.  The seven counters of the dashboard add up to the number of
    agents, so every agent is counted exactly once; the panel of running
    agents holds as many agents as the running, pending and paused
    counters together, and it is the list that the agent list shows for
    the category "active" with an empty search. *)
Theorem dashboard_counts_partition (agents : list Agent) :
  (Dashboard.completedCount agents + Dashboard.failedCount agents
   + Dashboard.runningCount agents + Dashboard.pendingCount agents
   + Dashboard.pausedCount agents + Dashboard.stoppedCount agents
   + Dashboard.idleCount agents = length agents)%nat
  /\ (length (Dashboard.runningAgents agents)
      = Dashboard.runningCount agents + Dashboard.pendingCount agents
        + Dashboard.pausedCount agents)%nat
  /\ Dashboard.runningAgents agents
     = AgentList.filteredAgents "active" EmptyString agents.
Proof.
  split; [apply count_statuses |]. split.
  - unfold Dashboard.runningCount, Dashboard.pendingCount, Dashboard.pausedCount.
    induction agents as [| a l IH]; [reflexivity |].
    rewrite !count_cons. unfold Dashboard.runningAgents in *.
    rewrite length_filter_cons, IH. cbv beta. unfold Dashboard.has_status.
    destruct (Types.status a); cbn -[Dashboard.count]; lia.
  - unfold Dashboard.runningAgents, AgentList.filteredAgents.
    induction agents as [| a l IH]; [reflexivity |].
    cbn [List.filter]. rewrite IH.
    unfold Dashboard.has_status, AgentList.matchesSearch.
    destruct (Types.status a); cbn -[AgentList.includes AgentList.toLowerCase];
      try rewrite includes_empty; reflexivity.
Qed.

(** *** The history view *)

Lemma insert_Permutation {A : Type} (cmp : A -> A -> Z) (x : A) (l : list A) :
  Permutation (History.insert cmp x l) (x :: l).
Proof.
  induction l as [| y l IH]; simpl; [reflexivity |].
  destruct (cmp x y <=? 0); [reflexivity |].
  rewrite IH. apply perm_swap.
Qed.

Lemma Array_sort_Permutation {A : Type} (cmp : A -> A -> Z) (l : list A) :
  Permutation (History.Array_sort cmp l) l.
Proof.
  induction l as [| x l IH]; simpl; [reflexivity |].
  rewrite insert_Permutation, IH. reflexivity.
Qed.

Lemma insert_sorted {A : Type} (cmp : A -> A -> Z) (R : A -> A -> Prop)
    (Htrans : forall a b c, R a b -> R b c -> R a c)
    (Hle : forall a b, cmp a b <= 0 -> R a b)
    (Hgt : forall a b, 0 < cmp a b -> R b a)
    (x : A) (l : list A) :
  StronglySorted R l -> StronglySorted R (History.insert cmp x l).
Proof.
  induction 1 as [| y l Hs IH Hall]; simpl.
  - constructor; constructor.
  - destruct (Z.leb_spec (cmp x y) 0) as [Hxy | Hxy].
    + constructor; [constructor; assumption |].
      constructor; [auto |].
      eapply List.Forall_impl; [| exact Hall]. intros z Hz. eauto.
    + constructor; [exact IH |].
      eapply Permutation_Forall.
      * symmetry. apply insert_Permutation.
      * constructor; auto.
Qed.

Lemma Array_sort_sorted {A : Type} (cmp : A -> A -> Z) (R : A -> A -> Prop)
    (Htrans : forall a b c, R a b -> R b c -> R a c)
    (Hle : forall a b, cmp a b <= 0 -> R a b)
    (Hgt : forall a b, 0 < cmp a b -> R b a)
    (l : list A) :
  StronglySorted R (History.Array_sort cmp l).
Proof.
  induction l as [| x l IH]; simpl; [constructor |].
  apply insert_sorted; assumption.
Qed.

(** X30.  A click on the header of the token usage column selects that
    column, keeps the search and the status filter, and sets the
    direction to descending when another column was selected and to the
    opposite direction otherwise.  The view then holds exactly the
    entries that pass the filter, each as often as before, in the order
    of their token usage in that direction. *)
Theorem token_column_click (getTime : string -> Z)
    (localeCompare : string -> string -> Z) (getTimeInSeconds : string -> Z)
    (st : History.State) (historyEntries : list History.HistoryEntry) :
  let st' := History.handleSortChange History.by_tokenUsage st in
  let view := History.filteredAndSortedEntries getTime localeCompare
                getTimeInSeconds st' historyEntries in
  History.sortBy st' = History.by_tokenUsage
  /\ History.sortDirection st'
     = (if History.SortBy_eqb (History.sortBy st) History.by_tokenUsage
        then match History.sortDirection st with
             | History.asc => History.desc
             | History.desc => History.asc
             end
        else History.desc)
  /\ History.searchTerm st' = History.searchTerm st
  /\ History.statusFilter st' = History.statusFilter st
  /\ Permutation view (List.filter (History.keeps st) historyEntries)
  /\ StronglySorted (token_order (History.sortDirection st')) view.
Proof.
  intros st' view.
  assert (Hby : History.sortBy st' = History.by_tokenUsage).
  { subst st'. unfold History.handleSortChange.
    destruct (History.sortBy st); reflexivity. }
  assert (Hkeeps : History.keeps st' = History.keeps st).
  { subst st'. unfold History.handleSortChange.
    destruct (History.SortBy_eqb _ _); reflexivity. }
  split; [exact Hby |]. split.
  { subst st'. unfold History.handleSortChange.
    destruct (History.SortBy_eqb _ _); reflexivity. }
  split.
  { subst st'. unfold History.handleSortChange.
    destruct (History.SortBy_eqb _ _); reflexivity. }
  split.
  { subst st'. unfold History.handleSortChange.
    destruct (History.SortBy_eqb _ _); reflexivity. }
  split.
  - subst view. unfold History.filteredAndSortedEntries.
    rewrite Array_sort_Permutation, Hkeeps. reflexivity.
  - subst view. unfold History.filteredAndSortedEntries.
    apply Array_sort_sorted.
    + intros a b c. unfold token_order. destruct (History.sortDirection st'); lia.
    + intros a b. unfold History.compare, token_order. rewrite Hby.
      destruct (History.sortDirection st'); lia.
    + intros a b. unfold History.compare, token_order. rewrite Hby.
      destruct (History.sortDirection st'); lia.
Qed.
